(** * threads_auto_post_gs: the sheet-to-Threads poster, [main_gsheet.py]

    A shallow embedding of the row store adapter, the row selector, the
    post submitter and the scheduling arithmetic of [main_gsheet.py],
    followed by the properties of the design document that were checked
    against it.

    Conventions of the embedding.
    - A Python [str] is a [string]; one [ascii] is one character, a code
      point below 256.  On that range [Py.isspace] and [Py.lower] are
      Python's [str.isspace] and [str.lower].
    - A Python [dict] with string keys whose order does not matter (a sheet
      row, a request payload, a JSON object) is a [gmap string _]; the
      schedule map of the multi-time mode, whose order decides ties of
      [min], is an association list.
    - A raised exception is the [Raise] case of [result]; [str(e)] is
      [Py.str_exn].
    - An aware [datetime] in the fixed zone [TZ] is the number of
      microseconds on the wall clock of that zone since its day 0 (a [Z]);
      the zone has no clock changes, so wall-clock arithmetic and
      comparison are those of [Z].  A [timedelta] is a [Z] of microseconds.
    - The clock, the random generator, the sheet and the remote API make
      up the [world] a statement runs in: a statement is a function from
      the world to its outcome and the world it leaves ([M]).  The numbers
      the generator gives and the replies of the remote API are lists in
      the world, so that a property proved for every world holds whatever
      is drawn and whatever is answered.
    - Time passes in [time.sleep] only; the waits between the attempts of
      a remote call, the printed lines, [load_env] and [gs_open] are left
      out. *)

From Stdlib Require Import ZArith Lia Ascii String.
From stdpp Require Import base option list sorting gmap strings pretty.

Local Open Scope Z_scope.

(** ** Python values and built-ins *)

Module Py.

(** Exceptions, with the classes the program raises or meets. *)
Inductive exn : Type :=
| Exception (msg : string)
| ValueError (msg : string)
| KeyError (key : string)
| RequestException (msg : string)
| SystemExit (code : Z).

(** [str(e)]: the message; a [KeyError] prints the [repr] of its key. *)
Definition str_exn (e : exn) : string :=
  match e with
  | Exception msg | ValueError msg | RequestException msg => msg
  | KeyError key => "'" +:+ key +:+ "'"
  | SystemExit code => pretty code
  end.

(** [SystemExit] is no [Exception]: [except Exception] lets it through. *)
Definition is_Exception (e : exn) : bool :=
  match e with
  | SystemExit _ => false
  | _ => true
  end.

(** The outcome of a call that may raise. *)
Inductive result (A : Type) : Type :=
| Ok (a : A)
| Raise (e : exn).
Global Arguments Ok {A} a.
Global Arguments Raise {A} e.

Global Instance result_ret : MRet result := fun A a => Ok a.
Global Instance result_bind : MBind result := fun A B k c =>
  match c with
  | Ok a => k a
  | Raise e => Raise e
  end.

(** [str.isspace] of one character (code points below 256). *)
Definition isspace (c : ascii) : bool :=
  let n := N_of_ascii c in
  ((9 <=? n) && (n <=? 13) || (28 <=? n) && (n <=? 32)
   || (n =? 133) || (n =? 160))%N.

(** [str.lower] of one character (code points below 256): A-Z and the
    Latin-1 capitals, the multiplication sign 0xD7 apart. *)
Definition lower_char (c : ascii) : ascii :=
  let n := N_of_ascii c in
  if ((65 <=? n) && (n <=? 90)
      || (192 <=? n) && (n <=? 222) && negb (n =? 215))%N
  then ascii_of_N (n + 32) else c.

Fixpoint lower (s : string) : string :=
  match s with
  | EmptyString => EmptyString
  | String c s' => String (lower_char c) (lower s')
  end.

Fixpoint lstrip (s : string) : string :=
  match s with
  | EmptyString => EmptyString
  | String c s' => if isspace c then lstrip s' else s
  end.

Fixpoint rstrip (s : string) : string :=
  match s with
  | EmptyString => EmptyString
  | String c s' =>
      match rstrip s' with
      | EmptyString => if isspace c then EmptyString else String c EmptyString
      | r => String c r
      end
  end.

(** [s.strip()] *)
Definition strip (s : string) : string := rstrip (lstrip s).

(** Truth value of a [str]: non-empty. *)
Definition truthy (s : string) : bool :=
  match s with
  | EmptyString => false
  | String _ _ => true
  end.

(** Truth value of [d.get(k)] for a dict of strings: a missing key gives
    [None], which is false. *)
Definition truthy_get (o : option string) : bool :=
  match o with
  | Some s => truthy s
  | None => false
  end.

(** [s[:n]] *)
Fixpoint take (n : nat) (s : string) : string :=
  match n, s with
  | S n', String c s' => String c (take n' s')
  | _, _ => EmptyString
  end.

(** [sub in s] for strings. *)
Fixpoint contains (sub s : string) : bool :=
  String.prefix sub s
  || match s with
     | EmptyString => false
     | String _ s' => contains sub s'
     end.

(** [s.split(sep)] for a one-character separator: the pieces between the
    separators, empty ones kept; never the empty list. *)
Fixpoint split (sep : ascii) (s : string) : list string :=
  match s with
  | EmptyString => [EmptyString]
  | String c s' =>
      if decide (c = sep) then EmptyString :: split sep s'
      else match split sep s' with
           | p :: ps => String c p :: ps
           | [] => [String c EmptyString]
           end
  end.

(** Value of a decimal digit. *)
Definition digit (c : ascii) : option Z :=
  let n := N_of_ascii c in
  if ((48 <=? n) && (n <=? 57))%N then Some (Z.of_N n - 48) else None.

Fixpoint digits (acc : Z) (s : string) : option Z :=
  match s with
  | EmptyString => Some acc
  | String c s' =>
      match digit c with
      | Some d => digits (10 * acc + d) s'
      | None => None
      end
  end.

(** [int(s)] on the decimal literals with ASCII digits: surrounding
    white space is ignored, one sign is allowed, at least one digit is
    needed; anything else raises [ValueError].  (Digit-group
    underscores are not modelled: they raise here.) *)
Definition int (s : string) : result Z :=
  let bad := Raise (ValueError ("invalid literal for int() with base 10: '" +:+ s +:+ "'")) in
  let of_digits (neg : bool) (t : string) :=
    match t with
    | EmptyString => bad
    | _ => match digits 0 t with
           | Some n => Ok (if neg then - n else n)
           | None => bad
           end
    end in
  match strip s with
  | String "-" t => of_digits true t
  | String "+" t => of_digits false t
  | t => of_digits false t
  end.

End Py.

Import Py.

(** ** The row store *)

(** The required columns, [NEED_COLS]. *)
Definition NEED_COLS : list string :=
  ["text"; "image_url"; "alt_text"; "link_attachment"; "reply_control";
   "topic_tag"; "location_id"; "status"; "posted_at"; "error"].

(** A sheet row as the program holds it: a dict from column name to cell. *)
Abbreviation row := (gmap string string).

(** [{h: (raw[idx] if idx < len(raw) else "") for idx, h in enumerate(header)}]:
    a later column of the same name overwrites an earlier one. *)
Definition row_of (header : list string) (raw : list string) : row :=
  foldl (fun (d : row) '(idx, h) => <[h := default EmptyString (raw !! idx)]> d)
        ∅ (imap pair header).

(** [enumerate(values[1:], start=2)] turned into [(i, row)] pairs. *)
Fixpoint rows_from (i : nat) (header : list string) (raws : list (list string))
  : list (nat * row) :=
  match raws with
  | [] => []
  | raw :: raws' => (i, row_of header raw) :: rows_from (S i) header raws'
  end.

(** [rows_with_index(ws, header)] on the values [ws.get_all_values()]
    returned. *)
Definition rows_with_index (values : list (list string)) (header : list string)
  : list (nat * row) :=
  if (length values <=? 1)%nat then [] else rows_from 2 header (tail values).

(** The test of [first_unposted] on one row. *)
Definition unposted (r : row) : bool :=
  negb (bool_decide (lower (strip (default EmptyString (r !! "status"))) = "posted"))
  && (truthy_get (r !! "text") || truthy_get (r !! "image_url")).

(** [first_unposted(rows)] *)
Fixpoint first_unposted (rows : list (nat * row)) : option (nat * row) :=
  match rows with
  | [] => None
  | (i, r) :: rows' => if unposted r then Some (i, r) else first_unposted rows'
  end.

(** ** The world the program runs in *)

(** A request payload value: a string or [True]/[False]. *)
Inductive pval : Type :=
| PStr (s : string)
| PBool (b : bool).

Global Instance pval_eq_dec : EqDecision pval.
Proof. solve_decision. Defined.

(** What [requests.post] is given: the [json=] payload of create-container,
    or the [params=] of publish-container ([creation_id] may be [None]). *)
Inductive request : Type :=
| PostJson (url : string) (headers : gmap string string) (payload : gmap string pval)
| PostParams (url : string) (headers : gmap string string)
             (params : gmap string (option string)).

(** The reply of the remote API: [resp.status_code], [resp.text] and what
    [resp.json()] gives ([None]: the body is not JSON and [json()] raises). *)
Record response : Type := Response {
  status_code : Z;
  text : string;
  json : option (gmap string string);
}.

(** [time.struct_time], the fields [strftime] reads. *)
Record struct_time : Type := StructTime {
  tm_year : Z; tm_mon : Z; tm_mday : Z; tm_hour : Z; tm_min : Z; tm_sec : Z;
}.

Record world : Type := World {
  (** [datetime.now(TZ)], in microseconds; only [time.sleep] moves it *)
  clock : Z;
  (** [time.localtime()] of the host at a given instant *)
  localtime : Z -> struct_time;
  (** the numbers the random generator gives next, [0] once used up *)
  draws : list Z;
  (** the sheet, as [get_all_values] shows it: row 1 first *)
  sheet : list (list string);
  (** what [requests.post] meets next: a failure of the connection (with
      its message) or a reply; the connection fails once the list is
      used up *)
  replies : list (string + response);
  (** the requests sent so far, oldest first *)
  sent : list request;
  (** the instants at which a firing started, oldest first *)
  fired : list Z;
}.

(** A statement: it reads and changes the world, and returns or raises. *)
Definition M (A : Type) : Type := world -> result A * world.

Global Instance M_ret : MRet M := fun A a σ => (Ok a, σ).
Global Instance M_bind : MBind M := fun A B k c σ =>
  match c σ with
  | (Ok a, σ') => k a σ'
  | (Raise e, σ') => (Raise e, σ')
  end.

Definition raise {A} (e : exn) : M A := fun σ => (Raise e, σ).

(** [try: c except Exception as e: h(e)] *)
Definition try_except {A} (c : M A) (h : exn -> M A) : M A := fun σ =>
  match c σ with
  | (Ok a, σ') => (Ok a, σ')
  | (Raise e, σ') => if is_Exception e then h e σ' else (Raise e, σ')
  end.

Definition lift {A} (r : result A) : M A := fun σ => (r, σ).

Definition set_clock (t : Z) (σ : world) : world :=
  World t (localtime σ) (draws σ) (sheet σ) (replies σ) (sent σ) (fired σ).
Definition set_draws (d : list Z) (σ : world) : world :=
  World (clock σ) (localtime σ) d (sheet σ) (replies σ) (sent σ) (fired σ).
Definition set_sheet (s : list (list string)) (σ : world) : world :=
  World (clock σ) (localtime σ) (draws σ) s (replies σ) (sent σ) (fired σ).
Definition set_net (r : list (string + response)) (q : list request) (σ : world) : world :=
  World (clock σ) (localtime σ) (draws σ) (sheet σ) r q (fired σ).
Definition set_fired (f : list Z) (σ : world) : world :=
  World (clock σ) (localtime σ) (draws σ) (sheet σ) (replies σ) (sent σ) f.

(** Durations, in microseconds. *)
Definition seconds (n : Z) : Z := n * 1000000.
Definition minutes (n : Z) : Z := n * 60000000.
Definition days (n : Z) : Z := n * 86400000000.

(** [datetime.now(TZ)] *)
Definition datetime_now : M Z := fun σ => (Ok (clock σ), σ).

(** [time.sleep(n)], [n] in seconds. *)
Definition sleep (n : Z) : M unit := fun σ => (Ok tt, set_clock (clock σ + seconds n) σ).

(** [random.randint(a, b)]: some number of [a..b]; an empty range raises. *)
Definition randint (a b : Z) : M Z := fun σ =>
  if decide (a <= b)
  then (Ok (a + default 0 (head (draws σ)) `mod` (b - a + 1)), set_draws (tail (draws σ)) σ)
  else (Raise (ValueError "empty range for randrange()"), σ).

(** [requests.post(...)]: the request is sent and the next reply comes
    back, or [RequestException] is raised. *)
Definition requests_post (q : request) : M response := fun σ =>
  let σ' := set_net (tail (replies σ)) (sent σ ++ [q]) σ in
  match replies σ with
  | inr resp :: _ => (Ok resp, σ')
  | inl msg :: _ => (Raise (RequestException msg), σ')
  | [] => (Raise (RequestException "connection failed"), σ')
  end.

(** ** Row store adapter *)

(** [ws.get_all_values()] *)
Definition get_all_values : M (list (list string)) := fun σ => (Ok (sheet σ), σ).

(** [ws.update(values=[cells], range_name="1:1")]: row 1 gets [cells] from
    column A on; cells of row 1 to the right of them stay. *)
Definition ws_update_row1 (cells : list string) : M unit := fun σ =>
  let old := default [] (head (sheet σ)) in
  (Ok tt, set_sheet ((cells ++ drop (length cells) old) :: tail (sheet σ)) σ).

(** [l] made at least [n] long with [d]. *)
Definition pad {A} (n : nat) (d : A) (l : list A) : list A :=
  l ++ replicate (n - length l) d.

(** The sheet with cell ([r], [c]) set (both counted from 0); the grid
    grows with empty cells as far as needed. *)
Definition set_cell (r c : nat) (v : string) (s : list (list string))
  : list (list string) :=
  let s' := pad (S r) [] s in
  <[r := <[c := v]> (pad (S c) EmptyString (default [] (s' !! r)))]> s'.

(** The content of cell ([r], [c]), both counted from 1 as the sheet does;
    a cell outside the grid is empty. *)
Definition cell (s : list (list string)) (r c : nat) : string :=
  match r, c with
  | S r', S c' => default EmptyString (s !! r' ≫= fun cells => cells !! c')
  | _, _ => EmptyString
  end.

(** [ws.update_cell(row, col, value)]; the sheet counts rows and columns
    from 1 and the library refuses anything lower. *)
Definition update_cell (r c : nat) (v : string) : M unit := fun σ =>
  match r, c with
  | S r', S c' => (Ok tt, set_sheet (set_cell r' c' v (sheet σ)) σ)
  | _, _ => (Raise (Exception "incorrect cell label"), σ)
  end.

(** [ensure_header(ws)] *)
Definition ensure_header : M (list string) :=
  values ← get_all_values;
  match values with
  | [] => ws_update_row1 NEED_COLS;; mret NEED_COLS
  | header0 :: _ =>
      let '(header, changed) :=
        foldl (fun '(header, changed) col =>
                 if bool_decide (col ∈ header) then (header, changed)
                 else (header ++ [col], true))
              (header0, false) NEED_COLS in
      (if changed : bool then ws_update_row1 header else mret tt);;
      mret header
  end.

(** [d[k]] on a dict: a missing key raises [KeyError]. *)
Definition getitem {V} (d : gmap string V) (k : string) : M V :=
  match d !! k with
  | Some v => mret v
  | None => raise (KeyError k)
  end.

Definition pad2 (n : Z) : string :=
  if decide (0 <= n < 10) then "0" +:+ pretty n else pretty n.

(** [time.strftime("%Y-%m-%d %H:%M:%S", t)] *)
Definition strftime (t : struct_time) : string :=
  pretty (tm_year t) +:+ "-" +:+ pad2 (tm_mon t) +:+ "-" +:+ pad2 (tm_mday t)
  +:+ " " +:+ pad2 (tm_hour t) +:+ ":" +:+ pad2 (tm_min t) +:+ ":" +:+ pad2 (tm_sec t).

(** [time.localtime()] *)
Definition time_localtime : M struct_time := fun σ => (Ok (localtime σ (clock σ)), σ).

(** [{h: i+1 for i, h in enumerate(header)}] *)
Definition col_idx_of (header : list string) : gmap string nat :=
  foldl (fun (d : gmap string nat) '(i, h) => <[h := S i]> d) ∅ (imap pair header).

(** [update_result(ws, header, row_idx, status, err)] *)
Definition update_result (header : list string) (row_idx : nat)
    (status err : string) : M unit :=
  let col_idx := col_idx_of header in
  now ← time_localtime;
  let ts := strftime now in
  c ← getitem col_idx "status";
  update_cell row_idx c status;;
  c ← getitem col_idx "posted_at";
  update_cell row_idx c (if decide (status = "posted") then ts else EmptyString);;
  c ← getitem col_idx "error";
  update_cell row_idx c (if decide (status = "failed") then take 3000 err else EmptyString).

(** ** Post submitter *)

Definition API_BASE : string := "https://graph.threads.net/v1.0".

Definition auth_headers (token : string) : gmap string string :=
  {[ "Authorization" := "Bearer " +:+ token ]}.

(** [@retry(stop=stop_after_attempt(n), wait=..., reraise=True)]: the call
    is made again after an [Exception] until it returns or [n] attempts are
    used; the last exception is then raised.  The waits between attempts
    are not modelled. *)
Fixpoint retry {A} (attempts : nat) (call : M A) : M A :=
  match attempts with
  | S (S _ as n) => try_except call (fun _ => retry n call)
  | _ => call
  end.

Definition stop_after_attempt : nat := 3.

(** What every attempt does with the reply:
    [if resp.status_code >= 400: raise Exception(f"HTTP {resp.status_code}: {resp.text}")],
    [return resp.json()]. *)
Definition check_reply (resp : response) : result (gmap string string) :=
  if decide (status_code resp >= 400)
  then Raise (Exception ("HTTP " +:+ pretty (status_code resp) +:+ ": " +:+ text resp))
  else match json resp with
       | Some data => Ok data
       | None => Raise (ValueError "Expecting value")
       end.

(** The body of [create_container], one attempt. *)
Definition create_container_once (user_id token : string)
    (payload : gmap string pval) : M (gmap string string) :=
  let url := API_BASE +:+ "/" +:+ user_id +:+ "/threads" in
  resp ← requests_post (PostJson url (auth_headers token) payload);
  lift (check_reply resp).

Definition create_container (user_id token : string) (payload : gmap string pval)
  : M (gmap string string) :=
  retry stop_after_attempt (create_container_once user_id token payload).

(** The body of [publish_container], one attempt. *)
Definition publish_container_once (user_id token : string)
    (creation_id : option string) : M (gmap string string) :=
  let url := API_BASE +:+ "/" +:+ user_id +:+ "/threads_publish" in
  resp ← requests_post
           (PostParams url (auth_headers token) {[ "creation_id" := creation_id ]});
  lift (check_reply resp).

Definition publish_container (user_id token : string) (creation_id : option string)
  : M (gmap string string) :=
  retry stop_after_attempt (publish_container_once user_id token creation_id).

(** [if row.get(k): payload[k] = row[k]] *)
Definition copy_if_set (r : row) (k : string) (payload : gmap string pval)
  : gmap string pval :=
  if truthy_get (r !! k)
  then <[k := PStr (default EmptyString (r !! k))]> payload
  else payload.

(** The dict [post_one] returns. *)
Record post_result : Type := PostResult {
  pr_status : string;
  pr_container_id : option string;
  pr_media_type : string;
  pr_publish : option (gmap string string);
}.

Definition image_payload (r : row) (image_url text : string) : gmap string pval :=
  copy_if_set r "location_id"
    (copy_if_set r "topic_tag"
      (copy_if_set r "reply_control"
        (copy_if_set r "alt_text"
          (<["text" := PStr text]>
            (<["image_url" := PStr image_url]> {[ "media_type" := PStr "IMAGE" ]}))))).

Definition text_payload (r : row) (text : string) : gmap string pval :=
  copy_if_set r "location_id"
    (copy_if_set r "topic_tag"
      (copy_if_set r "reply_control"
        (copy_if_set r "link_attachment"
          (<["auto_publish_text" := PBool true]>
            (<["text" := PStr text]> {[ "media_type" := PStr "TEXT" ]}))))).

(** [post_one(user_id, token, row)] *)
Definition post_one (user_id token : string) (r : row) : M post_result :=
  let text := strip (default EmptyString (r !! "text")) in
  let image_url := strip (default EmptyString (r !! "image_url")) in
  if truthy image_url then
    let payload := image_payload r image_url text in
    data ← create_container user_id token payload;
    let cid := data !! "id" in
    pub ← publish_container user_id token cid;
    mret (PostResult "published" cid "IMAGE" (Some pub))
  else
    let payload := text_payload r text in
    data ← create_container user_id token payload;
    mret (PostResult "published" (data !! "id") "TEXT" None).

(** [post_next_unposted(user_id, token, ws, header)]; the printed lines are
    left out. *)
Definition post_next_unposted (user_id token : string) (header : list string)
  : M bool :=
  values ← get_all_values;
  let rows := rows_with_index values header in
  match first_unposted rows with
  | None => mret false
  | Some (row_idx, r) =>
      try_except
        (res ← post_one user_id token r;
         update_result header row_idx "posted" EmptyString;;
         mret true)
        (fun e =>
           let err := str_exn e in
           update_result header row_idx "failed" err;;
           mret false)
  end.

(** ** Clock utilities *)

(** [datetime.time(hour, minute)] *)
Record dtime : Type := Dtime { hour : Z; minute : Z }.

(** [datetime.time(hour=h, minute=m)], with its range checks. *)
Definition mk_dtime (h m : Z) : result dtime :=
  if decide (0 <= h < 24) then
    if decide (0 <= m < 60) then Ok (Dtime h m)
    else Raise (ValueError "minute must be in 0..59")
  else Raise (ValueError "hour must be in 0..23").

(** [h, m = map(int, s.split(":"))]: [map] is lazy, so each piece is
    converted when the unpacking asks for it. *)
Definition unpack_hm (s : string) : result (Z * Z) :=
  match split ":" s with
  | [a; b] => h ← int a; m ← int b; Ok (h, m)
  | [a] => _ ← int a; Raise (ValueError "not enough values to unpack (expected 2, got 1)")
  | a :: b :: c :: _ =>
      _ ← int a; _ ← int b; _ ← int c;
      Raise (ValueError "too many values to unpack (expected 2)")
  | [] => Raise (ValueError "not enough values to unpack (expected 2, got 0)")
  end.

Definition _parse_hhmm (s : string) : result dtime :=
  '(h, m) ← unpack_hm s;
  mk_dtime h m.

Definition _parse_hhmm_ext (s : string) : result (Z * dtime) :=
  '(h, m) ← unpack_hm s;
  let extra_days := h `div` 24 in
  let h := h `mod` 24 in
  t ← mk_dtime h m;
  Ok (extra_days, t).

(** [dt.date()], as a day number. *)
Definition date (dt : Z) : Z := dt `div` days 1.

(** [datetime.combine(d, t, TZ)] *)
Definition combine (d : Z) (t : dtime) : Z :=
  days d + seconds (hour t * 3600 + minute t * 60).

(** [int(delta.total_seconds())]: the whole seconds of a [timedelta],
    rounded towards zero.  (The float in between is exact up to 2^53
    microseconds.) *)
Definition total_seconds_int (delta : Z) : Z := delta `quot` 1000000.

(** [a, b = s.split("-")] *)
Definition unpack2 (l : list string) : result (string * string) :=
  match l with
  | [a; b] => Ok (a, b)
  | [] | [_] => Raise (ValueError "not enough values to unpack (expected 2)")
  | _ => Raise (ValueError "too many values to unpack (expected 2)")
  end.

(** ** Scheduling engine *)

(** [_next_random_in_window(window_str)] *)
Definition _next_random_in_window (window_str : string) : M Z :=
  '(start_s, end_s) ← lift (unpack2 (split "-" window_str));
  t_start ← lift (_parse_hhmm start_s);
  t_end ← lift (_parse_hhmm end_s);
  now ← datetime_now;
  let today := date now in
  let start_dt := combine today t_start in
  let end_dt := combine today t_end in
  let '(start_dt, end_dt) :=
    if decide (end_dt <= now \/ end_dt <= start_dt)
    then (start_dt + days 1, end_dt + days 1)
    else (start_dt, end_dt) in
  let win_start := start_dt `max` (now + seconds 5) in
  let '(start_dt, end_dt, win_start) :=
    if decide (end_dt - win_start <= seconds 5)
    then (start_dt + days 1, end_dt + days 1, start_dt + days 1)
    else (start_dt, end_dt, win_start) in
  let delta := end_dt - win_start in
  let rsec := total_seconds_int delta in
  offs ← randint 0 (0 `max` rsec);
  mret (win_start + seconds offs).

(** [_next_at_with_jitter(time_str, jitter_min, ref)]; [ref=None] is
    [None]. *)
Definition _next_at_with_jitter (time_str : string) (jitter_min : Z)
    (ref : option Z) : M Z :=
  ref ← match ref with
        | None => datetime_now
        | Some ref => mret ref
        end;
  '(d, t) ← lift (_parse_hhmm_ext time_str);
  let base := combine (date ref) t + days d in
  let start := base - minutes jitter_min in
  let end_ := base + minutes jitter_min in
  let '(base, start, end_) :=
    if decide (ref > end_)
    then (base + days 1,
          base + days 1 - minutes jitter_min,
          base + days 1 + minutes jitter_min)
    else (base, start, end_) in
  let start := start `max` (ref + seconds 5) in
  let secs := 60 `max` total_seconds_int (end_ - start) in
  offs ← randint 0 secs;
  mret (start + seconds offs).

(** The waiting loop of the scheduler modes,
    [while True: now = datetime.now(TZ); if now >= nxt: break; time.sleep(...)],
    unrolled at most [fuel] times. *)
Fixpoint wait_loop (fuel : nat) (nxt : Z) : M unit :=
  match fuel with
  | O => mret tt
  | S fuel' =>
      now ← datetime_now;
      if decide (now >= nxt) then mret tt
      else
        sleep (60 `min` (1 `max` total_seconds_int (nxt - now)));;
        wait_loop fuel' nxt
  end.

(** The waiting loop: every round sleeps a second or more, so one round
    per second left and one more to see the end are enough. *)
Definition wait_until (nxt : Z) : M unit :=
  now ← datetime_now;
  wait_loop (S (Z.to_nat ((nxt - now) `div` 1000000 + 1))) nxt.

(** One firing of a scheduler mode: [ws = gs_open(...)],
    [header = ensure_header(ws)], [post_next_unposted(...)]. *)
Definition fire (user_id token : string) : M unit :=
  (fun σ => (Ok tt, set_fired (fired σ ++ [clock σ]) σ));;
  header ← ensure_header;
  post_next_unposted user_id token header;;
  mret tt.

(** One round of the [while True] of [run_daily_window]; the value is what
    the variable [nxt] holds when the round ends. *)
Definition run_daily_window_round (user_id token window_str : string) : M Z :=
  nxt ← _next_random_in_window window_str;
  wait_until nxt;;
  fire user_id token;;
  nxt ← _next_random_in_window window_str;
  let nxt := nxt + days 1 in
  mret nxt.

(** The first [n] rounds of [run_daily_window]. *)
Fixpoint run_daily_window (n : nat) (user_id token window_str : string) : M unit :=
  match n with
  | O => mret tt
  | S n' =>
      run_daily_window_round user_id token window_str;;
      run_daily_window n' user_id token window_str
  end.

(** The schedule map of the multi-time mode: a dict in insertion order. *)
Abbreviation schedule := (list (string * Z)).

(** [d.get(k)] *)
Fixpoint dict_get (k : string) (d : schedule) : option Z :=
  match d with
  | [] => None
  | (k', v') :: d' => if decide (k' = k) then Some v' else dict_get k d'
  end.

(** [d[k] = v]: a key already there keeps its place. *)
Fixpoint dict_set (k : string) (v : Z) (d : schedule) : schedule :=
  match d with
  | [] => [(k, v)]
  | (k', v') :: d' =>
      if decide (k' = k) then (k', v) :: d' else (k', v') :: dict_set k v d'
  end.

(** [min(d.items(), key=lambda kv: kv[1])]: the first of the least. *)
Definition min_item (d : schedule) : result (string * Z) :=
  match d with
  | [] => Raise (ValueError "min() arg is an empty sequence")
  | kv :: d' =>
      Ok (foldl (fun best kv => if decide (kv.2 < best.2) then kv else best) kv d')
  end.

(** [[t.strip() for t in (times_csv or "").split(",") if t.strip()]] *)
Definition parse_times (times_csv : option string) : list string :=
  strip <$> filter (fun t => truthy (strip t) = true)
                   (split "," (default EmptyString times_csv)).

(** [{t: _next_at_with_jitter(t, jitter_min) for t in times}] *)
Fixpoint initial_schedule (times : list string) (jitter_min : Z) (d : schedule)
  : M schedule :=
  match times with
  | [] => mret d
  | t :: times' =>
      v ← _next_at_with_jitter t jitter_min None;
      initial_schedule times' jitter_min (dict_set t v d)
  end.

(** One round of the [while True] of [run_daily_multi_at]. *)
Definition run_daily_multi_at_round (user_id token : string) (jitter_min : Z)
    (schedule_map : schedule) : M schedule :=
  '(next_t, next_at) ← lift (min_item schedule_map);
  wait_until next_at;;
  fire user_id token;;
  v ← _next_at_with_jitter next_t jitter_min (Some (next_at + days 1));
  mret (dict_set next_t v schedule_map).

Fixpoint run_daily_multi_at_loop (n : nat) (user_id token : string) (jitter_min : Z)
    (schedule_map : schedule) : M schedule :=
  match n with
  | O => mret schedule_map
  | S n' =>
      schedule_map ← run_daily_multi_at_round user_id token jitter_min schedule_map;
      run_daily_multi_at_loop n' user_id token jitter_min schedule_map
  end.

(** The first [n] rounds of [run_daily_multi_at(times_csv, jitter_min)]. *)
Definition run_daily_multi_at (n : nat) (user_id token : string)
    (times_csv : option string) (jitter_min : Z) : M schedule :=
  let times := parse_times times_csv in
  match times with
  | [] => raise (SystemExit 2)
  | _ =>
      schedule_map ← initial_schedule times jitter_min [];
      run_daily_multi_at_loop n user_id token jitter_min schedule_map
  end.

(** ** Vocabulary of the properties *)

(** The status of the row, trimmed and in lower case, is "posted". *)
Definition posted_status (r : row) : Prop :=
  lower (strip (default EmptyString (r !! "status"))) = "posted".

(** Neither [text] nor [image_url] holds anything. *)
Definition blank (r : row) : Prop :=
  truthy_get (r !! "text") = false /\ truthy_get (r !! "image_url") = false.

(** The rows [first_unposted] may return. *)
Definition eligible (r : row) : Prop := ~ posted_status r /\ ~ blank r.

(** The row indices grow along the list, as in a sheet read top down. *)
Definition ascending (rows : list (nat * row)) : Prop :=
  StronglySorted Nat.lt (rows.*1).

(** Every character of [s] is white space. *)
Fixpoint all_space (s : string) : bool :=
  match s with
  | EmptyString => true
  | String c s' => isspace c && all_space s'
  end.

(** The cell of row [row_idx] in the column [update_result] writes for
    the column name [name]. *)
Definition field (s : list (list string)) (header : list string)
    (row_idx : nat) (name : string) : string :=
  match col_idx_of header !! name with
  | Some c => cell s row_idx c
  | None => EmptyString
  end.

(** What one attempt of a remote call makes of what [requests.post] meets. *)
Definition attempt_result (o : option (string + response))
  : result (gmap string string) :=
  match o with
  | Some (inr resp) => check_reply resp
  | Some (inl msg) => Raise (RequestException msg)
  | None => Raise (RequestException "connection failed")
  end.

(** The result of a remote call retried up to [n] attempts against the
    replies [rs], and the number of attempts made. *)
Fixpoint retry_outcome (n : nat) (rs : list (string + response))
  : result (gmap string string) * nat :=
  match n with
  | S (S _ as n') =>
      match attempt_result (head rs) with
      | Ok data => (Ok data, 1%nat)
      | Raise e =>
          if is_Exception e
          then let '(res, k) := retry_outcome n' (tail rs) in (res, S k)
          else (Raise e, 1%nat)
      end
  | _ => (attempt_result (head rs), 1%nat)
  end.

(** The request of create-container and of publish-container. *)
Definition create_request (user_id token : string) (payload : gmap string pval)
  : request :=
  PostJson (API_BASE +:+ "/" +:+ user_id +:+ "/threads") (auth_headers token) payload.

Definition publish_request (user_id token : string) (creation_id : option string)
  : request :=
  PostParams (API_BASE +:+ "/" +:+ user_id +:+ "/threads_publish")
             (auth_headers token) {[ "creation_id" := creation_id ]}.

(** The entry an optional field of the row gets in a payload: the cell when
    it is there and not empty, no entry otherwise. *)
Definition optional_field (r : row) (k : string) : option pval :=
  if truthy_get (r !! k) then PStr <$> r !! k else None.

(** Row [row_idx] of the sheet is marked as posted at [ts]. *)
Definition marked_posted (s : list (list string)) (header : list string)
    (row_idx : nat) (ts : string) : Prop :=
  field s header row_idx "status" = "posted"
  /\ field s header row_idx "posted_at" = ts
  /\ ts <> EmptyString
  /\ field s header row_idx "error" = EmptyString.

(** Row [row_idx] of the sheet is marked as failed with the error [err]. *)
Definition marked_failed (s : list (list string)) (header : list string)
    (row_idx : nat) (err : string) : Prop :=
  field s header row_idx "status" = "failed"
  /\ field s header row_idx "error" = take 3000 err
  /\ (err <> EmptyString -> field s header row_idx "error" <> EmptyString)
  /\ (String.length (field s header row_idx "error") <= 3000)%nat
  /\ field s header row_idx "posted_at" = EmptyString.

(** The target instant of the time-with-jitter policy: the time of day [t]
    on the day of [ref], [d] days later for an hour of 24 or more, and one
    day later still when [ref] is past the target plus the jitter. *)
Definition jitter_target (d : Z) (t : dtime) (jitter_min ref : Z) : Z :=
  let base := combine (date ref) t + days d in
  if decide (ref > base + minutes jitter_min) then base + days 1 else base.

(** The earliest instant that policy may give, and the span, in seconds,
    it draws from. *)
Definition jitter_start (d : Z) (t : dtime) (jitter_min ref : Z) : Z :=
  (jitter_target d t jitter_min ref - minutes jitter_min) `max` (ref + seconds 5).

Definition jitter_span (d : Z) (t : dtime) (jitter_min ref : Z) : Z :=
  60 `max` total_seconds_int
             (jitter_target d t jitter_min ref + minutes jitter_min
              - jitter_start d t jitter_min ref).

(** A time of day within the ranges [datetime.time] accepts. *)
Definition valid_dtime (t : dtime) : Prop :=
  0 <= hour t < 24 /\ 0 <= minute t < 60.

(** The instant [v] lies in the window from [t_start] to [t_end] of day
    [day]. *)
Definition in_window (day : Z) (t_start t_end : dtime) (v : Z) : Prop :=
  combine day t_start <= v <= combine day t_end.

(** ** Batch mode and the daily-at mode *)

(** The [while True] of [run_batch], at most [rounds] rounds of it.  [n]
    counts the rows handled so far and [rows] is what the last read of the
    sheet gave.  The value tells how the unrolling ended: [true] when the
    loop left through one of its [break]s, [false] when the rounds were
    used up with the loop still going. *)
Fixpoint run_batch_loop (rounds : nat) (user_id token : string)
    (header : list string) (max_per_run n : Z) (rows : list (nat * row)) : M bool :=
  match rounds with
  | O => mret false
  | S rounds' =>
      match first_unposted rows with
      | None => mret true
      | Some (row_idx, r) =>
          try_except
            (res ← post_one user_id token r;
             update_result header row_idx "posted" EmptyString)
            (fun e => update_result header row_idx "failed" (str_exn e));;
          let n := n + 1 in
          if decide (max_per_run <> 0 /\ n >= max_per_run) then mret true
          else
            values ← get_all_values;
            let rows := rows_with_index values header in
            run_batch_loop rounds' user_id token header max_per_run n rows
      end
  end.

(** [run_batch(max_per_run)], its loop unrolled at most [rounds] times. *)
Definition run_batch (rounds : nat) (user_id token : string) (max_per_run : Z)
  : M bool :=
  header ← ensure_header;
  values ← get_all_values;
  let rows := rows_with_index values header in
  run_batch_loop rounds user_id token header max_per_run 0 rows.

(** One round of the [while True] of [run_daily_at]; the value is what the
    variable [nxt] holds when the round ends. *)
Definition run_daily_at_round (user_id token time_str : string) (jitter_min : Z)
  : M Z :=
  nxt ← _next_at_with_jitter time_str jitter_min None;
  wait_until nxt;;
  fire user_id token;;
  nxt ← _next_at_with_jitter time_str jitter_min (Some (nxt + days 1));
  mret nxt.

(** The first [n] rounds of [run_daily_at(time_str, jitter_min)]. *)
Fixpoint run_daily_at (n : nat) (user_id token time_str : string) (jitter_min : Z)
  : M unit :=
  match n with
  | O => mret tt
  | S n' =>
      run_daily_at_round user_id token time_str jitter_min;;
      run_daily_at n' user_id token time_str jitter_min
  end.

(** ** More vocabulary *)

(** The three columns [update_result] writes. *)
Definition result_cols : list string := ["status"; "posted_at"; "error"].

(** The remote API answers the reply [o] well: a status below 400 and a
    JSON body. *)
Definition good_reply (o : string + response) : Prop :=
  match o with
  | inr resp => status_code resp < 400 /\ is_Some (json resp)
  | inl _ => False
  end.

(** The outcome is a return, not a raise. *)
Definition is_Some_ok {A} (c : result A) : Prop :=
  match c with
  | Ok _ => True
  | Raise _ => False
  end.

Global Instance exn_eq_dec : EqDecision exn.
Proof. solve_decision. Defined.

Global Instance dtime_eq_dec : EqDecision dtime.
Proof. solve_decision. Defined.

Global Instance result_eq_dec {A} `{EqDecision A} : EqDecision (result A).
Proof. solve_decision. Defined.

(** Every clock string "HH:MM" with HH below [hours] and MM below 60,
    written with two digits each, unpacks to its two numbers. *)
Definition clock_strings_unpack (hours : Z) : bool :=
  forallb (fun h =>
    forallb (fun m =>
      bool_decide (unpack_hm (pad2 h +:+ ":" +:+ pad2 m) = Ok (h, m)))
      (seqZ 0 60))
    (seqZ 0 hours).

(** * Properties *)

(** ** Row selector *)

Lemma unposted_eligible (r : row) : unposted r = true <-> eligible r.
Proof.
  unfold unposted, eligible, posted_status, blank.
  rewrite andb_true_iff, negb_true_iff, bool_decide_eq_false, orb_true_iff.
  split; intros [Hs Ht]; split; try done.
  - intros [H1 H2]. destruct Ht; congruence.
  - destruct (truthy_get (r !! "text")); [by left|].
    destruct (truthy_get (r !! "image_url")); [by right|].
    by destruct Ht.
Qed.

Lemma first_unposted_split (rows : list (nat * row)) (i : nat) (r : row) :
  first_unposted rows = Some (i, r) ->
  exists pre post, rows = pre ++ (i, r) :: post /\ eligible r
                   /\ Forall (fun p => ~ eligible p.2) pre.
Proof.
  induction rows as [|[j r'] rows IH]; simpl; [done|].
  destruct (unposted r') eqn:E.
  - intros [= -> ->]. exists [], rows. split_and!; [done| |constructor].
    by apply unposted_eligible.
  - intros (pre & post & -> & Hel & Hpre)%IH.
    exists ((j, r') :: pre), post. split_and!; [done..|].
    constructor; [|done]. simpl. rewrite <- unposted_eligible. congruence.
Qed.

Lemma first_unposted_None (rows : list (nat * row)) :
  first_unposted rows = None <-> Forall (fun p => ~ eligible p.2) rows.
Proof.
  induction rows as [|[j r'] rows IH]; simpl.
  - split; [constructor|done].
  - destruct (unposted r') eqn:E.
    + split; [done|]. intros [H _]%Forall_cons. simpl in H.
      by apply unposted_eligible in E.
    + rewrite IH, Forall_cons. simpl. rewrite <- unposted_eligible.
      split; [|tauto]. intros ?. split; [congruence|done].
Qed.

Lemma rows_from_indices (i : nat) (header : list string) (raws : list (list string)) :
  (rows_from i header raws).*1 = seq i (length raws).
Proof.
  revert i. induction raws as [|raw raws IH]; intros i; simpl; [done|].
  by rewrite IH.
Qed.

Lemma seq_ascending (i n : nat) : StronglySorted Nat.lt (seq i n).
Proof.
  revert i. induction n as [|n IH]; intros i; simpl; constructor; [apply IH|].
  apply Forall_forall. intros j Hj%list_elem_of_In%in_seq. unfold Nat.lt. lia.
Qed.

(** What [rows_with_index] reads is in ascending row order, from row 2 on. *)
Lemma rows_with_index_ascending (values : list (list string)) (header : list string) :
  ascending (rows_with_index values header)
  /\ Forall (fun p => (2 <= p.1)%nat) (rows_with_index values header).
Proof.
  unfold ascending, rows_with_index.
  destruct (length values <=? 1)%nat; [split; constructor|].
  split; [rewrite rows_from_indices; apply seq_ascending|].
  apply Forall_fmap with (f := fst) (P := fun i => (2 <= i)%nat).
  rewrite rows_from_indices. apply Forall_forall.
  intros j Hj%list_elem_of_In%in_seq. lia.
Qed.

(** C1: [first_unposted] returns a row of the list that is not marked
    "posted" (status trimmed, case ignored) and has a text or an image url;
    no row before it in the list is such a row, so that in a list in
    ascending row order it has the lowest row index of them; and it returns
    nothing exactly when the list has no such row. *)
Theorem first_unposted_lowest_eligible (rows : list (nat * row)) :
  match first_unposted rows with
  | Some (i, r) =>
      (i, r) ∈ rows /\ ~ posted_status r /\ ~ blank r
      /\ (ascending rows ->
          forall j r', (j, r') ∈ rows -> eligible r' -> (i <= j)%nat)
  | None => forall j r', (j, r') ∈ rows -> ~ eligible r'
  end.
Proof.
  destruct (first_unposted rows) as [[i r]|] eqn:E.
  - apply first_unposted_split in E as (pre & post & -> & [Hp Hb] & Hpre).
    split_and!; [set_solver|done..|].
    intros Hasc j r' Hin Hel. unfold ascending in Hasc.
    rewrite fmap_app, fmap_cons in Hasc. simpl in Hasc.
    apply StronglySorted_app_1_r, StronglySorted_cons in Hasc as [Hlt _].
    apply elem_of_app in Hin as [Hin|Hin].
    + rewrite Forall_forall in Hpre. by destruct (Hpre _ Hin).
    + apply elem_of_cons in Hin as [[= -> ->]|Hin]; [done|].
      rewrite Forall_forall in Hlt.
      assert (j ∈ post.*1) as Hj by (apply list_elem_of_fmap; by exists (j, r')).
      specialize (Hlt _ Hj). unfold Nat.lt in Hlt. lia.
  - apply first_unposted_None in E. rewrite Forall_forall in E.
    intros j r' Hin. apply (E (j, r') Hin).
Qed.

Lemma first_unposted_lowest_eligible_witness :
  let rows :=
    rows_with_index [["text"; "status"]; ["a"; " Posted"]; [""; ""]; ["b"]; ["c"; ""]]
                    ["text"; "status"; "image_url"] in
  first_unposted rows = Some (4%nat, row_of ["text"; "status"; "image_url"] ["b"])
  /\ forall j r', (j, r') ∈ rows -> eligible r' -> (4 <= j)%nat.
Proof.
  intros rows.
  assert (first_unposted rows
          = Some (4%nat, row_of ["text"; "status"; "image_url"] ["b"])) as E
    by (vm_compute; reflexivity).
  split; [exact E|].
  pose proof (first_unposted_lowest_eligible rows) as H.
  rewrite E in H. apply H.
  unfold ascending. change (rows.*1) with [2%nat; 3%nat; 4%nat; 5%nat].
  repeat constructor.
Defined.

(** ** The remote calls *)

Lemma set_net_set_net r1 q1 r2 q2 σ :
  set_net r2 q2 (set_net r1 q1 σ) = set_net r2 q2 σ.
Proof. done. Qed.

Lemma set_net_id σ : set_net (replies σ) (sent σ) σ = σ.
Proof. by destruct σ. Qed.

Lemma requests_post_check_run (q : request) (σ : world) :
  (resp ← requests_post q; lift (check_reply resp)) σ
  = (attempt_result (head (replies σ)),
     set_net (tail (replies σ)) (sent σ ++ [q]) σ).
Proof.
  unfold mbind, M_bind, requests_post, lift.
  by destruct (replies σ) as [|[e|resp] rs].
Qed.

Lemma retry_outcome_attempts (n : nat) (rs : list (string + response)) :
  (1 <= (retry_outcome n rs).2 <= Nat.max 1 n)%nat.
Proof.
  revert rs. induction n as [|[|n] IH]; intros rs; [simpl; lia..|].
  change (retry_outcome (S (S n)) rs) with
    (match attempt_result (head rs) with
     | Ok data => (Ok data, 1%nat)
     | Raise e =>
         if is_Exception e
         then let '(res, k) := retry_outcome (S n) (tail rs) in (res, S k)
         else (Raise e, 1%nat)
     end).
  destruct (attempt_result (head rs)) as [d|e]; [simpl; lia|].
  destruct (is_Exception e); [|simpl; lia].
  specialize (IH (tail rs)). destruct (retry_outcome (S n) (tail rs)) as [res k].
  cbn [snd] in *. lia.
Qed.

(** Whatever an attempt raises is an [Exception]. *)
Lemma attempt_result_is_Exception (o : option (string + response)) (e : exn) :
  attempt_result o = Raise e -> is_Exception e = true.
Proof.
  destruct o as [[msg|resp]|]; simpl; try by intros [= <-].
  unfold check_reply. case_decide; [by intros [= <-]|].
  by destruct (json resp); intros [= <-].
Qed.

Lemma retry_outcome_is_Exception (n : nat) (rs : list (string + response)) (e : exn) :
  (retry_outcome n rs).1 = Raise e -> is_Exception e = true.
Proof.
  revert rs. induction n as [|[|n] IH]; intros rs;
    [apply attempt_result_is_Exception..|].
  change (retry_outcome (S (S n)) rs) with
    (match attempt_result (head rs) with
     | Ok data => (Ok data, 1%nat)
     | Raise e =>
         if is_Exception e
         then let '(res, k) := retry_outcome (S n) (tail rs) in (res, S k)
         else (Raise e, 1%nat)
     end).
  destruct (attempt_result (head rs)) as [d|e'] eqn:Ea; [done|].
  rewrite (attempt_result_is_Exception _ _ Ea).
  specialize (IH (tail rs)). destruct (retry_outcome (S n) (tail rs)) as [res k].
  apply IH.
Qed.

Lemma retry_run (n : nat) (q : request) (σ : world) :
  retry n (resp ← requests_post q; lift (check_reply resp)) σ
  = ((retry_outcome n (replies σ)).1,
     set_net (drop (retry_outcome n (replies σ)).2 (replies σ))
             (sent σ ++ replicate (retry_outcome n (replies σ)).2 q) σ).
Proof.
  revert σ. induction n as [|[|n] IH]; intros σ.
  - simpl. rewrite requests_post_check_run. by destruct (replies σ).
  - simpl. rewrite requests_post_check_run. by destruct (replies σ).
  - change (retry (S (S n)) ?c) with (try_except c (fun _ => retry (S n) c)).
    unfold try_except. rewrite requests_post_check_run.
    change (retry_outcome (S (S n)) ?rs) with
      (match attempt_result (head rs) with
       | Ok data => (Ok data, 1%nat)
       | Raise e =>
           if is_Exception e
           then let '(res, k) := retry_outcome (S n) (tail rs) in (res, S k)
           else (Raise e, 1%nat)
       end).
    destruct (attempt_result (head (replies σ))) as [d|e].
    { simpl. by destruct (replies σ). }
    destruct (is_Exception e).
    2:{ simpl. by destruct (replies σ). }
    rewrite IH.
    change (replies (set_net ?a ?b ?c)) with a.
    change (sent (set_net ?a ?b ?c)) with b.
    destruct (retry_outcome (S n) (tail (replies σ))) as [res k].
    cbn [fst snd]. rewrite set_net_set_net, <- app_assoc.
    f_equal. change ([q] ++ replicate k q) with (replicate (S k) q).
    destruct (replies σ); simpl; [by rewrite ?drop_nil|done].
Qed.

Lemma create_container_run (user_id token : string) (payload : gmap string pval)
    (σ : world) :
  create_container user_id token payload σ
  = ((retry_outcome 3 (replies σ)).1,
     set_net (drop (retry_outcome 3 (replies σ)).2 (replies σ))
             (sent σ ++ replicate (retry_outcome 3 (replies σ)).2
                                  (create_request user_id token payload)) σ).
Proof. apply retry_run. Qed.

Lemma publish_container_run (user_id token : string) (creation_id : option string)
    (σ : world) :
  publish_container user_id token creation_id σ
  = ((retry_outcome 3 (replies σ)).1,
     set_net (drop (retry_outcome 3 (replies σ)).2 (replies σ))
             (sent σ ++ replicate (retry_outcome 3 (replies σ)).2
                                  (publish_request user_id token creation_id)) σ).
Proof. apply retry_run. Qed.

(** ** Post submitter *)

Lemma bind_run {A B} (c : M A) (k : A -> M B) (σ : world) :
  (c ≫= k) σ = match c σ with
               | (Ok a, σ') => k a σ'
               | (Raise e, σ') => (Raise e, σ')
               end.
Proof. done. Qed.

Lemma optional_field_Some (r : row) (k : string) :
  truthy_get (r !! k) = true ->
  optional_field r k = Some (PStr (default EmptyString (r !! k))).
Proof. unfold optional_field. intros E. rewrite E. by destruct (r !! k). Qed.

Lemma lookup_copy_if_set (r : row) (k k' : string) (p : gmap string pval) :
  copy_if_set r k p !! k'
  = if decide (k = k')
    then match optional_field r k with Some v => Some v | None => p !! k' end
    else p !! k'.
Proof.
  unfold copy_if_set. destruct (truthy_get (r !! k)) eqn:E.
  - rewrite lookup_insert, (optional_field_Some _ _ E). by case_decide.
  - unfold optional_field. rewrite E. by case_decide.
Qed.

(** Two string literals differ. *)
Ltac str_ne :=
  match goal with
  | |- ?a <> ?b => exact (proj1 (String.eqb_neq a b) eq_refl)
  end.

Ltac key_ne := first [str_ne | assumption | apply not_eq_sym; assumption].

Ltac payload_lookup :=
  repeat first
    [ rewrite lookup_copy_if_set
    | rewrite decide_True by reflexivity
    | rewrite decide_False by key_ne
    | rewrite lookup_insert_eq
    | rewrite lookup_insert_ne by key_ne
    | rewrite lookup_singleton_eq
    | rewrite lookup_singleton_ne by key_ne ];
  try done.

Lemma image_payload_lookup (r : row) (image_url text : string) :
  let payload := image_payload r image_url text in
  payload !! "media_type" = Some (PStr "IMAGE")
  /\ payload !! "image_url" = Some (PStr image_url)
  /\ payload !! "text" = Some (PStr text)
  /\ (forall k, k ∈ ["alt_text"; "reply_control"; "topic_tag"; "location_id"] ->
        payload !! k = optional_field r k)
  /\ (forall k, k ∉ ["media_type"; "image_url"; "text"; "alt_text";
                     "reply_control"; "topic_tag"; "location_id"] ->
        payload !! k = None).
Proof.
  unfold image_payload. split_and!.
  - payload_lookup.
  - payload_lookup.
  - payload_lookup.
  - intros k Hk. repeat (apply elem_of_cons in Hk as [->|Hk]);
      [..|by apply elem_of_nil in Hk];
      payload_lookup; by destruct (optional_field r _).
  - intros k Hk. repeat (apply not_elem_of_cons in Hk as [? Hk]).
    payload_lookup.
Qed.

Lemma text_payload_lookup (r : row) (text : string) :
  let payload := text_payload r text in
  payload !! "media_type" = Some (PStr "TEXT")
  /\ payload !! "text" = Some (PStr text)
  /\ payload !! "auto_publish_text" = Some (PBool true)
  /\ (forall k, k ∈ ["link_attachment"; "reply_control"; "topic_tag"; "location_id"] ->
        payload !! k = optional_field r k)
  /\ (forall k, k ∉ ["media_type"; "text"; "auto_publish_text"; "link_attachment";
                     "reply_control"; "topic_tag"; "location_id"] ->
        payload !! k = None).
Proof.
  unfold text_payload. split_and!.
  - payload_lookup.
  - payload_lookup.
  - payload_lookup.
  - intros k Hk. repeat (apply elem_of_cons in Hk as [->|Hk]);
      [..|by apply elem_of_nil in Hk];
      payload_lookup; by destruct (optional_field r _).
  - intros k Hk. repeat (apply not_elem_of_cons in Hk as [? Hk]).
    payload_lookup.
Qed.

Lemma post_one_text_run (user_id token : string) (r : row) (σ : world) :
  truthy (strip (default EmptyString (r !! "image_url"))) = false ->
  post_one user_id token r σ
  = (match (retry_outcome 3 (replies σ)).1 with
     | Ok data => Ok (PostResult "published" (data !! "id") "TEXT" None)
     | Raise e => Raise e
     end,
     set_net (drop (retry_outcome 3 (replies σ)).2 (replies σ))
       (sent σ ++ replicate (retry_outcome 3 (replies σ)).2
          (create_request user_id token
             (text_payload r (strip (default EmptyString (r !! "text")))))) σ).
Proof.
  intros E. unfold post_one. rewrite E, bind_run, create_container_run.
  by destruct (retry_outcome 3 (replies σ)).1.
Qed.

Lemma post_one_image_run (user_id token : string) (r : row) (σ : world) :
  truthy (strip (default EmptyString (r !! "image_url"))) = true ->
  let payload := image_payload r (strip (default EmptyString (r !! "image_url")))
                               (strip (default EmptyString (r !! "text"))) in
  let k1 := (retry_outcome 3 (replies σ)).2 in
  let replies1 := drop k1 (replies σ) in
  let sent1 := sent σ ++ replicate k1 (create_request user_id token payload) in
  post_one user_id token r σ
  = match (retry_outcome 3 (replies σ)).1 with
    | Raise e => (Raise e, set_net replies1 sent1 σ)
    | Ok data =>
        let k2 := (retry_outcome 3 replies1).2 in
        (match (retry_outcome 3 replies1).1 with
         | Ok pub => Ok (PostResult "published" (data !! "id") "IMAGE" (Some pub))
         | Raise e => Raise e
         end,
         set_net (drop k2 replies1)
           (sent1 ++ replicate k2 (publish_request user_id token (data !! "id"))) σ)
    end.
Proof.
  intros E. unfold post_one. rewrite E, bind_run, create_container_run.
  destruct (retry_outcome 3 (replies σ)).1 as [data|e]; [|done].
  rewrite bind_run, publish_container_run.
  change (replies (set_net ?a ?b ?c)) with a.
  change (sent (set_net ?a ?b ?c)) with b.
  rewrite set_net_set_net.
  by destruct (retry_outcome 3 _).1.
Qed.

(** The submitter leaves the sheet, the clock and the random draws alone. *)
Lemma post_one_frame (user_id token : string) (r : row) (σ : world) :
  let σ' := (post_one user_id token r σ).2 in
  sheet σ' = sheet σ /\ clock σ' = clock σ /\ localtime σ' = localtime σ
  /\ draws σ' = draws σ /\ fired σ' = fired σ.
Proof.
  destruct (truthy (strip (default EmptyString (r !! "image_url")))) eqn:E.
  - rewrite (post_one_image_run _ _ _ _ E).
    by destruct (retry_outcome 3 (replies σ)).1.
  - by rewrite (post_one_text_run _ _ _ _ E).
Qed.

(** Whatever the submitter raises is an [Exception]. *)
Lemma post_one_raises_Exception (user_id token : string) (r : row) (σ : world)
    (e : exn) :
  (post_one user_id token r σ).1 = Raise e -> is_Exception e = true.
Proof.
  destruct (truthy (strip (default EmptyString (r !! "image_url")))) eqn:E.
  - rewrite (post_one_image_run _ _ _ _ E). cbv zeta.
    destruct (retry_outcome 3 (replies σ)).1 as [data|e1] eqn:E1; cbn [fst].
    + destruct (retry_outcome 3 (drop _ _)).1 as [pub|e2] eqn:E2; [done|].
      intros [= <-]. by apply retry_outcome_is_Exception in E2.
    + intros [= <-]. by apply retry_outcome_is_Exception in E1.
  - rewrite (post_one_text_run _ _ _ _ E). cbn [fst].
    destruct (retry_outcome 3 (replies σ)).1 as [data|e1] eqn:E1; [done|].
    intros [= <-]. by apply retry_outcome_is_Exception in E1.
Qed.

(** C2, as the code has it: the branch is taken on the trimmed [image_url].
    When it is not empty the requests sent are those of one create-container
    call (one to three attempts of the same request) whose payload has
    media_type "IMAGE", the trimmed image url and text, and alt_text,
    reply_control, topic_tag and location_id each exactly when the row has
    it non-empty; when that call returns, they are followed by those of one
    publish-container call with the returned container id, and when it
    raises nothing more is sent.  When the trimmed [image_url] is empty the
    only requests sent are those of one create-container call whose payload
    has media_type "TEXT", the trimmed text, auto_publish_text true, and
    link_attachment, reply_control, topic_tag and location_id each exactly
    when the row has it non-empty; it never has alt_text. *)
Theorem post_one_requests (user_id token : string) (r : row) (σ : world) :
  let text := strip (default EmptyString (r !! "text")) in
  let image_url := strip (default EmptyString (r !! "image_url")) in
  let out := post_one user_id token r σ in
  if truthy image_url then
    exists payload k1,
      (1 <= k1 <= 3)%nat
      /\ payload !! "media_type" = Some (PStr "IMAGE")
      /\ payload !! "image_url" = Some (PStr image_url)
      /\ payload !! "text" = Some (PStr text)
      /\ (forall k, k ∈ ["alt_text"; "reply_control"; "topic_tag"; "location_id"] ->
            payload !! k = optional_field r k)
      /\ payload !! "link_attachment" = None
      /\ payload !! "auto_publish_text" = None
      /\ match (create_container user_id token payload σ).1 with
         | Ok data =>
             exists k2,
               (1 <= k2 <= 3)%nat
               /\ sent out.2
                  = sent σ ++ replicate k1 (create_request user_id token payload)
                    ++ replicate k2 (publish_request user_id token (data !! "id"))
         | Raise e =>
             out.1 = Raise e
             /\ sent out.2 = sent σ ++ replicate k1 (create_request user_id token payload)
         end
  else
    exists payload k1,
      (1 <= k1 <= 3)%nat
      /\ sent out.2 = sent σ ++ replicate k1 (create_request user_id token payload)
      /\ payload !! "media_type" = Some (PStr "TEXT")
      /\ payload !! "text" = Some (PStr text)
      /\ payload !! "auto_publish_text" = Some (PBool true)
      /\ (forall k, k ∈ ["link_attachment"; "reply_control"; "topic_tag"; "location_id"] ->
            payload !! k = optional_field r k)
      /\ payload !! "alt_text" = None
      /\ payload !! "image_url" = None.
Proof.
  intros text image_url out.
  pose proof (retry_outcome_attempts 3 (replies σ)) as Hk1.
  change (Nat.max 1 3) with 3%nat in Hk1.
  destruct (truthy image_url) eqn:E.
  - destruct (image_payload_lookup r image_url text) as (Hm & Hi & Ht & Hopt & Hno).
    exists (image_payload r image_url text), (retry_outcome 3 (replies σ)).2.
    split_and!; [lia..|done|done|done|done| | |].
    + apply Hno. rewrite !not_elem_of_cons. split_and!; (congruence || apply not_elem_of_nil).
    + apply Hno. rewrite !not_elem_of_cons. split_and!; (congruence || apply not_elem_of_nil).
    + subst out. rewrite (post_one_image_run _ _ _ _ E), create_container_run.
      cbn [fst]. fold text image_url.
      destruct (retry_outcome 3 (replies σ)).1 as [data|e]; [|done].
      exists (retry_outcome 3 (drop (retry_outcome 3 (replies σ)).2 (replies σ))).2.
      pose proof (retry_outcome_attempts 3
        (drop (retry_outcome 3 (replies σ)).2 (replies σ))) as Hk2.
      change (Nat.max 1 3) with 3%nat in Hk2.
      split; [lia|]. cbn [snd]. by rewrite <- app_assoc.
  - destruct (text_payload_lookup r text) as (Hm & Ht & Ha & Hopt & Hno).
    exists (text_payload r text), (retry_outcome 3 (replies σ)).2.
    split_and!; [lia..| |done|done|done|done| |].
    + subst out. by rewrite (post_one_text_run _ _ _ _ E).
    + apply Hno. rewrite !not_elem_of_cons. split_and!; (congruence || apply not_elem_of_nil).
    + apply Hno. rewrite !not_elem_of_cons. split_and!; (congruence || apply not_elem_of_nil).
Qed.

(** C2 as it was stated fails twice: a text post leaves the row's alt_text
    out, and an [image_url] of white space only is not empty and still
    gives a text post. *)
Lemma post_one_text_payload_without_alt_text :
  let σ := World 0 (fun _ => StructTime 2024 1 5 9 3 7) [] []
                 [inr (Response 200 "{}" (Some {[ "id" := "17" ]}))] [] [] in
  let r1 : row := {[ "text" := "hi"; "image_url" := ""; "alt_text" := "a" ]} in
  let r2 : row := {[ "text" := "hi"; "image_url" := " " ]} in
  (optional_field r1 "alt_text" = Some (PStr "a")
   /\ truthy_get (r1 !! "text") = true /\ r1 !! "image_url" = Some EmptyString
   /\ exists payload,
        sent (post_one "u" "t" r1 σ).2 = [create_request "u" "t" payload]
        /\ payload !! "media_type" = Some (PStr "TEXT")
        /\ payload !! "alt_text" = None)
  /\ (truthy_get (r2 !! "image_url") = true
      /\ exists payload,
           sent (post_one "u" "t" r2 σ).2 = [create_request "u" "t" payload]
           /\ payload !! "media_type" = Some (PStr "TEXT")).
Proof.
  intros σ r1 r2. split.
  - split_and!; [done..|].
    exists (text_payload r1 "hi"). by vm_compute.
  - split; [done|].
    exists (text_payload r2 "hi"). by vm_compute.
Qed.

(** C10: a row whose text is white space only, whose image_url is empty and
    whose status is not "posted" is selected by [first_unposted], and the
    submitter then sends a text post whose text is the empty string. *)
Theorem whitespace_text_selected_then_posted_empty :
  exists (r : row) (txt : string),
    r !! "text" = Some txt /\ txt <> EmptyString /\ all_space txt = true
    /\ r !! "image_url" = Some EmptyString
    /\ ~ posted_status r
    /\ (forall i, first_unposted [(i, r)] = Some (i, r))
    /\ forall user_id token σ,
       exists payload k,
         (1 <= k)%nat
         /\ sent (post_one user_id token r σ).2
            = sent σ ++ replicate k (create_request user_id token payload)
         /\ payload !! "media_type" = Some (PStr "TEXT")
         /\ payload !! "text" = Some (PStr EmptyString).
Proof.
  exists {[ "text" := "  "; "image_url" := ""; "status" := "" ]}, "  ".
  split_and!; [done..| | |].
  - unfold posted_status. by vm_compute.
  - intros i. done.
  - intros user_id token σ.
    set (r := ({[ "text" := "  "; "image_url" := ""; "status" := "" ]} : row)).
    exists (text_payload r (strip (default EmptyString (r !! "text")))),
           (retry_outcome 3 (replies σ)).2.
    pose proof (retry_outcome_attempts 3 (replies σ)) as Hk.
    destruct (text_payload_lookup r (strip (default EmptyString (r !! "text"))))
      as (Hm & Ht & _).
    split_and!; [lia| |done|done].
    by rewrite post_one_text_run.
Qed.

(** ** Row store adapter *)

Lemma add_missing_spec (cols header0 : list string) (ch : bool) :
  exists added,
    foldl (fun '(header, changed) col =>
             if bool_decide (col ∈ header) then (header, changed)
             else (header ++ [col], true))
          (header0, ch) cols
    = (header0 ++ added, ch || negb (bool_decide (added = [])))
    /\ (forall c, c ∈ cols -> c ∈ header0 ++ added)
    /\ (forall c, c ∈ added -> c ∈ cols /\ c ∉ header0).
Proof.
  revert header0 ch. induction cols as [|col cols IH]; intros header0 ch.
  - exists []. rewrite app_nil_r. simpl. rewrite orb_false_r.
    split_and!; [done| |]; intros c Hc; by apply elem_of_nil in Hc.
  - cbn [foldl]. case_bool_decide as Hin.
    + destruct (IH header0 ch) as (added & -> & Hall & Hnew).
      exists added. split_and!; [done| |].
      * intros c [->|Hc]%elem_of_cons; [|by apply Hall].
        apply elem_of_app. by left.
      * intros c Hc. destruct (Hnew c Hc). split; [by right|done].
    + destruct (IH (header0 ++ [col]) true) as (added & -> & Hall & Hnew).
      exists (col :: added). rewrite <- app_assoc. simpl. rewrite orb_true_r.
      split_and!; [done| |].
      * intros c [->|Hc]%elem_of_cons; [apply elem_of_app; right; by left|].
        specialize (Hall c Hc). by rewrite <- app_assoc in Hall.
      * intros c [->|Hc]%elem_of_cons; [split; [by left|done]|].
        destruct (Hnew c Hc) as [? Hn]. split; [by right|].
        intros ?. apply Hn, elem_of_app. by left.
Qed.

(** What [ensure_header] returns and writes. *)
Lemma ensure_header_run (σ : world) :
  let header0 := default [] (head (sheet σ)) in
  exists header added σ',
    ensure_header σ = (Ok header, σ')
    /\ (forall c, c ∈ NEED_COLS -> c ∈ header)
    /\ header = header0 ++ added
    /\ (forall c, c ∈ added -> c ∈ NEED_COLS /\ c ∉ header0)
    /\ sheet σ' = header :: tail (sheet σ)
    /\ σ' = set_sheet (sheet σ') σ
    /\ ((forall c, c ∈ NEED_COLS -> c ∈ header0) -> header = header0 /\ σ' = σ).
Proof.
  intros header0. unfold ensure_header. rewrite bind_run.
  unfold get_all_values. destruct (sheet σ) as [|h0 rest] eqn:Es.
  - exists NEED_COLS, NEED_COLS. eexists. subst header0. simpl.
    split_and!; [done..| | | |].
    + intros c Hc. split; [done|]. apply not_elem_of_nil.
    + unfold set_sheet. simpl. by rewrite Es.
    + done.
    + intros H. specialize (H "text"). by apply elem_of_nil in H; [|left].
  - subst header0. cbn -[foldl NEED_COLS].
    destruct (add_missing_spec NEED_COLS h0 false) as (added & Hf & Hall & Hnew).
    rewrite Hf. exists (h0 ++ added), added.
    destruct added as [|a added].
    + exists σ. simpl. rewrite app_nil_r in *.
      split_and!; [done..| by rewrite Es | by destruct σ |done].
    + eexists. split_and!; [done..| | |].
      * cbn. rewrite Es. cbn. f_equal.
        rewrite drop_ge; [by rewrite app_nil_r|]. rewrite length_app. lia.
      * done.
      * intros H. destruct (Hnew a) as [Ha Hn]; [by left|]. by destruct (Hn (H a Ha)).
Qed.

(** C8: from any sheet, [ensure_header] returns a header that holds every
    required column, that is the header it found followed by the
    required names that were missing (so the columns found, extra ones
    included, keep their order), that is written to row 1 with the rows
    below untouched, and that is the header found, with nothing written,
    when no required column was missing. *)
Theorem ensure_header_complete (σ : world) :
  let header0 := default [] (head (sheet σ)) in
  exists header added σ',
    ensure_header σ = (Ok header, σ')
    /\ (forall c, c ∈ NEED_COLS -> c ∈ header)
    /\ header = header0 ++ added
    /\ (forall c, c ∈ added -> c ∈ NEED_COLS /\ c ∉ header0)
    /\ sheet σ' = header :: tail (sheet σ)
    /\ ((forall c, c ∈ NEED_COLS -> c ∈ header0) -> header = header0 /\ σ' = σ).
Proof.
  destruct (ensure_header_run σ) as (header & added & σ' & H1 & H2 & H3 & H4 & H5 & _ & H6).
  by exists header, added, σ'.
Qed.

Lemma ensure_header_complete_witness :
  let header0 := ["note"; "status"; "text"; "error"; "image_url"; "alt_text";
                  "posted_at"; "link_attachment"; "reply_control"; "topic_tag";
                  "location_id"] in
  let σ := World 0 (fun _ => StructTime 2024 1 5 9 3 7) [] [header0; ["n"; ""; "hello"]]
                 [] [] [] in
  ensure_header σ = (Ok header0, σ).
Proof.
  intros header0 σ.
  destruct (ensure_header_complete σ) as (header & added & σ' & -> & _ & _ & _ & _ & H).
  destruct H as [-> ->]; [|done].
  intros c Hc. unfold NEED_COLS in Hc.
  repeat (apply elem_of_cons in Hc as [->|Hc]; [repeat constructor|]).
  by apply elem_of_nil in Hc.
Defined.

(** *** Cells and columns *)

Lemma col_idx_of_snoc (header : list string) (x : string) :
  col_idx_of (header ++ [x]) = <[x := S (length header)]> (col_idx_of header).
Proof.
  unfold col_idx_of. rewrite imap_app, foldl_app. simpl.
  by rewrite Nat.add_0_r.
Qed.

(** The column [update_result] takes for a name is one whose header cell
    is that name. *)
Lemma col_idx_of_Some (header : list string) (k : string) (c : nat) :
  col_idx_of header !! k = Some c ->
  exists i, c = S i /\ header !! i = Some k.
Proof.
  revert c. induction header as [|x header IH] using rev_ind; intros c.
  - unfold col_idx_of. simpl. by rewrite lookup_empty.
  - rewrite col_idx_of_snoc, lookup_insert. case_decide as E.
    + intros [= <-]. subst x. exists (length header). split; [done|].
      by rewrite lookup_app_r, Nat.sub_diag.
    + intros (i & -> & Hi)%IH. exists i. split; [done|].
      by apply lookup_app_l_Some.
Qed.

Lemma col_idx_of_elem (header : list string) (k : string) :
  k ∈ header -> exists i, col_idx_of header !! k = Some (S i) /\ header !! i = Some k.
Proof.
  intros Hk.
  assert (is_Some (col_idx_of header !! k)) as [c Hc].
  { induction header as [|x header IH] using rev_ind; [by apply elem_of_nil in Hk|].
    rewrite col_idx_of_snoc, lookup_insert. case_decide; [by eexists|].
    apply IH. apply elem_of_app in Hk as [?|Hk]; [done|].
    apply list_elem_of_singleton in Hk. congruence. }
  destruct (col_idx_of_Some _ _ _ Hc) as (i & -> & Hi). by exists i.
Qed.

Lemma col_idx_of_inj (header : list string) (k1 k2 : string) (c : nat) :
  col_idx_of header !! k1 = Some c -> col_idx_of header !! k2 = Some c -> k1 = k2.
Proof.
  intros (i & -> & H1)%col_idx_of_Some (j & [= <-] & H2)%col_idx_of_Some.
  congruence.
Qed.

Lemma default_lookup_pad {A} (n : nat) (d : A) (l : list A) (i : nat) :
  default d (pad n d l !! i) = default d (l !! i).
Proof.
  unfold pad. destruct (decide (i < length l)%nat) as [Hi|Hi].
  - by rewrite lookup_app_l.
  - rewrite lookup_app_r, (lookup_ge_None_2 l i) by lia.
    destruct (replicate _ _ !! _) eqn:E; [|done].
    by apply lookup_replicate in E as [-> _].
Qed.

Lemma length_pad {A} (n : nat) (d : A) (l : list A) :
  (n <= length (pad n d l))%nat.
Proof. unfold pad. rewrite length_app, length_replicate. lia. Qed.

Lemma cell_S (s : list (list string)) (r c : nat) :
  cell s (S r) (S c) = default EmptyString (default [] (s !! r) !! c).
Proof. simpl. by destruct (s !! r). Qed.

Lemma set_cell_row (r c : nat) (v : string) (s : list (list string)) (r' : nat) :
  default [] (set_cell r c v s !! r')
  = if decide (r' = r)
    then <[c := v]> (pad (S c) EmptyString (default [] (s !! r)))
    else default [] (s !! r').
Proof.
  unfold set_cell. case_decide as E.
  - subst r'. rewrite list_lookup_insert_eq by apply length_pad.
    simpl. by rewrite default_lookup_pad.
  - rewrite list_lookup_insert_ne by done. apply default_lookup_pad.
Qed.

Lemma cell_set_cell (r c : nat) (v : string) (s : list (list string)) (r' c' : nat) :
  cell (set_cell r c v s) (S r') (S c')
  = if decide (r' = r /\ c' = c) then v else cell s (S r') (S c').
Proof.
  rewrite !cell_S, set_cell_row.
  destruct (decide (r' = r)) as [->|Hr].
  - destruct (decide (c' = c)) as [->|Hc].
    + rewrite decide_True by done.
      rewrite list_lookup_insert_eq; [done|]. apply length_pad.
    + rewrite decide_False by tauto.
      rewrite list_lookup_insert_ne by done. apply default_lookup_pad.
  - by rewrite decide_False by tauto.
Qed.

Lemma length_take (n : nat) (s : string) : (String.length (take n s) <= n)%nat.
Proof.
  revert s. induction n as [|n IH]; intros [|c s]; simpl; try lia.
  specialize (IH s). lia.
Qed.

Lemma strftime_nonempty (t : struct_time) : strftime t <> EmptyString.
Proof.
  unfold strftime. destruct (pretty (tm_year t)); simpl; discriminate.
Qed.

(** *** Writing the result *)

Lemma update_result_run (header : list string) (r : nat) (status err : string)
    (σ : world) (cs cp ce : nat) :
  col_idx_of header !! "status" = Some (S cs) ->
  col_idx_of header !! "posted_at" = Some (S cp) ->
  col_idx_of header !! "error" = Some (S ce) ->
  update_result header (S r) status err σ
  = (Ok tt,
     set_sheet
       (set_cell r ce (if decide (status = "failed") then take 3000 err else EmptyString)
          (set_cell r cp (if decide (status = "posted")
                          then strftime (localtime σ (clock σ)) else EmptyString)
             (set_cell r cs status (sheet σ)))) σ).
Proof.
  intros Hs Hp He. unfold update_result, getitem.
  rewrite Hs, Hp, He. by destruct σ.
Qed.

Lemma update_result_fields (header : list string) (r : nat) (status err : string)
    (σ : world) :
  "status" ∈ header -> "posted_at" ∈ header -> "error" ∈ header ->
  exists σ',
    update_result header (S r) status err σ = (Ok tt, σ')
    /\ field (sheet σ') header (S r) "status" = status
    /\ field (sheet σ') header (S r) "posted_at"
       = (if decide (status = "posted")
          then strftime (localtime σ (clock σ)) else EmptyString)
    /\ field (sheet σ') header (S r) "error"
       = (if decide (status = "failed") then take 3000 err else EmptyString)
    /\ clock σ' = clock σ /\ replies σ' = replies σ /\ sent σ' = sent σ.
Proof.
  intros (cs & Hs & _)%col_idx_of_elem (cp & Hp & _)%col_idx_of_elem
         (ce & He & _)%col_idx_of_elem.
  assert (cs <> cp) as Hsp.
  { intros ->. by pose proof (col_idx_of_inj _ _ _ _ Hs Hp). }
  assert (cs <> ce) as Hse.
  { intros ->. by pose proof (col_idx_of_inj _ _ _ _ Hs He). }
  assert (cp <> ce) as Hpe.
  { intros ->. by pose proof (col_idx_of_inj _ _ _ _ Hp He). }
  eexists. split; [by apply update_result_run|].
  unfold field. rewrite Hs, Hp, He. cbn [sheet set_sheet].
  rewrite !cell_set_cell.
  rewrite (decide_True (P := r = r /\ cs = cs)) by done.
  rewrite (decide_True (P := r = r /\ cp = cp)) by done.
  rewrite (decide_True (P := r = r /\ ce = ce)) by done.
  rewrite (decide_False (P := r = r /\ cs = ce)) by tauto.
  rewrite (decide_False (P := r = r /\ cs = cp)) by tauto.
  rewrite (decide_False (P := r = r /\ cp = ce)) by tauto.
  done.
Qed.

Lemma take_nonempty (n : nat) (s : string) :
  s <> EmptyString -> take (S n) s <> EmptyString.
Proof. by destruct s. Qed.

Lemma update_result_posted (header : list string) (r : nat) (err : string) (σ : world) :
  "status" ∈ header -> "posted_at" ∈ header -> "error" ∈ header ->
  exists σ',
    update_result header (S r) "posted" err σ = (Ok tt, σ')
    /\ marked_posted (sheet σ') header (S r) (strftime (localtime σ (clock σ))).
Proof.
  intros Hs Hp He.
  destruct (update_result_fields header r "posted" err σ Hs Hp He)
    as (σ' & Hrun & H1 & H2 & H3 & _).
  exists σ'. split; [done|]. unfold marked_posted.
  split_and!; [done..|apply strftime_nonempty|done].
Qed.

Lemma update_result_failed (header : list string) (r : nat) (err : string) (σ : world) :
  "status" ∈ header -> "posted_at" ∈ header -> "error" ∈ header ->
  exists σ',
    update_result header (S r) "failed" err σ = (Ok tt, σ')
    /\ marked_failed (sheet σ') header (S r) err.
Proof.
  intros Hs Hp He.
  destruct (update_result_fields header r "failed" err σ Hs Hp He)
    as (σ' & Hrun & H1 & H2 & H3 & _).
  exists σ'. split; [done|]. unfold marked_failed.
  rewrite H3. split_and!; [done..| | |done].
  - apply take_nonempty.
  - apply length_take.
Qed.

Lemma first_unposted_from_sheet (values : list (list string)) (header : list string)
    (idx : nat) (r : row) :
  first_unposted (rows_with_index values header) = Some (idx, r) ->
  exists i, idx = S i.
Proof.
  intros (pre & post & Hrows & _)%first_unposted_split.
  destruct (rows_with_index_ascending values header) as [_ Hge].
  rewrite Hrows, Forall_app, Forall_cons in Hge. destruct Hge as (_ & Hge & _).
  simpl in Hge. exists (pred idx). lia.
Qed.

(** What [post_next_unposted] writes for the row it picked, by the outcome
    of the submission. *)
Lemma post_next_unposted_marks (user_id token : string) (header : list string)
    (σ : world) (idx : nat) (r : row) :
  "status" ∈ header -> "posted_at" ∈ header -> "error" ∈ header ->
  first_unposted (rows_with_index (sheet σ) header) = Some (idx, r) ->
  let out := post_next_unposted user_id token header σ in
  match (post_one user_id token r σ).1 with
  | Ok _ =>
      out.1 = Ok true
      /\ marked_posted (sheet out.2) header idx (strftime (localtime σ (clock σ)))
  | Raise e =>
      out.1 = Ok false
      /\ marked_failed (sheet out.2) header idx (str_exn e)
  end.
Proof.
  intros Hs Hp He Hpick out.
  destruct (first_unposted_from_sheet _ _ _ _ Hpick) as [i ->].
  destruct (post_one_frame user_id token r σ) as (_ & Hc & Hl & _).
  pose proof (post_one_raises_Exception user_id token r σ) as Hexc.
  subst out. unfold post_next_unposted.
  rewrite bind_run. unfold get_all_values. rewrite Hpick.
  unfold try_except. rewrite bind_run.
  destruct (post_one user_id token r σ) as [[res|e] σ1]; cbn [fst snd] in *.
  - destruct (update_result_posted header i EmptyString σ1 Hs Hp He)
      as (σ2 & Hrun & Hm).
    rewrite bind_run, Hrun. cbn. by rewrite <- Hc, <- Hl.
  - rewrite (Hexc e eq_refl).
    destruct (update_result_failed header i (str_exn e) σ1 Hs Hp He)
      as (σ2 & Hrun & Hm).
    by rewrite bind_run, Hrun.
Qed.

(** C3: with the three result columns in the header, [update_result] for
    "posted" sets the status cell of the row to "posted", the posted_at
    cell to the time stamp, which is not empty, and empties the error
    cell; for "failed" it sets the status cell to "failed", the error cell
    to the first 3000 characters of the error (not empty when the error is
    not, never longer than 3000) and empties posted_at.
    [post_next_unposted] marks the row it picked in the first way when the
    submission returns and in the second, with the text of the exception,
    when it raises. *)
Theorem update_result_marks_row (header : list string) (row_idx : nat)
    (err : string) (σ : world) :
  "status" ∈ header -> "posted_at" ∈ header -> "error" ∈ header ->
  (1 <= row_idx)%nat ->
  (exists σ',
     update_result header row_idx "posted" EmptyString σ = (Ok tt, σ')
     /\ marked_posted (sheet σ') header row_idx (strftime (localtime σ (clock σ))))
  /\ (exists σ',
        update_result header row_idx "failed" err σ = (Ok tt, σ')
        /\ marked_failed (sheet σ') header row_idx err)
  /\ (forall name, name ∈ ["status"; "posted_at"; "error"] ->
        exists i, col_idx_of header !! name = Some (S i) /\ header !! i = Some name)
  /\ forall user_id token idx r,
       first_unposted (rows_with_index (sheet σ) header) = Some (idx, r) ->
       let out := post_next_unposted user_id token header σ in
       match (post_one user_id token r σ).1 with
       | Ok _ =>
           out.1 = Ok true
           /\ marked_posted (sheet out.2) header idx (strftime (localtime σ (clock σ)))
       | Raise e =>
           out.1 = Ok false
           /\ marked_failed (sheet out.2) header idx (str_exn e)
       end.
Proof.
  intros Hs Hp He Hr. destruct row_idx as [|r]; [lia|].
  split_and!.
  - by apply update_result_posted.
  - by apply update_result_failed.
  - intros name Hn. apply col_idx_of_elem.
    repeat (apply elem_of_cons in Hn as [->|Hn]; [done|]).
    by apply elem_of_nil in Hn.
  - intros user_id token idx r0 Hpick. by apply post_next_unposted_marks.
Qed.

Lemma update_result_marks_row_witness :
  let σ := World 0 (fun _ => StructTime 2024 1 5 9 3 7) []
                 [NEED_COLS; ["hello"]] [] [] [] in
  (exists σ',
     update_result NEED_COLS 2 "posted" EmptyString σ = (Ok tt, σ')
     /\ marked_posted (sheet σ') NEED_COLS 2 "2024-01-05 09:03:07")
  /\ (exists σ',
        update_result NEED_COLS 2 "failed" "HTTP 500: boom" σ = (Ok tt, σ')
        /\ marked_failed (sheet σ') NEED_COLS 2 "HTTP 500: boom").
Proof.
  intros σ.
  destruct (update_result_marks_row NEED_COLS 2 "HTTP 500: boom" σ)
    as (H1 & H2 & _); [unfold NEED_COLS; repeat constructor..|lia|].
  by split.
Defined.

(** ** Retries and failures of the remote calls *)

Lemma check_reply_raises (resp : response) :
  check_reply resp
  = Raise (Exception ("HTTP " +:+ pretty (status_code resp) +:+ ": " +:+ text resp))
  <-> status_code resp >= 400.
Proof.
  unfold check_reply. case_decide as E; [done|].
  split; [|done]. by destruct (json resp).
Qed.

Lemma check_reply_500 (resp : response) :
  status_code resp = 500 ->
  check_reply resp = Raise (Exception ("HTTP 500: " +:+ text resp)).
Proof. intros E. unfold check_reply. rewrite E. done. Qed.

Lemma retry_outcome_three_failures (rs : list (string + response)) (e1 e2 e3 : exn) :
  attempt_result (rs !! 0%nat) = Raise e1 ->
  attempt_result (rs !! 1%nat) = Raise e2 ->
  attempt_result (rs !! 2%nat) = Raise e3 ->
  retry_outcome 3 rs = (Raise e3, 3%nat).
Proof.
  intros H1 H2 H3. cbn [retry_outcome].
  rewrite !head_lookup, !lookup_tail, H1, H2, H3.
  by rewrite (attempt_result_is_Exception _ _ H1),
             (attempt_result_is_Exception _ _ H2).
Qed.

Lemma retry_outcome_500s (r1 r2 r3 : response) (rest : list (string + response)) :
  status_code r1 = 500 -> status_code r2 = 500 -> status_code r3 = 500 ->
  retry_outcome 3 (inr r1 :: inr r2 :: inr r3 :: rest)
  = (Raise (Exception ("HTTP 500: " +:+ text r3)), 3%nat).
Proof.
  intros E1 E2 E3.
  apply (retry_outcome_three_failures _
           (Exception ("HTTP 500: " +:+ text r1))
           (Exception ("HTTP 500: " +:+ text r2)));
    simpl; auto using check_reply_500.
Qed.

Lemma contains_500 (body : string) :
  contains "500" (take 3000 ("HTTP 500: " +:+ body)) = true.
Proof. reflexivity. Qed.

(** C7: an attempt of a remote call raises the error made of the status
    code and the body of the reply exactly when the status is 400 or more;
    a call sends its request one to three times; when three attempts in a
    row raise, the call raises the error of the third; and when the
    remote API answers the create-container call of the picked row with
    500 three times in a row (or, for an image post, its publish call,
    after create-container was answered well), the row is marked "failed"
    with an error that holds "500". *)
Theorem remote_call_retries (user_id token : string) (payload : gmap string pval)
    (creation_id : option string) (σ : world) :
  (forall resp rest,
     replies σ = inr resp :: rest ->
     let e := Exception ("HTTP " +:+ pretty (status_code resp) +:+ ": " +:+ text resp) in
     ((create_container_once user_id token payload σ).1 = Raise e
      <-> status_code resp >= 400)
     /\ ((publish_container_once user_id token creation_id σ).1 = Raise e
         <-> status_code resp >= 400))
  /\ (exists k, (1 <= k <= 3)%nat
        /\ sent (create_container user_id token payload σ).2
           = sent σ ++ replicate k (create_request user_id token payload))
  /\ (exists k, (1 <= k <= 3)%nat
        /\ sent (publish_container user_id token creation_id σ).2
           = sent σ ++ replicate k (publish_request user_id token creation_id))
  /\ (forall e1 e2 e3,
        attempt_result (replies σ !! 0%nat) = Raise e1 ->
        attempt_result (replies σ !! 1%nat) = Raise e2 ->
        attempt_result (replies σ !! 2%nat) = Raise e3 ->
        (create_container user_id token payload σ).1 = Raise e3
        /\ (publish_container user_id token creation_id σ).1 = Raise e3)
  /\ (forall header idx r r1 r2 r3 rest,
        "status" ∈ header -> "posted_at" ∈ header -> "error" ∈ header ->
        first_unposted (rows_with_index (sheet σ) header) = Some (idx, r) ->
        status_code r1 = 500 -> status_code r2 = 500 -> status_code r3 = 500 ->
        let out := post_next_unposted user_id token header σ in
        (replies σ = inr r1 :: inr r2 :: inr r3 :: rest ->
         out.1 = Ok false
         /\ field (sheet out.2) header idx "status" = "failed"
         /\ contains "500" (field (sheet out.2) header idx "error") = true)
        /\ (forall r0 data,
              truthy (strip (default EmptyString (r !! "image_url"))) = true ->
              status_code r0 < 400 -> json r0 = Some data ->
              replies σ = inr r0 :: inr r1 :: inr r2 :: inr r3 :: rest ->
              out.1 = Ok false
              /\ field (sheet out.2) header idx "status" = "failed"
              /\ contains "500" (field (sheet out.2) header idx "error") = true)).
Proof.
  split_and!.
  - intros resp rest Hr e.
    unfold create_container_once, publish_container_once.
    rewrite !requests_post_check_run, Hr. cbn [fst head attempt_result].
    split; apply check_reply_raises.
  - exists (retry_outcome 3 (replies σ)).2.
    split; [apply (retry_outcome_attempts 3)|].
    by rewrite create_container_run.
  - exists (retry_outcome 3 (replies σ)).2.
    split; [apply (retry_outcome_attempts 3)|].
    by rewrite publish_container_run.
  - intros e1 e2 e3 H1 H2 H3.
    rewrite create_container_run, publish_container_run.
    by rewrite (retry_outcome_three_failures _ _ _ _ H1 H2 H3).
  - intros header idx r r1 r2 r3 rest Hs Hp He Hpick E1 E2 E3 out.
    pose proof (post_next_unposted_marks user_id token header σ idx r
                  Hs Hp He Hpick) as Hm.
    cbv zeta in Hm. fold out in Hm.
    split.
    + intros Hr.
      assert ((post_one user_id token r σ).1
              = Raise (Exception ("HTTP 500: " +:+ text r3))) as Hpo.
      { destruct (truthy (strip (default EmptyString (r !! "image_url")))) eqn:E.
        - rewrite (post_one_image_run _ _ _ _ E), Hr.
          by rewrite (retry_outcome_500s _ _ _ _ E1 E2 E3).
        - rewrite (post_one_text_run _ _ _ _ E), Hr.
          by rewrite (retry_outcome_500s _ _ _ _ E1 E2 E3). }
      rewrite Hpo in Hm. destruct Hm as (Ho & Hst & Herr & _).
      split_and!; [done..|]. rewrite Herr. apply contains_500.
    + intros r0 data E Hlt Hj Hr.
      assert ((post_one user_id token r σ).1
              = Raise (Exception ("HTTP 500: " +:+ text r3))) as Hpo.
      { rewrite (post_one_image_run _ _ _ _ E), Hr.
        assert (retry_outcome 3 (inr r0 :: inr r1 :: inr r2 :: inr r3 :: rest)
                = (Ok data, 1%nat)) as ->.
        { cbn [retry_outcome head attempt_result]. unfold check_reply.
          rewrite decide_False by lia. by rewrite Hj. }
        cbn [fst snd drop].
        by rewrite (retry_outcome_500s _ _ _ _ E1 E2 E3). }
      rewrite Hpo in Hm. destruct Hm as (Ho & Hst & Herr & _).
      split_and!; [done..|]. rewrite Herr. apply contains_500.
Qed.

Lemma remote_call_retries_witness :
  let r500 := Response 500 "boom" None in
  let header := ["text"; "status"; "posted_at"; "error"] in
  let σ := World 0 (fun _ => StructTime 2024 1 5 9 3 7) []
                 [header; ["hello"]] [inr r500; inr r500; inr r500] [] [] in
  let out := post_next_unposted "u" "t" header σ in
  out.1 = Ok false
  /\ field (sheet out.2) header 2 "status" = "failed"
  /\ contains "500" (field (sheet out.2) header 2 "error") = true.
Proof.
  intros r500 header σ out.
  destruct (remote_call_retries "u" "t" ∅ None σ) as (_ & _ & _ & _ & H).
  assert (first_unposted (rows_with_index (sheet σ) header)
          = Some (2%nat, row_of header ["hello"])) as Hpick
    by (vm_compute; reflexivity).
  destruct (H header 2%nat (row_of header ["hello"]) r500 r500 r500 [])
    as [H1 _]; [repeat constructor..|exact Hpick|done|done|done|].
  exact (H1 eq_refl).
Defined.

(** ** Clock arithmetic *)

Lemma date_bounds (dt : Z) : days (date dt) <= dt < days (date dt) + days 1.
Proof.
  unfold date, days.
  pose proof (Z.div_mod dt (1 * 86400000000) ltac:(lia)) as H.
  pose proof (Z.mod_pos_bound dt (1 * 86400000000) ltac:(lia)). lia.
Qed.

Lemma mk_dtime_Ok (h m : Z) (t : dtime) :
  mk_dtime h m = Ok t -> t = Dtime h m /\ valid_dtime t.
Proof.
  unfold mk_dtime, valid_dtime. repeat case_decide; intros [= <-]; simpl; done.
Qed.

Lemma _parse_hhmm_valid (s : string) (t : dtime) :
  _parse_hhmm s = Ok t -> valid_dtime t.
Proof.
  unfold _parse_hhmm. destruct (unpack_hm s) as [[h m]|e]; [|done].
  simpl. by intros [_ ?]%mk_dtime_Ok.
Qed.

Lemma _parse_hhmm_ext_valid (s : string) (d : Z) (t : dtime) :
  _parse_hhmm_ext s = Ok (d, t) -> valid_dtime t.
Proof.
  unfold _parse_hhmm_ext. destruct (unpack_hm s) as [[h m]|e]; [|done].
  simpl. destruct (mk_dtime (h `mod` 24) m) as [t'|e] eqn:E; [|done].
  simpl. intros [= _ <-]. by apply mk_dtime_Ok in E as [_ ?].
Qed.

Lemma combine_bounds (d : Z) (t : dtime) :
  valid_dtime t -> days d <= combine d t <= days d + 86340000000.
Proof. unfold valid_dtime, combine, days, seconds. lia. Qed.

(** For a delta that is not negative the whole seconds are those of the
    division, and they do not exceed the delta. *)
Lemma total_seconds_int_nonneg (delta : Z) :
  0 <= delta ->
  0 <= total_seconds_int delta
  /\ seconds (total_seconds_int delta) <= delta
     < seconds (total_seconds_int delta) + seconds 1.
Proof.
  intros H. unfold total_seconds_int, seconds.
  rewrite Z.quot_div_nonneg by lia.
  pose proof (Z.div_mod delta 1000000 ltac:(lia)).
  pose proof (Z.mod_pos_bound delta 1000000 ltac:(lia)).
  pose proof (Z.div_pos delta 1000000 ltac:(lia) ltac:(lia)). lia.
Qed.

Lemma total_seconds_int_nonpos (delta : Z) :
  delta <= 0 -> total_seconds_int delta <= 0.
Proof.
  intros H. unfold total_seconds_int.
  pose proof (Z.quot_opp_l delta 1000000 ltac:(lia)) as Ho.
  pose proof (Z.quot_pos (- delta) 1000000 ltac:(lia) ltac:(lia)). lia.
Qed.

Lemma randint_run (a b : Z) (σ : world) :
  a <= b ->
  exists v, randint a b σ = (Ok v, set_draws (tail (draws σ)) σ) /\ a <= v <= b.
Proof.
  intros H. unfold randint. rewrite decide_True by done.
  eexists. split; [done|].
  pose proof (Z.mod_pos_bound (default 0 (head (draws σ))) (b - a + 1) ltac:(lia)).
  lia.
Qed.

(** ** At a time of day, with jitter *)

Lemma _next_at_with_jitter_run (time_str : string) (jitter_min : Z)
    (ref : option Z) (σ : world) (d : Z) (t : dtime) :
  _parse_hhmm_ext time_str = Ok (d, t) ->
  let ref' := default (clock σ) ref in
  exists offs,
    _next_at_with_jitter time_str jitter_min ref σ
    = (Ok (jitter_start d t jitter_min ref' + seconds offs),
       set_draws (tail (draws σ)) σ)
    /\ 0 <= offs <= jitter_span d t jitter_min ref'.
Proof.
  intros Hparse ref'.
  destruct (randint_run 0 (jitter_span d t jitter_min ref') σ) as (offs & Hr & Ho).
  { unfold jitter_span. lia. }
  exists offs. split; [|done].
  unfold _next_at_with_jitter. rewrite bind_run.
  assert ((match ref with None => datetime_now | Some ref0 => mret ref0 end) σ
          = (Ok ref', σ)) as -> by (subst ref'; by destruct ref).
  rewrite bind_run. unfold lift at 1. rewrite Hparse.
  unfold jitter_span, jitter_start, jitter_target in Hr |- *.
  case_decide; rewrite bind_run, Hr; done.
Qed.

(** C4, as the code has it: for a time of day that parses, the instant is
    at least 5 seconds after the reference instant and not before the
    target minus the jitter; it draws from a span of at least 60 seconds
    that starts at the later of target minus jitter and reference plus 5
    seconds, so it is not after the target plus the jitter when at least
    60 seconds are left from that start to the target plus the jitter, and
    at most 60 seconds after that start otherwise. *)
Theorem _next_at_with_jitter_bounds (time_str : string) (jitter_min : Z)
    (ref : option Z) (σ : world) (d : Z) (t : dtime) :
  _parse_hhmm_ext time_str = Ok (d, t) ->
  let ref' := default (clock σ) ref in
  let target := jitter_target d t jitter_min ref' in
  let start := jitter_start d t jitter_min ref' in
  exists v σ',
    _next_at_with_jitter time_str jitter_min ref σ = (Ok v, σ')
    /\ ref' + seconds 5 <= v
    /\ target - minutes jitter_min <= v
    /\ start <= v <= start + seconds (jitter_span d t jitter_min ref')
    /\ (seconds 60 <= target + minutes jitter_min - start ->
        v <= target + minutes jitter_min)
    /\ (target + minutes jitter_min - start < seconds 60 ->
        v <= start + seconds 60).
Proof.
  intros Hparse ref' target start.
  destruct (_next_at_with_jitter_run time_str jitter_min ref σ d t Hparse)
    as (offs & Hrun & Ho).
  fold ref' in Hrun, Ho. fold start in Hrun.
  eexists _, _. split; [exact Hrun|].
  assert (start = (target - minutes jitter_min) `max` (ref' + seconds 5)) as Hs by done.
  assert (jitter_span d t jitter_min ref'
          = 60 `max` total_seconds_int (target + minutes jitter_min - start)) as Hsp by done.
  unfold seconds in *. split_and!; try lia.
  - intros Hroom.
    destruct (total_seconds_int_nonneg (target + minutes jitter_min - start))
      as (_ & Hq & _); [lia|].
    unfold seconds in Hq. lia.
  - intros Hshort.
    destruct (Z.le_gt_cases 0 (target + minutes jitter_min - start)) as [Hn|Hn].
    + destruct (total_seconds_int_nonneg _ Hn) as (_ & Hq & _).
      unfold seconds in Hq. lia.
    + pose proof (total_seconds_int_nonpos (target + minutes jitter_min - start)
                    ltac:(lia)). lia.
Qed.

Lemma _next_at_with_jitter_bounds_witness :
  let σ := World 0 (fun _ => StructTime 2024 1 5 9 3 7) [7] [] [] [] [] in
  let target := jitter_target 0 (Dtime 12 0) 30 0 in
  let start := jitter_start 0 (Dtime 12 0) 30 0 in
  _parse_hhmm_ext "12:00" = Ok (0, Dtime 12 0)
  /\ exists v σ',
       _next_at_with_jitter "12:00" 30 None σ = (Ok v, σ')
       /\ 0 + seconds 5 <= v
       /\ target - minutes 30 <= v
       /\ start <= v <= start + seconds (jitter_span 0 (Dtime 12 0) 30 0)
       /\ (seconds 60 <= target + minutes 30 - start -> v <= target + minutes 30)
       /\ (target + minutes 30 - start < seconds 60 -> v <= start + seconds 60).
Proof.
  intros σ target start. split; [reflexivity|].
  apply (_next_at_with_jitter_bounds "12:00" 30 None σ 0 (Dtime 12 0)).
  reflexivity.
Defined.

(** C4 as it was stated fails: half a minute before the end of the jitter
    span (12:00 with 30 minutes, asked at 12:29:30) the instant can be
    12:30:35, after the target plus the jitter. *)
Lemma _next_at_with_jitter_past_the_jitter :
  let σ := World (seconds (12 * 3600 + 29 * 60 + 30))
                 (fun _ => StructTime 2024 1 5 12 29 30) [60] [] [] [] [] in
  let target := seconds (12 * 3600) in
  jitter_target 0 (Dtime 12 0) 30 (clock σ) = target
  /\ (_next_at_with_jitter "12:00" 30 None σ).1
     = Ok (seconds (12 * 3600 + 30 * 60 + 35))
  /\ ~ (target - minutes 30 <= seconds (12 * 3600 + 30 * 60 + 35) <= target + minutes 30).
Proof.
  intros σ target. split_and!; [vm_compute; reflexivity..|].
  unfold target, minutes, seconds. lia.
Qed.

(** ** Inside a daily window *)

(** The window of the day and the start of the draw, as
    [_next_random_in_window] settles them at the instant [now]: the day of
    the window and the earliest instant of the draw. *)
Lemma _next_random_in_window_run (window_str start_s end_s : string)
    (t_start t_end : dtime) (σ : world) :
  split "-" window_str = [start_s; end_s] ->
  _parse_hhmm start_s = Ok t_start ->
  _parse_hhmm end_s = Ok t_end ->
  let now := clock σ in
  let today := date now in
  let start_dt := combine today t_start in
  let end_dt := combine today t_end in
  let shift1 := bool_decide (end_dt <= now \/ end_dt <= start_dt) in
  let start1 := if shift1 then start_dt + days 1 else start_dt in
  let end1 := if shift1 then end_dt + days 1 else end_dt in
  let win1 := start1 `max` (now + seconds 5) in
  let shift2 := bool_decide (end1 - win1 <= seconds 5) in
  let end2 := if shift2 then end1 + days 1 else end1 in
  let win2 := if shift2 then start1 + days 1 else win1 in
  exists offs,
    _next_random_in_window window_str σ
    = (Ok (win2 + seconds offs), set_draws (tail (draws σ)) σ)
    /\ 0 <= offs <= 0 `max` total_seconds_int (end2 - win2).
Proof.
  intros Hsplit Hs He now today start_dt end_dt shift1 start1 end1 win1 shift2 end2 win2.
  destruct (randint_run 0 (0 `max` total_seconds_int (end2 - win2)) σ)
    as (offs & Hr & Ho); [lia|].
  exists offs. split; [|done].
  unfold _next_random_in_window.
  rewrite bind_run. unfold lift at 1. rewrite Hsplit. cbn [unpack2].
  rewrite bind_run. unfold lift at 1. rewrite Hs.
  rewrite bind_run. unfold lift at 1. rewrite He.
  rewrite bind_run. unfold datetime_now at 1.
  fold now today start_dt end_dt.
  subst end2 win2 shift2 win1 end1 start1 shift1.
  destruct (decide (end_dt <= now \/ end_dt <= start_dt)) as [H1|H1];
    [rewrite (bool_decide_eq_true_2 _ H1) in *
    |rewrite (bool_decide_eq_false_2 _ H1) in *].
  - destruct (decide (end_dt + days 1 - (start_dt + days 1) `max` (now + seconds 5)
                      <= seconds 5)) as [H2|H2];
      [rewrite (bool_decide_eq_true_2 _ H2) in *
      |rewrite (bool_decide_eq_false_2 _ H2) in *];
      rewrite bind_run, Hr; done.
  - destruct (decide (end_dt - start_dt `max` (now + seconds 5) <= seconds 5)) as [H2|H2];
      [rewrite (bool_decide_eq_true_2 _ H2) in *
      |rewrite (bool_decide_eq_false_2 _ H2) in *];
      rewrite bind_run, Hr; done.
Qed.

(** X22: the daily-window policy for a window whose end is after its
    start: the instant lies in the window of today or of tomorrow, is at
    least 5 seconds after the current instant, and lies in tomorrow's
    window exactly when no more than 5 seconds of today's window are left
    5 seconds from now, in particular whenever today's window has ended. *)
Theorem _next_random_in_window_bounds (window_str start_s end_s : string)
    (t_start t_end : dtime) (σ : world) :
  split "-" window_str = [start_s; end_s] ->
  _parse_hhmm start_s = Ok t_start ->
  _parse_hhmm end_s = Ok t_end ->
  combine 0 t_start < combine 0 t_end ->
  let now := clock σ in
  let today := date now in
  let late :=
    combine today t_end - combine today t_start `max` (now + seconds 5) <= seconds 5 in
  exists v σ' day,
    _next_random_in_window window_str σ = (Ok v, σ')
    /\ in_window day t_start t_end v
    /\ now + seconds 5 <= v
    /\ (late -> day = today + 1)
    /\ (~ late -> day = today)
    /\ (combine today t_end <= now -> day = today + 1).
Proof.
  intros Hsplit Hs He Hlt now today late.
  destruct (_next_random_in_window_run _ _ _ _ _ σ Hsplit Hs He) as (offs & Hrun & Ho).
  cbv zeta in Hrun, Ho. fold now today in Hrun, Ho.
  pose proof (combine_bounds today _ (_parse_hhmm_valid _ _ Hs)) as Bs.
  pose proof (combine_bounds today _ (_parse_hhmm_valid _ _ He)) as Be.
  pose proof (date_bounds now) as Bn. fold today in Bn.
  assert (combine today t_end - combine today t_start >= 60000000) as Hgap.
  { revert Hlt. unfold combine, days, seconds. lia. }
  assert (forall k, combine (today + k) t_start = combine today t_start + days k) as Cs
    by (intros k; unfold combine, days; lia).
  assert (forall k, combine (today + k) t_end = combine today t_end + days k) as Ce
    by (intros k; unfold combine, days; lia).
  set (S0 := combine today t_start) in *. set (E0 := combine today t_end) in *.
  subst late. unfold in_window.
  destruct (decide (E0 <= now \/ E0 <= S0)) as [H1|H1];
    [rewrite (bool_decide_eq_true_2 _ H1) in Hrun, Ho
    |rewrite (bool_decide_eq_false_2 _ H1) in Hrun, Ho].
  - assert (~ (E0 + days 1 - (S0 + days 1) `max` (now + seconds 5) <= seconds 5)) as H2
      by (unfold days, seconds in *; lia).
    rewrite (bool_decide_eq_false_2 _ H2) in Hrun, Ho.
    destruct (total_seconds_int_nonneg
                (E0 + days 1 - (S0 + days 1) `max` (now + seconds 5)))
      as (Hq0 & Hq & _); [unfold days, seconds in *; lia|].
    eexists _, _, (today + 1). split; [exact Hrun|].
    rewrite Cs, Ce. unfold days, seconds in *. split_and!; lia.
  - destruct (decide (E0 - S0 `max` (now + seconds 5) <= seconds 5)) as [H2|H2];
      [rewrite (bool_decide_eq_true_2 _ H2) in Hrun, Ho
      |rewrite (bool_decide_eq_false_2 _ H2) in Hrun, Ho].
    + destruct (total_seconds_int_nonneg (E0 + days 1 - (S0 + days 1)))
        as (Hq0 & Hq & _); [unfold days, seconds in *; lia|].
      eexists _, _, (today + 1). split; [exact Hrun|].
      rewrite Cs, Ce. unfold days, seconds in *. split_and!; lia.
    + destruct (total_seconds_int_nonneg (E0 - S0 `max` (now + seconds 5)))
        as (Hq0 & Hq & _); [unfold days, seconds in *; lia|].
      eexists _, _, today. split; [exact Hrun|].
      unfold days, seconds in *. split_and!; lia.
Qed.

Lemma _next_random_in_window_bounds_witness :
  let σ := World (seconds (18 * 3600)) (fun _ => StructTime 2024 1 5 18 0 0)
                 [125] [] [] [] [] in
  let t_start := Dtime 9 0 in
  let t_end := Dtime 17 0 in
  let late :=
    combine 0 t_end - combine 0 t_start `max` (clock σ + seconds 5) <= seconds 5 in
  (split "-" "09:00-17:00" = ["09:00"; "17:00"]
   /\ _parse_hhmm "09:00" = Ok t_start /\ _parse_hhmm "17:00" = Ok t_end
   /\ combine 0 t_start < combine 0 t_end)
  /\ exists v σ' day,
       _next_random_in_window "09:00-17:00" σ = (Ok v, σ')
       /\ in_window day t_start t_end v
       /\ clock σ + seconds 5 <= v
       /\ (late -> day = 0 + 1)
       /\ (~ late -> day = 0)
       /\ (combine 0 t_end <= clock σ -> day = 0 + 1).
Proof.
  intros σ t_start t_end late. split; [split_and!; reflexivity|].
  apply (_next_random_in_window_bounds "09:00-17:00" "09:00" "17:00" t_start t_end σ);
    reflexivity.
Defined.

(** C5 fails on the code for a window whose end is not after its start.
    The first guard of [_next_random_in_window] moves such a window to the
    next day, as the claim says; the second guard then finds the end
    before the start and moves it a day further, and the offset is drawn
    from 0..0.  For "22:00-02:00" asked at 09:00 of day 0 the instant is
    22:00 of day 2, which is in no day's window and not in the next
    day's. *)
Lemma _next_random_in_window_end_before_start :
  let σ := World (seconds (9 * 3600)) (fun _ => StructTime 2024 1 5 9 0 0)
                 [125] [] [] [] [] in
  let v := days 2 + seconds (22 * 3600) in
  combine 0 (Dtime 2 0) <= combine 0 (Dtime 22 0)
  /\ (_next_random_in_window "22:00-02:00" σ).1 = Ok v
  /\ (forall day, ~ in_window day (Dtime 22 0) (Dtime 2 0) v)
  /\ ~ (combine 1 (Dtime 22 0) <= v <= combine 2 (Dtime 2 0)).
Proof.
  intros σ v. split_and!.
  - unfold combine, days, seconds. cbn [hour minute]. lia.
  - vm_compute. reflexivity.
  - intros day. subst v. unfold in_window, combine, days, seconds.
    cbn [hour minute]. lia.
  - subst v. unfold combine, days, seconds. cbn [hour minute]. lia.
Qed.

(** ** The scheduler loops *)

(** The waiting loop, given rounds enough for the seconds left, ends at or
    after the instant waited for, less than a second late, and changes
    nothing but the clock. *)
Lemma wait_loop_run (fuel : nat) (nxt : Z) (σ : world) :
  nxt - clock σ <= seconds (Z.of_nat fuel) - seconds 1 ->
  exists c,
    wait_loop fuel nxt σ = (Ok tt, set_clock c σ)
    /\ nxt <= c /\ clock σ <= c
    /\ (clock σ < nxt -> c < nxt + seconds 1)
    /\ (nxt <= clock σ -> c = clock σ).
Proof.
  revert σ. induction fuel as [|fuel IH]; intros σ Hfuel.
  - exists (clock σ). simpl. unfold mret, M_ret.
    unfold seconds in *. split_and!; [by destruct σ|lia..].
  - cbn [wait_loop]. rewrite bind_run. unfold datetime_now at 1.
    case_decide as Hnow.
    + exists (clock σ). unfold mret, M_ret. split_and!; [by destruct σ|lia..].
    + rewrite bind_run. unfold sleep at 1.
      set (s := 60 `min` (1 `max` total_seconds_int (nxt - clock σ))).
      assert (1 <= s /\ (seconds 1 <= nxt - clock σ -> seconds s <= nxt - clock σ)
              /\ (nxt - clock σ < seconds 1 -> s = 1))
        as (Hs1 & Hs2 & Hs3).
      { subst s.
        destruct (total_seconds_int_nonneg (nxt - clock σ)) as (Hq0 & Hq & Hq'); [lia|].
        unfold seconds in *. split_and!; lia. }
      clearbody s.
      destruct (IH (set_clock (clock σ + seconds s) σ)) as (c & Hrun & H1 & H2 & H3 & H4).
      { cbn [clock set_clock]. unfold seconds in *. lia. }
      exists c. cbn [clock set_clock] in *. rewrite Hrun.
      unfold seconds in *. split_and!; [done|lia..].
Qed.

Lemma wait_until_run (nxt : Z) (σ : world) :
  exists c,
    wait_until nxt σ = (Ok tt, set_clock c σ)
    /\ nxt <= c /\ clock σ <= c
    /\ (clock σ < nxt -> c < nxt + seconds 1)
    /\ (nxt <= clock σ -> c = clock σ).
Proof.
  unfold wait_until. rewrite bind_run. unfold datetime_now at 1.
  apply wait_loop_run.
  pose proof (Z.div_mod (nxt - clock σ) 1000000 ltac:(lia)).
  pose proof (Z.mod_pos_bound (nxt - clock σ) 1000000 ltac:(lia)).
  unfold seconds. lia.
Qed.

Lemma update_result_returns (header : list string) (r : nat) (status err : string)
    (σ : world) :
  "status" ∈ header -> "posted_at" ∈ header -> "error" ∈ header ->
  exists s', update_result header (S r) status err σ = (Ok tt, set_sheet s' σ).
Proof.
  intros (cs & Hs & _)%col_idx_of_elem (cp & Hp & _)%col_idx_of_elem
         (ce & He & _)%col_idx_of_elem.
  eexists. by apply update_result_run.
Qed.

Lemma post_one_net (user_id token : string) (r : row) (σ : world) :
  exists rs q, (post_one user_id token r σ).2 = set_net rs q σ.
Proof.
  destruct (truthy (strip (default EmptyString (r !! "image_url")))) eqn:E.
  - rewrite (post_one_image_run _ _ _ _ E). cbv zeta.
    destruct (retry_outcome 3 (replies σ)).1; by eexists _, _.
  - rewrite (post_one_text_run _ _ _ _ E). by eexists _, _.
Qed.

(** With the result columns in the header, [post_next_unposted] returns;
    it touches the sheet and the exchange with the remote API only. *)
Lemma post_next_unposted_returns (user_id token : string) (header : list string)
    (σ : world) :
  "status" ∈ header -> "posted_at" ∈ header -> "error" ∈ header ->
  exists b s' rs q,
    post_next_unposted user_id token header σ = (Ok b, set_sheet s' (set_net rs q σ)).
Proof.
  intros Hs Hp He. unfold post_next_unposted.
  rewrite bind_run. unfold get_all_values.
  destruct (first_unposted (rows_with_index (sheet σ) header)) as [[idx r]|] eqn:Hpick.
  2:{ exists false, (sheet σ), (replies σ), (sent σ). by destruct σ. }
  destruct (first_unposted_from_sheet _ _ _ _ Hpick) as [i ->].
  pose proof (post_one_raises_Exception user_id token r σ) as Hexc.
  destruct (post_one_net user_id token r σ) as (rs & q & Hnet).
  unfold try_except. rewrite bind_run.
  destruct (post_one user_id token r σ) as [[res|e] σ1]; cbn [fst snd] in *; subst σ1.
  - destruct (update_result_returns header i "posted" EmptyString (set_net rs q σ)
                Hs Hp He) as (s' & Hrun).
    rewrite bind_run, Hrun. by exists true, s', rs, q.
  - rewrite (Hexc e eq_refl).
    destruct (update_result_returns header i "failed" (str_exn e) (set_net rs q σ)
                Hs Hp He) as (s' & Hrun).
    rewrite bind_run, Hrun. by exists false, s', rs, q.
Qed.

(** A firing returns; it is logged at the instant of the clock and leaves
    the clock and the random draws alone. *)
Lemma fire_run (user_id token : string) (σ : world) :
  exists s' rs q,
    fire user_id token σ
    = (Ok tt, World (clock σ) (localtime σ) (draws σ) s' rs q (fired σ ++ [clock σ])).
Proof.
  unfold fire. rewrite bind_run. cbv beta iota.
  set (σa := set_fired (fired σ ++ [clock σ]) σ).
  destruct (ensure_header_run σa)
    as (header & added & σb & Hrun & Hall & _ & _ & _ & Hσb & _).
  rewrite bind_run, Hrun.
  destruct (post_next_unposted_returns user_id token header σb)
    as (b & s' & rs & q & Hpost); [apply Hall; unfold NEED_COLS; repeat constructor..|].
  rewrite bind_run, Hpost. exists s', rs, q. by rewrite Hσb.
Qed.

(** C6 fails on the code: the instant that [run_daily_window] computes for
    the next day after a firing is overwritten at the top of the next
    round by a fresh draw from the current instant.  Started at 09:00 with
    the window 09:00-17:00, the first two firings are at 09:30:05 and at
    10:30:10 of the same day, both inside that day's window. *)
Theorem run_daily_window_fires_twice_in_one_window :
  let ok := Response 200 "{}" (Some {[ "id" := "17" ]}) in
  let σ := World (seconds (9 * 3600)) (fun _ => StructTime 2024 1 5 9 0 0)
                 [1800; 0; 3600; 0] [NEED_COLS; ["hello"]; ["again"]]
                 [inr ok; inr ok] [] [] in
  let out := run_daily_window 2 "u" "t" "09:00-17:00" σ in
  let t1 := seconds (9 * 3600 + 30 * 60 + 5) in
  let t2 := seconds (10 * 3600 + 30 * 60 + 10) in
  out.1 = Ok tt
  /\ fired out.2 = [t1; t2]
  /\ in_window 0 (Dtime 9 0) (Dtime 17 0) t1
  /\ in_window 0 (Dtime 9 0) (Dtime 17 0) t2
  /\ cell (sheet out.2) 2 8 = "posted" /\ cell (sheet out.2) 3 8 = "posted".
Proof.
  intros ok σ out t1 t2.
  assert (out.1 = Ok tt /\ fired out.2 = [t1; t2]
          /\ cell (sheet out.2) 2 8 = "posted" /\ cell (sheet out.2) 3 8 = "posted")
    as (H1 & H2 & H3 & H4) by (vm_compute; repeat split).
  split_and!; [done..| | |done|done];
    subst t1 t2; unfold in_window, combine, days, seconds; cbn [hour minute]; lia.
Qed.

(** ** Several times a day *)

Lemma min_fold_spec (best : string * Z) (l : schedule) :
  let r := foldl (fun best kv => if decide (kv.2 < best.2) then kv else best) best l in
  r ∈ best :: l /\ r.2 <= best.2 /\ forall kv, kv ∈ l -> r.2 <= kv.2.
Proof.
  revert best. induction l as [|kv l IH]; intros best; cbn [foldl].
  - split_and!; [by left|lia|]. intros kv Hkv. by apply elem_of_nil in Hkv.
  - case_decide as Hlt.
    + destruct (IH kv) as (Hin & Hle & Hall).
      split_and!; [by right|lia|].
      intros kv' [->|Hkv']%elem_of_cons; [done|by apply Hall].
    + destruct (IH best) as (Hin & Hle & Hall).
      split_and!.
      * apply elem_of_cons in Hin as [->|Hin]; [by left|by do 2 right].
      * done.
      * intros kv' [->|Hkv']%elem_of_cons; [lia|by apply Hall].
Qed.

(** [min_item] gives an entry of the map whose instant is the least. *)
Lemma min_item_spec (d : schedule) :
  d <> [] ->
  exists k v, min_item d = Ok (k, v) /\ (k, v) ∈ d /\ forall k' v', (k', v') ∈ d -> v <= v'.
Proof.
  destruct d as [|kv d]; [done|]. intros _. unfold min_item.
  destruct (min_fold_spec kv d) as (Hin & Hle & Hall).
  destruct (foldl _ kv d) as [k v] eqn:E. exists k, v.
  split_and!; [done..|].
  intros k' v' [[= <-]|Hin']%elem_of_cons; [done|]. apply (Hall _ Hin').
Qed.

Lemma dict_get_set_eq (k : string) (v : Z) (d : schedule) :
  dict_get k (dict_set k v d) = Some v.
Proof.
  induction d as [|[k' v'] d IH]; simpl; [by rewrite decide_True|].
  case_decide as E; simpl; [by rewrite decide_True|by rewrite decide_False].
Qed.

Lemma dict_get_set_ne (k k' : string) (v : Z) (d : schedule) :
  k' <> k -> dict_get k' (dict_set k v d) = dict_get k' d.
Proof.
  intros Hne. induction d as [|[k0 v0] d IH]; simpl; [by rewrite decide_False|].
  case_decide as E; simpl; [subst k0|by rewrite IH].
  by rewrite !decide_False.
Qed.

Lemma dict_set_keys (k : string) (v x : Z) (d : schedule) :
  (k, x) ∈ d -> (dict_set k v d).*1 = d.*1.
Proof.
  induction d as [|[k0 v0] d IH]; [by intros ?%elem_of_nil|].
  intros Hin. simpl. case_decide as E; [done|]. simpl. f_equal. apply IH.
  apply elem_of_cons in Hin as [[= <- <-]|Hin]; done.
Qed.

Lemma dict_set_other (k k' : string) (v x : Z) (d : schedule) :
  k' <> k -> (k', x) ∈ d -> (k', x) ∈ dict_set k v d.
Proof.
  intros Hne. induction d as [|[k0 v0] d IH]; [by intros ?%elem_of_nil|].
  intros [[= <- <-]|Hin]%elem_of_cons; simpl.
  - rewrite decide_False by done. by left.
  - case_decide; [by right|]. right. by apply IH.
Qed.

(** X23: a round of the multi-time loop takes the entry of the schedule
    map whose instant is the least, waits until that instant, fires once,
    and sets that label's entry to the instant the time-with-jitter policy
    gives for a reference one day after the one fired, more than a day
    later; the entries of the other labels, and the order of the labels,
    stay as they were. *)
Theorem run_daily_multi_at_round_frame (user_id token : string) (jitter_min : Z)
    (schedule_map : schedule) (σ : world) :
  schedule_map <> [] ->
  Forall (fun kv => exists d t, _parse_hhmm_ext kv.1 = Ok (d, t)) schedule_map ->
  exists next_t next_at v c σ',
    min_item schedule_map = Ok (next_t, next_at)
    /\ (next_t, next_at) ∈ schedule_map
    /\ (forall k x, (k, x) ∈ schedule_map -> next_at <= x)
    /\ run_daily_multi_at_round user_id token jitter_min schedule_map σ
       = (Ok (dict_set next_t v schedule_map), σ')
    /\ fired σ' = fired σ ++ [c] /\ next_at <= c /\ clock σ <= c
    /\ (exists σ1,
          (_next_at_with_jitter next_t jitter_min (Some (next_at + days 1)) σ1).1 = Ok v)
    /\ next_at + days 1 + seconds 5 <= v
    /\ dict_get next_t (dict_set next_t v schedule_map) = Some v
    /\ (forall k, k <> next_t ->
          dict_get k (dict_set next_t v schedule_map) = dict_get k schedule_map)
    /\ (forall k x, k <> next_t -> (k, x) ∈ schedule_map ->
          (k, x) ∈ dict_set next_t v schedule_map)
    /\ (dict_set next_t v schedule_map).*1 = schedule_map.*1.
Proof.
  intros Hne Hparse.
  destruct (min_item_spec schedule_map Hne) as (next_t & next_at & Hmin & Hin & Hleast).
  rewrite Forall_forall in Hparse.
  destruct (Hparse _ Hin) as (d & t & Hp). cbn [fst] in Hp.
  destruct (wait_until_run next_at σ) as (c & Hwait & Hc1 & Hc2 & _).
  destruct (fire_run user_id token (set_clock c σ)) as (s' & rs & q & Hfire).
  cbn [clock set_clock localtime draws fired] in Hfire.
  set (σ2 := World c (localtime σ) (draws σ) s' rs q (fired σ ++ [c])) in *.
  destruct (_next_at_with_jitter_run next_t jitter_min (Some (next_at + days 1))
              σ2 d t Hp) as (offs & Hnext & Ho).
  cbn [default] in Hnext, Ho.
  set (v := jitter_start d t jitter_min (next_at + days 1) + seconds offs) in *.
  exists next_t, next_at, v, c, (set_draws (tail (draws σ2)) σ2).
  split_and!; try done.
  - unfold run_daily_multi_at_round.
    rewrite bind_run. unfold lift at 1. rewrite Hmin.
    rewrite bind_run, Hwait, bind_run, Hfire, bind_run, Hnext. done.
  - exists σ2. by rewrite Hnext.
  - subst v. unfold jitter_start, seconds in *. lia.
  - apply dict_get_set_eq.
  - intros k Hk. by apply dict_get_set_ne.
  - intros k x Hk Hkx. by apply dict_set_other.
  - by apply (dict_set_keys _ _ next_at).
Qed.

Lemma run_daily_multi_at_round_frame_witness :
  let σ := World (seconds (9 * 3600)) (fun _ => StructTime 2024 1 5 9 0 0)
                 [40] [NEED_COLS; ["hello"]] [] [] [] in
  let schedule_map := [("12:00", seconds (12 * 3600 + 600));
                       ("10:00", seconds (10 * 3600 + 300))] in
  (schedule_map <> []
   /\ Forall (fun kv => exists d t, _parse_hhmm_ext kv.1 = Ok (d, t)) schedule_map)
  /\ exists next_t next_at v c σ',
       min_item schedule_map = Ok (next_t, next_at)
       /\ (next_t, next_at) ∈ schedule_map
       /\ (forall k x, (k, x) ∈ schedule_map -> next_at <= x)
       /\ run_daily_multi_at_round "u" "t" 5 schedule_map σ
          = (Ok (dict_set next_t v schedule_map), σ')
       /\ fired σ' = fired σ ++ [c] /\ next_at <= c /\ clock σ <= c
       /\ (exists σ1,
             (_next_at_with_jitter next_t 5 (Some (next_at + days 1)) σ1).1 = Ok v)
       /\ next_at + days 1 + seconds 5 <= v
       /\ dict_get next_t (dict_set next_t v schedule_map) = Some v
       /\ (forall k, k <> next_t ->
             dict_get k (dict_set next_t v schedule_map) = dict_get k schedule_map)
       /\ (forall k x, k <> next_t -> (k, x) ∈ schedule_map ->
             (k, x) ∈ dict_set next_t v schedule_map)
       /\ (dict_set next_t v schedule_map).*1 = schedule_map.*1.
Proof.
  intros σ schedule_map.
  assert (schedule_map <> []) as H1 by done.
  assert (Forall (fun kv => exists d t, _parse_hhmm_ext kv.1 = Ok (d, t)) schedule_map)
    as H2 by (repeat constructor; eexists _, _; reflexivity).
  split; [by split|].
  exact (run_daily_multi_at_round_frame "u" "t" 5 schedule_map σ H1 H2).
Defined.

(** C9 fails on the code where it says that the entry of the label fired
    is set to an instant of the next day.  The new entry comes from
    [_next_at_with_jitter] with the reference one day after the instant
    fired; when that instant was after the target plus the jitter, the
    reference is after the next day's span and the target moves one day
    more.  With the time 12:00 and a jitter of 0, started at 09:00 of day
    0, the label fires at 12:00:30 of day 0 and its new entry is 12:00:30
    of day 2: the first two firings are on days 0 and 2.  With a jitter
    of 30 the first three firings are on days 0, 1 and 3. *)
Theorem run_daily_multi_at_skips_a_day :
  let ok := Response 200 "{}" (Some {[ "id" := "17" ]}) in
  let σ := World (seconds (9 * 3600)) (fun _ => StructTime 2024 1 5 9 0 0)
                 [30; 30; 30] [NEED_COLS; ["hello"]; ["again"]]
                 [inr ok; inr ok] [] [] in
  let t1 := seconds (12 * 3600 + 30) in
  let t2 := days 2 + seconds (12 * 3600 + 30) in
  let σ30 := World (seconds (9 * 3600)) (fun _ => StructTime 2024 1 5 9 0 0)
                   [3600; 10; 0; 0] [NEED_COLS; ["hello"]; ["again"]; ["more"]]
                   [inr ok; inr ok; inr ok] [] [] in
  (initial_schedule ["12:00"] 0 [] σ).1 = Ok [("12:00", t1)]
  /\ (run_daily_multi_at 1 "u" "t" (Some "12:00") 0 σ).1 = Ok [("12:00", t2)]
  /\ fired (run_daily_multi_at 1 "u" "t" (Some "12:00") 0 σ).2 = [t1]
  /\ fired (run_daily_multi_at 2 "u" "t" (Some "12:00") 0 σ).2 = [t1; t2]
  /\ date t1 = 0 /\ date t2 = 2
  /\ date <$> fired (run_daily_multi_at 3 "u" "t" (Some "12:00") 30 σ30).2 = [0; 1; 3].
Proof.
  intros ok σ t1 t2 σ30.
  split_and!; vm_compute; reflexivity.
Qed.

(** * Further properties of the code *)

(** ** Reading the sheet *)

Lemma row_of_snoc (header : list string) (x : string) (raw : list string) :
  row_of (header ++ [x]) raw
  = <[x := default EmptyString (raw !! length header)]> (row_of header raw).
Proof.
  unfold row_of. rewrite imap_app, foldl_app. simpl.
  by rewrite Nat.add_0_r.
Qed.

(** The cell a row holds for a name is the one under the column that
    [update_result] takes for that name. *)
Lemma row_of_lookup (header raw : list string) (name : string) :
  row_of header raw !! name
  = (fun c => default EmptyString (raw !! pred c)) <$> col_idx_of header !! name.
Proof.
  induction header as [|x header IH] using rev_ind.
  - unfold row_of, col_idx_of. simpl. by rewrite !lookup_empty.
  - rewrite row_of_snoc, col_idx_of_snoc, !lookup_insert.
    by case_decide.
Qed.

(** The column taken for a name is the rightmost one of that name. *)
Lemma col_idx_of_last (header : list string) (k : string) (i : nat) :
  col_idx_of header !! k = Some (S i) ->
  header !! i = Some k /\ forall j, (i < j)%nat -> header !! j <> Some k.
Proof.
  revert i. induction header as [|x header IH] using rev_ind; intros i.
  - unfold col_idx_of. simpl. by rewrite lookup_empty.
  - rewrite col_idx_of_snoc, lookup_insert. case_decide as E.
    + intros [= <-]. subst x. split.
      * by rewrite lookup_app_r, Nat.sub_diag.
      * intros j Hj. rewrite lookup_ge_None_2; [done|].
        rewrite length_app. simpl. lia.
    + intros Hi. destruct (IH i Hi) as [Hh Hlast].
      split; [by apply lookup_app_l_Some|].
      intros j Hj Hjk. apply lookup_app_Some in Hjk as [Hjk|[Hlen Hjk]].
      * by apply (Hlast j).
      * apply list_lookup_singleton_Some in Hjk as [_ ->]. done.
Qed.

Lemma col_idx_of_None (header : list string) (k : string) :
  col_idx_of header !! k = None <-> k ∉ header.
Proof.
  split.
  - intros Hn Hin. apply col_idx_of_elem in Hin as (i & Hi & _). congruence.
  - intros Hnin. destruct (col_idx_of header !! k) as [c|] eqn:E; [|done].
    apply col_idx_of_Some in E as (i & _ & Hi).
    destruct Hnin. by apply list_elem_of_lookup_2 in Hi.
Qed.

Lemma rows_from_lookup (i : nat) (header : list string) (raws : list (list string))
    (k : nat) :
  rows_from i header raws !! k
  = (fun raw => ((i + k)%nat, row_of header raw)) <$> raws !! k.
Proof.
  revert i k. induction raws as [|raw raws IH]; intros i k; [done|].
  destruct k as [|k]; simpl.
  - by rewrite Nat.add_0_r.
  - rewrite IH. by rewrite Nat.add_succ_r.
Qed.

Lemma rows_with_index_lookup (values : list (list string)) (header : list string)
    (k : nat) :
  rows_with_index values header !! k
  = (fun raw => (S (S k), row_of header raw)) <$> values !! S k.
Proof.
  unfold rows_with_index. destruct (length values <=? 1)%nat eqn:E.
  - apply Nat.leb_le in E. rewrite lookup_nil.
    by rewrite (lookup_ge_None_2 values (S k)) by lia.
  - rewrite rows_from_lookup, lookup_tail. done.
Qed.

Lemma rows_with_index_length (values : list (list string))
    (header : list string) :
  length (rows_with_index values header) = pred (length values).
Proof.
  unfold rows_with_index. destruct (length values <=? 1)%nat eqn:E.
  - apply Nat.leb_le in E. simpl. lia.
  - pose proof (rows_from_indices 2 header (tail values)) as H.
    apply (f_equal length) in H.
    rewrite length_fmap, length_seq in H. rewrite H. by destruct values.
Qed.

(** X1: [rows_with_index] gives one entry for every sheet row below the
    header row, in sheet order, the row at position k+1 with the index
    k+2; in its dict a name of the header maps to the cell under the
    rightmost column of that name, a cell the row is too short for reads
    as the empty string, and a name that is not in the header has no
    entry. *)
Theorem rows_with_index_reads_cells (values : list (list string))
    (header : list string) :
  length (rows_with_index values header) = pred (length values)
  /\ (forall k raw,
        values !! S k = Some raw ->
        rows_with_index values header !! k = Some (S (S k), row_of header raw))
  /\ (forall raw name,
        match row_of header raw !! name with
        | Some v =>
            exists i, header !! i = Some name
                      /\ (forall j, (i < j)%nat -> header !! j <> Some name)
                      /\ v = default EmptyString (raw !! i)
        | None => name ∉ header
        end).
Proof.
  split_and!.
  - apply rows_with_index_length.
  - intros k raw Hk. by rewrite rows_with_index_lookup, Hk.
  - intros raw name. rewrite row_of_lookup.
    destruct (col_idx_of header !! name) as [c|] eqn:E; simpl.
    + destruct (col_idx_of_Some _ _ _ E) as (i & -> & _).
      destruct (col_idx_of_last _ _ _ E) as [Hi Hlast].
      by exists i.
    + by apply col_idx_of_None.
Qed.

Lemma rows_with_index_reads_cells_witness :
  let values := [["text"; "status"; "text"]; ["a"; "posted"; "b"]; ["c"]] in
  let header := ["text"; "status"; "text"] in
  rows_with_index values header !! 1%nat
  = Some (3%nat, row_of header ["c"])
  /\ row_of header ["c"] !! "text" = Some EmptyString.
Proof.
  intros values header.
  destruct (rows_with_index_reads_cells values header) as (_ & H & _).
  split; [by apply H|]. vm_compute. reflexivity.
Defined.

(** ** Writing a result and reading it back *)

Lemma lookup_write_cell (c : nat) (v : string) (l : list string) (i : nat) :
  default EmptyString (<[c := v]> (pad (S c) EmptyString l) !! i)
  = if decide (i = c) then v else default EmptyString (l !! i).
Proof.
  case_decide as E.
  - subst i. rewrite list_lookup_insert_eq; [done|]. apply length_pad.
  - rewrite list_lookup_insert_ne by done. apply default_lookup_pad.
Qed.

Lemma set_cell_in_range (r c : nat) (v : string) (s : list (list string))
    (raw : list string) :
  s !! r = Some raw ->
  set_cell r c v s = <[r := <[c := v]> (pad (S c) EmptyString raw)]> s.
Proof.
  intros Hr. unfold set_cell.
  assert (pad (S r) [] s = s) as ->.
  { unfold pad. apply lookup_lt_Some in Hr.
    replace (S r - length s)%nat with 0%nat by lia. apply app_nil_r. }
  by rewrite Hr.
Qed.

(** The sheet after [update_result]: the row written, as a list of cells. *)
Lemma update_result_sheet (header : list string) (r : nat) (status err : string)
    (σ : world) (raw : list string) :
  "status" ∈ header -> "posted_at" ∈ header -> "error" ∈ header ->
  sheet σ !! r = Some raw ->
  exists raw',
    update_result header (S r) status err σ
    = (Ok tt, set_sheet (<[r := raw']> (sheet σ)) σ)
    /\ forall name,
         row_of header raw' !! name
         = if decide (name = "error")
           then Some (if decide (status = "failed") then take 3000 err else EmptyString)
           else if decide (name = "posted_at")
           then Some (if decide (status = "posted")
                      then strftime (localtime σ (clock σ)) else EmptyString)
           else if decide (name = "status") then Some status
           else row_of header raw !! name.
Proof.
  intros Hs Hp He Hr.
  destruct (col_idx_of_elem _ _ Hs) as (cs & Hcs & _).
  destruct (col_idx_of_elem _ _ Hp) as (cp & Hcp & _).
  destruct (col_idx_of_elem _ _ He) as (ce & Hce & _).
  pose proof (lookup_lt_Some _ _ _ Hr) as Hlen.
  eexists. split.
  - rewrite (update_result_run _ _ _ _ _ _ _ _ Hcs Hcp Hce).
    rewrite (set_cell_in_range r cs _ _ raw Hr).
    erewrite (set_cell_in_range r cp); [|by apply list_lookup_insert_eq].
    erewrite (set_cell_in_range r ce);
      [|rewrite list_insert_insert_eq; by apply list_lookup_insert_eq].
    by rewrite !list_insert_insert_eq.
  - intros name. rewrite !row_of_lookup.
    destruct (col_idx_of header !! name) as [c|] eqn:Ec.
    + destruct (col_idx_of_Some _ _ _ Ec) as (i & -> & _). cbn [fmap option_fmap option_map pred].
      rewrite !lookup_write_cell.
      destruct (decide (name = "error")) as [->|Ne].
      { assert (i = ce) as -> by congruence. by rewrite decide_True. }
      rewrite (decide_False (P := i = ce))
        by (intros ->; by pose proof (col_idx_of_inj _ _ _ _ Ec Hce)).
      destruct (decide (name = "posted_at")) as [->|Np].
      { assert (i = cp) as -> by congruence. by rewrite decide_True. }
      rewrite (decide_False (P := i = cp))
        by (intros ->; by pose proof (col_idx_of_inj _ _ _ _ Ec Hcp)).
      destruct (decide (name = "status")) as [->|Ns].
      { assert (i = cs) as -> by congruence. by rewrite decide_True. }
      rewrite (decide_False (P := i = cs))
        by (intros ->; by pose proof (col_idx_of_inj _ _ _ _ Ec Hcs)).
      done.
    + simpl. repeat case_decide; subst; congruence.
Qed.

Lemma rows_with_index_insert (s : list (list string)) (header : list string)
    (r : nat) (raw' : list string) :
  (1 <= r < length s)%nat ->
  rows_with_index (<[r := raw']> s) header
  = <[pred r := (S r, row_of header raw')]> (rows_with_index s header).
Proof.
  intros Hr. apply list_eq. intros k.
  rewrite rows_with_index_lookup.
  destruct (decide (k = pred r)) as [->|Hk].
  - replace (S (pred r)) with r by lia.
    rewrite list_lookup_insert_eq by lia.
    rewrite list_lookup_insert_eq; [done|].
    rewrite rows_with_index_length. lia.
  - rewrite !list_lookup_insert_ne by lia.
    by rewrite rows_with_index_lookup.
Qed.

(** X2: what [update_result] writes is what [rows_with_index] reads back.
    With the three result columns in the header and for a row of the
    sheet below the header row, reading the sheet again gives the same
    list of rows except for that row, whose dict now holds the status
    written, the time stamp or nothing under posted_at, the cut error or
    nothing under error, and every other entry as before. *)
Theorem update_result_read_back (header : list string) (r : nat)
    (status err : string) (σ : world) (raw : list string) :
  "status" ∈ header -> "posted_at" ∈ header -> "error" ∈ header ->
  (1 <= r)%nat -> sheet σ !! r = Some raw ->
  exists σ' r',
    update_result header (S r) status err σ = (Ok tt, σ')
    /\ rows_with_index (sheet σ') header
       = <[pred r := (S r, r')]> (rows_with_index (sheet σ) header)
    /\ rows_with_index (sheet σ) header !! pred r = Some (S r, row_of header raw)
    /\ r' !! "status" = Some status
    /\ r' !! "posted_at"
       = Some (if decide (status = "posted")
               then strftime (localtime σ (clock σ)) else EmptyString)
    /\ r' !! "error"
       = Some (if decide (status = "failed") then take 3000 err else EmptyString)
    /\ forall name, name ∉ result_cols -> r' !! name = row_of header raw !! name.
Proof.
  intros Hs Hp He Hr1 Hr.
  destruct (update_result_sheet header r status err σ raw Hs Hp He Hr)
    as (raw' & Hrun & Hrow).
  pose proof (lookup_lt_Some _ _ _ Hr) as Hlen.
  exists (set_sheet (<[r := raw']> (sheet σ)) σ), (row_of header raw').
  split_and!.
  - done.
  - cbn [sheet set_sheet]. apply rows_with_index_insert. lia.
  - rewrite rows_with_index_lookup. replace (S (pred r)) with r by lia.
    by rewrite Hr.
  - by rewrite Hrow.
  - by rewrite Hrow.
  - by rewrite Hrow.
  - intros name Hn. rewrite Hrow. unfold result_cols in Hn.
    rewrite !not_elem_of_cons in Hn. destruct Hn as (? & ? & ? & _).
    by rewrite !decide_False.
Qed.

Lemma update_result_read_back_witness :
  let header := ["text"; "status"; "posted_at"; "error"] in
  let σ := World 0 (fun _ => StructTime 2024 1 5 9 3 7) []
                 [header; ["hello"]; ["again"; "failed"]] [] [] [] in
  exists σ' r',
    update_result header 3 "posted" EmptyString σ = (Ok tt, σ')
    /\ rows_with_index (sheet σ') header
       = <[1%nat := (3%nat, r')]> (rows_with_index (sheet σ) header)
    /\ r' !! "status" = Some "posted"
    /\ r' !! "text" = Some "again".
Proof.
  intros header σ.
  destruct (update_result_read_back header 2 "posted" EmptyString σ ["again"; "failed"])
    as (σ' & r' & H1 & H2 & _ & H3 & _ & _ & H4);
    [repeat constructor..|lia|reflexivity|].
  exists σ', r'. split_and!; [done..|].
  rewrite H4; [vm_compute; reflexivity|].
  unfold result_cols. rewrite !not_elem_of_cons.
  split_and!; (by apply not_elem_of_nil) || str_ne.
Defined.

(** ** Which row comes next *)

Lemma first_unposted_app_skip (pre post : list (nat * row)) :
  Forall (fun p => ~ eligible p.2) pre ->
  first_unposted (pre ++ post) = first_unposted post.
Proof.
  induction 1 as [|[j r'] pre Hn _ IH]; [done|].
  simpl. destruct (unposted r') eqn:E; [|done].
  by apply unposted_eligible in E.
Qed.

(** The row picked, seen as a place in the list read from the sheet. *)
Lemma first_unposted_place (values : list (list string)) (header : list string)
    (idx : nat) (r : row) :
  first_unposted (rows_with_index values header) = Some (idx, r) ->
  exists i raw pre post,
    idx = S i /\ (1 <= i)%nat /\ values !! i = Some raw /\ r = row_of header raw
    /\ eligible r
    /\ rows_with_index values header = pre ++ (idx, r) :: post
    /\ length pre = pred i
    /\ Forall (fun p => ~ eligible p.2) pre
    /\ Forall (fun p => (idx < p.1)%nat) post.
Proof.
  intros Hpick.
  destruct (first_unposted_split _ _ _ Hpick) as (pre & post & Hrows & Hel & Hpre).
  assert (rows_with_index values header !! length pre = Some (idx, r)) as Hk.
  { rewrite Hrows. by rewrite lookup_app_r, Nat.sub_diag. }
  rewrite rows_with_index_lookup in Hk.
  destruct (values !! S (length pre)) as [raw|] eqn:Hraw; [|done].
  simpl in Hk. injection Hk as <- <-.
  exists (S (length pre)), raw, pre, post.
  split_and!; [done|lia|done..| |].
  - done.
  - destruct (rows_with_index_ascending values header) as [Hasc _].
    unfold ascending in Hasc. rewrite Hrows, fmap_app, fmap_cons in Hasc.
    apply StronglySorted_app_1_r, StronglySorted_cons in Hasc as [Hlt _].
    rewrite Forall_fmap in Hlt. eapply Forall_impl; [exact Hlt|].
    intros [j r']. simpl. unfold Nat.lt. lia.
Qed.

(** [post_next_unposted] on a picked row: the submission, then one
    [update_result] on the sheet as it was. *)
Lemma post_next_unposted_picked (user_id token : string) (header : list string)
    (σ : world) (i : nat) (r : row) :
  "status" ∈ header -> "posted_at" ∈ header -> "error" ∈ header ->
  first_unposted (rows_with_index (sheet σ) header) = Some (S i, r) ->
  exists (b : bool) err σ1 σ2,
    post_next_unposted user_id token header σ = (Ok b, σ2)
    /\ σ1 = (post_one user_id token r σ).2
    /\ (if b then is_Some_ok (post_one user_id token r σ).1
        else exists e, (post_one user_id token r σ).1 = Raise e /\ err = str_exn e)
    /\ update_result header (S i) (if b then "posted" else "failed") err σ1
       = (Ok tt, σ2).
Proof.
  intros Hs Hp He Hpick.
  pose proof (post_one_raises_Exception user_id token r σ) as Hexc.
  unfold post_next_unposted.
  rewrite bind_run. unfold get_all_values. rewrite Hpick.
  unfold try_except. rewrite bind_run.
  destruct (post_one user_id token r σ) as [[res|e] σ1]; cbn [fst snd] in *.
  - destruct (update_result_returns header i "posted" EmptyString σ1 Hs Hp He)
      as (s' & Hrun).
    rewrite bind_run, Hrun.
    exists true, EmptyString, σ1, (set_sheet s' σ1). by split_and!.
  - rewrite (Hexc e eq_refl).
    destruct (update_result_returns header i "failed" (str_exn e) σ1 Hs Hp He)
      as (s' & Hrun).
    rewrite bind_run, Hrun.
    exists false, (str_exn e), σ1, (set_sheet s' σ1).
    split_and!; [done..|by exists e|done].
Qed.

(** The list of rows read after [post_next_unposted] handled a row: the
    same list with the entry of that row replaced. *)
Lemma post_next_unposted_rows (user_id token : string) (header : list string)
    (σ : world) (idx : nat) (r : row) :
  "status" ∈ header -> "posted_at" ∈ header -> "error" ∈ header ->
  first_unposted (rows_with_index (sheet σ) header) = Some (idx, r) ->
  exists (b : bool) r' pre post σ2,
    post_next_unposted user_id token header σ = (Ok b, σ2)
    /\ (b = true <-> is_Some_ok (post_one user_id token r σ).1)
    /\ rows_with_index (sheet σ) header = pre ++ (idx, r) :: post
    /\ rows_with_index (sheet σ2) header = pre ++ (idx, r') :: post
    /\ Forall (fun p => ~ eligible p.2) pre
    /\ Forall (fun p => (idx < p.1)%nat) post
    /\ eligible r
    /\ r' !! "status" = Some (if b then "posted" else "failed")
    /\ (forall name, name ∉ result_cols -> r' !! name = r !! name)
    /\ replies σ2 = replies (post_one user_id token r σ).2
    /\ sent σ2 = sent (post_one user_id token r σ).2.
Proof.
  intros Hs Hp He Hpick.
  destruct (first_unposted_place _ _ _ _ Hpick)
    as (i & raw & pre & post & -> & Hi & Hraw & -> & Hel & Hrows & Hlen & Hpre & Hpost).
  destruct (post_next_unposted_picked user_id token header σ i _ Hs Hp He Hpick)
    as (b & err & σ1 & σ2 & Hrun & Hσ1 & Hb & Hup).
  destruct (post_one_frame user_id token (row_of header raw) σ) as (Hsh & _).
  rewrite <- Hσ1 in Hsh.
  assert (sheet σ1 !! i = Some raw) as Hraw1 by (by rewrite Hsh).
  destruct (update_result_sheet header i (if b then "posted" else "failed") err σ1 raw
              Hs Hp He Hraw1) as (raw' & Hup' & Hrow).
  rewrite Hup in Hup'. injection Hup' as Hσ2.
  set (r' := row_of header raw').
  assert (rows_with_index (sheet σ2) header
          = <[pred i := (S i, r')]> (rows_with_index (sheet σ1) header)) as Hrows'.
  { rewrite Hσ2. cbn [sheet set_sheet]. apply rows_with_index_insert.
    pose proof (lookup_lt_Some _ _ _ Hraw1). lia. }
  assert (r' !! "status" = Some (if b then "posted" else "failed")) as Hst
    by (unfold r'; by rewrite Hrow).
  assert (forall name, name ∉ result_cols -> r' !! name = row_of header raw !! name)
    as Hother.
  { intros name Hn. unfold r'. rewrite Hrow. unfold result_cols in Hn.
    rewrite !not_elem_of_cons in Hn. destruct Hn as (? & ? & ? & _).
    by rewrite !decide_False. }
  clearbody r'. clear Hrow Hσ2.
  exists b, r', pre, post, σ2. split_and!; try done.
  - destruct b; [by split|]. destruct Hb as (e & Hb & _). rewrite Hb.
    split; [done|]. intros [].
  - rewrite Hrows', Hsh, Hrows. rewrite <- Hlen.
    replace (length pre) with (length pre + 0)%nat at 1 by lia.
    by rewrite insert_app_r.
  - destruct (update_result_returns header i (if b then "posted" else "failed") err σ1
                Hs Hp He) as (s' & Hrun').
    rewrite Hup in Hrun'. injection Hrun' as ->. by rewrite Hσ1.
  - destruct (update_result_returns header i (if b then "posted" else "failed") err σ1
                Hs Hp He) as (s' & Hrun').
    rewrite Hup in Hrun'. injection Hrun' as ->. by rewrite Hσ1.
Qed.

(** X3: a row that [post_next_unposted] has marked posted is not picked
    again: when it returned true for the row picked, the next pick from
    the sheet as it is then is a row further down, or nothing. *)
Theorem posted_row_not_picked_again (user_id token : string) (header : list string)
    (σ : world) (idx : nat) (r : row) :
  "status" ∈ header -> "posted_at" ∈ header -> "error" ∈ header ->
  first_unposted (rows_with_index (sheet σ) header) = Some (idx, r) ->
  let out := post_next_unposted user_id token header σ in
  out.1 = Ok true ->
  match first_unposted (rows_with_index (sheet out.2) header) with
  | Some (j, _) => (idx < j)%nat
  | None => True
  end.
Proof.
  intros Hs Hp He Hpick out Hout.
  destruct (post_next_unposted_rows user_id token header σ idx r Hs Hp He Hpick)
    as (b & r' & pre & post & σ2 & Hrun & _ & _ & Hrows' & Hpre & Hpost & _ & Hst & _).
  subst out. rewrite Hrun in Hout |- *. cbn [fst snd] in *.
  injection Hout as ->.
  rewrite Hrows', (first_unposted_app_skip _ _ Hpre). simpl.
  assert (unposted r' = false) as ->.
  { unfold unposted. rewrite Hst. by vm_compute. }
  destruct (first_unposted post) as [[j r'']|] eqn:E; [|done].
  apply first_unposted_split in E as (p1 & p2 & -> & _).
  rewrite Forall_app, Forall_cons in Hpost. by destruct Hpost as (_ & ? & _).
Qed.

Lemma posted_row_not_picked_again_witness :
  let header := ["text"; "status"; "posted_at"; "error"] in
  let ok := Response 200 "{}" (Some {[ "id" := "17" ]}) in
  let σ := World 0 (fun _ => StructTime 2024 1 5 9 3 7) []
                 [header; ["hello"]; ["again"]] [inr ok] [] [] in
  let out := post_next_unposted "u" "t" header σ in
  match first_unposted (rows_with_index (sheet out.2) header) with
  | Some (j, _) => (2 < j)%nat
  | None => True
  end.
Proof.
  intros header ok σ out.
  apply (posted_row_not_picked_again "u" "t" header σ 2 (row_of header ["hello"]));
    [repeat constructor..| |]; vm_compute; reflexivity.
Defined.

(** X4: a row whose submission failed is picked again: when
    [post_next_unposted] returned false for the row picked, the next pick
    from the sheet as it is then is the same row, now with the status
    "failed" and its text and image url as before.  The rows below it
    wait until it is posted. *)
Theorem failed_row_picked_again (user_id token : string) (header : list string)
    (σ : world) (idx : nat) (r : row) :
  "status" ∈ header -> "posted_at" ∈ header -> "error" ∈ header ->
  first_unposted (rows_with_index (sheet σ) header) = Some (idx, r) ->
  let out := post_next_unposted user_id token header σ in
  out.1 = Ok false ->
  exists r',
    first_unposted (rows_with_index (sheet out.2) header) = Some (idx, r')
    /\ r' !! "status" = Some "failed"
    /\ r' !! "text" = r !! "text"
    /\ r' !! "image_url" = r !! "image_url".
Proof.
  intros Hs Hp He Hpick out Hout.
  destruct (post_next_unposted_rows user_id token header σ idx r Hs Hp He Hpick)
    as (b & r' & pre & post & σ2 & Hrun & _ & _ & Hrows' & Hpre & _ & Hel & Hst
        & Hother & _).
  subst out. rewrite Hrun in Hout |- *. cbn [fst snd] in *.
  injection Hout as ->.
  assert (r' !! "text" = r !! "text") as Ht.
  { apply Hother. unfold result_cols. rewrite !not_elem_of_cons.
    split_and!; (by apply not_elem_of_nil) || str_ne. }
  assert (r' !! "image_url" = r !! "image_url") as Hi.
  { apply Hother. unfold result_cols. rewrite !not_elem_of_cons.
    split_and!; (by apply not_elem_of_nil) || str_ne. }
  exists r'. split_and!; [|done..].
  rewrite Hrows', (first_unposted_app_skip _ _ Hpre). simpl.
  assert (unposted r' = true) as ->; [|done].
  apply unposted_eligible. destruct Hel as [_ Hb]. split.
  - unfold posted_status. rewrite Hst. by vm_compute.
  - unfold blank in *. by rewrite Ht, Hi.
Qed.

Lemma failed_row_picked_again_witness :
  let header := ["text"; "status"; "posted_at"; "error"] in
  let σ := World 0 (fun _ => StructTime 2024 1 5 9 3 7) []
                 [header; ["hello"]; ["again"]] [] [] [] in
  let out := post_next_unposted "u" "t" header σ in
  exists r',
    first_unposted (rows_with_index (sheet out.2) header) = Some (2%nat, r')
    /\ r' !! "status" = Some "failed"
    /\ r' !! "text" = row_of header ["hello"] !! "text"
    /\ r' !! "image_url" = row_of header ["hello"] !! "image_url".
Proof.
  intros header σ out.
  apply (failed_row_picked_again "u" "t" header σ 2 (row_of header ["hello"]));
    [repeat constructor..| |]; vm_compute; reflexivity.
Defined.

(** ** Retrying, the header again, missing columns *)

Lemma attempt_raises (o : option (string + response)) :
  ~ is_Some_ok (attempt_result o) ->
  exists e, attempt_result o = Raise e /\ is_Exception e = true.
Proof.
  destruct (attempt_result o) as [d|e] eqn:E; [by intros []|].
  intros _. exists e. split; [done|]. by apply attempt_result_is_Exception in E.
Qed.

Lemma retry_outcome_first_success (rs : list (string + response)) (j : nat)
    (data : gmap string string) :
  (j < 3)%nat ->
  attempt_result (rs !! j) = Ok data ->
  (forall i, (i < j)%nat -> ~ is_Some_ok (attempt_result (rs !! i))) ->
  retry_outcome 3 rs = (Ok data, S j).
Proof.
  intros Hj Hok Hbefore. cbn [retry_outcome].
  rewrite !head_lookup, !lookup_tail.
  destruct j as [|[|[|j]]]; [| | |lia].
  - by rewrite Hok.
  - destruct (attempt_raises _ (Hbefore 0%nat ltac:(lia))) as (e0 & -> & ->).
    by rewrite Hok.
  - destruct (attempt_raises _ (Hbefore 0%nat ltac:(lia))) as (e0 & -> & ->).
    destruct (attempt_raises _ (Hbefore 1%nat ltac:(lia))) as (e1 & -> & ->).
    by rewrite Hok.
Qed.

(** X5: a remote call stops at its first attempt that returns: when the
    attempt number j+1 (of at most three) is the first whose reply is
    accepted, the call returns the JSON of that reply, has sent its
    request exactly j+1 times and has used exactly j+1 replies; nothing
    is sent after a reply was accepted. *)
Theorem remote_call_stops_at_first_success (user_id token : string)
    (payload : gmap string pval) (creation_id : option string) (σ : world)
    (j : nat) (data : gmap string string) :
  (j < 3)%nat ->
  attempt_result (replies σ !! j) = Ok data ->
  (forall i, (i < j)%nat -> ~ is_Some_ok (attempt_result (replies σ !! i))) ->
  create_container user_id token payload σ
  = (Ok data,
     set_net (drop (S j) (replies σ))
             (sent σ ++ replicate (S j) (create_request user_id token payload)) σ)
  /\ publish_container user_id token creation_id σ
     = (Ok data,
        set_net (drop (S j) (replies σ))
                (sent σ ++ replicate (S j) (publish_request user_id token creation_id)) σ).
Proof.
  intros Hj Hok Hbefore.
  rewrite create_container_run, publish_container_run.
  by rewrite (retry_outcome_first_success _ _ _ Hj Hok Hbefore).
Qed.

Lemma remote_call_stops_at_first_success_witness :
  let ok := Response 200 "{}" (Some {[ "id" := "17" ]}) in
  let σ := World 0 (fun _ => StructTime 2024 1 5 9 3 7) [] []
                 [inr (Response 503 "busy" None); inr ok; inr ok] [] [] in
  create_container "u" "t" ∅ σ
  = (Ok {[ "id" := "17" ]},
     set_net [inr ok] (replicate 2 (create_request "u" "t" ∅)) σ).
Proof.
  intros ok σ.
  destruct (remote_call_stops_at_first_success "u" "t" ∅ None σ 1 {[ "id" := "17" ]})
    as [H _]; [lia|reflexivity| |exact H].
  intros i Hi. assert (i = 0%nat) as -> by lia. by intros [].
Defined.

(** X6: [ensure_header] is idempotent: called again on the sheet it left,
    it returns the same header and writes nothing. *)
Theorem ensure_header_twice (σ : world) :
  exists header σ1,
    ensure_header σ = (Ok header, σ1)
    /\ ensure_header σ1 = (Ok header, σ1).
Proof.
  destruct (ensure_header_run σ)
    as (header & added & σ1 & Hrun & Hall & _ & _ & Hsheet & _ & _).
  destruct (ensure_header_run σ1)
    as (header2 & added2 & σ2 & Hrun2 & _ & _ & _ & _ & _ & Hsame).
  rewrite Hsheet in Hsame. cbn [head default] in Hsame.
  destruct (Hsame Hall) as [-> ->].
  by exists header, σ1.
Qed.

(** X7: what [update_result] does when the header lacks a result column:
    without "status" it raises [KeyError] before anything is written;
    without "posted_at" it raises after the status cell is written;
    without "error" it raises after the status and posted_at cells are
    written.  The cells written stay written. *)
Theorem update_result_missing_column (header : list string) (r : nat)
    (status err : string) (σ : world) :
  ("status" ∉ header ->
   update_result header (S r) status err σ = (Raise (KeyError "status"), σ))
  /\ (forall cs,
        col_idx_of header !! "status" = Some (S cs) -> "posted_at" ∉ header ->
        update_result header (S r) status err σ
        = (Raise (KeyError "posted_at"),
           set_sheet (set_cell r cs status (sheet σ)) σ))
  /\ (forall cs cp,
        col_idx_of header !! "status" = Some (S cs) ->
        col_idx_of header !! "posted_at" = Some (S cp) -> "error" ∉ header ->
        update_result header (S r) status err σ
        = (Raise (KeyError "error"),
           set_sheet
             (set_cell r cp (if decide (status = "posted")
                             then strftime (localtime σ (clock σ)) else EmptyString)
                (set_cell r cs status (sheet σ))) σ)).
Proof.
  split_and!.
  - intros Hs%col_idx_of_None. unfold update_result, getitem. by rewrite Hs.
  - intros cs Hs Hp%col_idx_of_None. unfold update_result, getitem.
    rewrite Hs, Hp. by destruct σ.
  - intros cs cp Hs Hp He%col_idx_of_None. unfold update_result, getitem.
    rewrite Hs, Hp, He. by destruct σ.
Qed.

Lemma update_result_missing_column_witness :
  let σ := World 0 (fun _ => StructTime 2024 1 5 9 3 7) []
                 [["text"; "status"]; ["hello"]] [] [] [] in
  update_result ["text"; "status"] 2 "posted" EmptyString σ
  = (Raise (KeyError "posted_at"),
     set_sheet [["text"; "status"]; ["hello"; "posted"]] σ).
Proof.
  intros σ.
  destruct (update_result_missing_column ["text"; "status"] 1 "posted" EmptyString σ)
    as (_ & H & _).
  rewrite (H 1%nat); [reflexivity|reflexivity|].
  rewrite !not_elem_of_cons. split_and!; (by apply not_elem_of_nil) || str_ne.
Defined.

(** ** The nearest entry, the waiting loop *)

Lemma min_fold_first (best : string * Z) (l : schedule) :
  exists r,
    foldl (fun best kv => if decide (kv.2 < best.2) then kv else best) best l = r
    /\ ((r = best /\ Forall (fun x => best.2 <= x.2) l)
        \/ (exists l1 l2, l = l1 ++ r :: l2 /\ r.2 < best.2
                          /\ Forall (fun x => r.2 < x.2) l1
                          /\ Forall (fun x => r.2 <= x.2) l2)).
Proof.
  revert best. induction l as [|kv l IH]; intros best; cbn [foldl].
  - exists best. split; [done|]. left. by split.
  - case_decide as Hlt.
    + destruct (IH kv) as (r & Hr & [[-> Hall]|(l1 & l2 & Hl & Hlt' & H1 & H2)]).
      * exists kv. split; [done|]. right. exists [], l. by split_and!.
      * exists r. split; [done|]. right. exists (kv :: l1), l2.
        split_and!; [by rewrite Hl|lia| |done].
        constructor; [lia|done].
    + destruct (IH best) as (r & Hr & [[-> Hall]|(l1 & l2 & Hl & Hlt' & H1 & H2)]).
      * exists best. split; [done|]. left. split; [done|].
        constructor; [lia|done].
      * exists r. split; [done|]. right. exists (kv :: l1), l2.
        split_and!; [by rewrite Hl|done| |done].
        constructor; [lia|done].
Qed.

(** X8: [min] over the schedule map takes the first of the entries with
    the least instant: every entry before the one taken has a strictly
    later instant, none after it has an earlier one.  Of two labels due at
    the same instant the one listed first fires first. *)
Theorem min_item_first_of_least (d : schedule) :
  match min_item d with
  | Ok (k, v) =>
      exists pre post,
        d = pre ++ (k, v) :: post
        /\ Forall (fun x => v < x.2) pre
        /\ Forall (fun x => v <= x.2) post
  | Raise e => d = [] /\ e = ValueError "min() arg is an empty sequence"
  end.
Proof.
  destruct d as [|kv d]; [done|]. unfold min_item.
  destruct (min_fold_first kv d) as (r & -> & [[-> Hall]|(l1 & l2 & Hd & Hlt & H1 & H2)]).
  - destruct kv as [k v]. exists [], d. by split_and!.
  - destruct r as [k v]. simpl in *.
    exists (kv :: l1), l2. rewrite Hd. split_and!; [done| |done].
    constructor; [lia|done].
Qed.

(** X9: the waiting loop of the scheduler modes ends, and it ends with
    the clock at or after the instant waited for; when it had to wait it
    ends less than a second after that instant, and when the instant had
    passed already it does not sleep at all.  It changes nothing but the
    clock. *)
Theorem wait_until_reaches (nxt : Z) (σ : world) :
  exists c,
    wait_until nxt σ = (Ok tt, set_clock c σ)
    /\ nxt <= c
    /\ clock σ <= c
    /\ (clock σ < nxt -> c < nxt + seconds 1)
    /\ (nxt <= clock σ -> c = clock σ).
Proof. apply wait_until_run. Qed.

Lemma wait_until_reaches_witness :
  let σ := World (seconds 100) (fun _ => StructTime 2024 1 5 9 3 7) [] [] [] [] [] in
  wait_until (seconds 90) σ = (Ok tt, σ).
Proof.
  intros σ.
  destruct (wait_until_reaches (seconds 90) σ) as (c & Hrun & _ & _ & _ & Hc).
  rewrite Hrun, Hc; [reflexivity|]. by vm_compute.
Defined.

(** ** Times of day *)

(** X10: the two parsers of a time of day.  [_parse_hhmm_ext] takes any
    hour: it fails where the unpacking fails or the minute is out of
    range, and otherwise gives the days and the time of day that make up
    the hour, so that the instant meant is the midnight of the day plus
    the hours and minutes written, also for an hour of 24 or more or
    below 0.  [_parse_hhmm] accepts exactly the strings that
    [_parse_hhmm_ext] reads as a time of the day itself. *)
Theorem parse_hhmm_ext_extends (s : string) :
  (forall t, _parse_hhmm s = Ok t <-> _parse_hhmm_ext s = Ok (0, t))
  /\ match unpack_hm s, _parse_hhmm_ext s with
     | Ok (h, m), Ok (d, t) =>
         0 <= m < 60 /\ h = 24 * d + hour t /\ minute t = m /\ valid_dtime t
         /\ forall day,
              combine day t + days d = days day + seconds (h * 3600 + m * 60)
     | Ok (h, m), Raise e => ~ (0 <= m < 60)
     | Raise e, r => r = Raise e
     end.
Proof.
  unfold _parse_hhmm, _parse_hhmm_ext.
  destruct (unpack_hm s) as [[h m]|e]; cbn [mbind result_bind]; [|by split].
  pose proof (Z.mod_pos_bound h 24 ltac:(lia)) as Hmod.
  pose proof (Z.div_mod h 24 ltac:(lia)) as Hdiv.
  unfold mk_dtime. rewrite (decide_True (P := 0 <= h `mod` 24 < 24)) by done.
  split.
  - intros t. destruct (decide (0 <= m < 60)) as [Hm|Hm].
    + destruct (decide (0 <= h < 24)) as [Hh|Hh].
      * rewrite (Z.mod_small h 24), (Z.div_small h 24) by lia.
        split; by intros [= <-].
      * split; [done|]. intros [= Hd <-].
        assert (h = h `mod` 24) by lia. lia.
    + by destruct (decide (0 <= h < 24)).
  - destruct (decide (0 <= m < 60)) as [Hm|Hm]; [|done].
    unfold valid_dtime, combine, days, seconds. cbn [hour minute].
    split_and!; cbn [hour minute]; lia.
Qed.

Lemma clock_strings_unpack_100 : clock_strings_unpack 100 = true.
Proof. vm_compute. reflexivity. Qed.

(** X11: every clock string "HH:MM" written with two digits each, for an
    hour from 00 to 99 and a minute from 00 to 59, unpacks to its two
    numbers; with an hour below 24 both parsers read it as that time of
    day, and with a greater hour [_parse_hhmm] raises while
    [_parse_hhmm_ext] reads the time of a later day. *)
Theorem clock_strings_parse (h m : Z) :
  0 <= h < 100 -> 0 <= m < 60 ->
  let s := pad2 h +:+ ":" +:+ pad2 m in
  unpack_hm s = Ok (h, m)
  /\ _parse_hhmm_ext s = Ok (h `div` 24, Dtime (h `mod` 24) m)
  /\ (h < 24 -> _parse_hhmm s = Ok (Dtime h m))
  /\ (24 <= h -> _parse_hhmm s = Raise (ValueError "hour must be in 0..23")).
Proof.
  intros Hh Hm s.
  assert (unpack_hm s = Ok (h, m)) as Hu.
  { pose proof clock_strings_unpack_100 as H. unfold clock_strings_unpack in H.
    rewrite forallb_forall in H.
    assert (In h (seqZ 0 100)) as Hin
      by (apply list_elem_of_In, elem_of_seqZ; lia).
    specialize (H h Hin). rewrite forallb_forall in H.
    assert (In m (seqZ 0 60)) as Hin'
      by (apply list_elem_of_In, elem_of_seqZ; lia).
    specialize (H m Hin'). by apply bool_decide_eq_true in H. }
  pose proof (Z.mod_pos_bound h 24 ltac:(lia)) as Hmod.
  unfold _parse_hhmm, _parse_hhmm_ext. rewrite Hu. cbn [mbind result_bind].
  unfold mk_dtime.
  rewrite (decide_True (P := 0 <= h `mod` 24 < 24)) by done.
  rewrite (decide_True (P := 0 <= m < 60)) by done.
  split_and!; [done..| |].
  - intros Hlt. repeat case_decide; (done || lia).
  - intros Hge. repeat case_decide; (done || lia).
Qed.

Lemma clock_strings_parse_witness :
  _parse_hhmm "09:05" = Ok (Dtime 9 5)
  /\ _parse_hhmm_ext "26:30" = Ok (1, Dtime 2 30).
Proof.
  destruct (clock_strings_parse 9 5) as (_ & _ & H1 & _); [lia..|].
  destruct (clock_strings_parse 26 30) as (_ & H2 & _); [lia..|].
  split; [apply H1; lia|exact H2].
Defined.

(** ** The two policies, outside the middle of the road *)

(** X12: a daily window whose end is not after its start gives the window
    start of the day after tomorrow, whatever the current time of day and
    whatever is drawn. *)
Theorem _next_random_in_window_end_not_after_start
    (window_str start_s end_s : string) (t_start t_end : dtime) (σ : world) :
  split "-" window_str = [start_s; end_s] ->
  _parse_hhmm start_s = Ok t_start ->
  _parse_hhmm end_s = Ok t_end ->
  combine 0 t_end <= combine 0 t_start ->
  _next_random_in_window window_str σ
  = (Ok (combine (date (clock σ) + 2) t_start), set_draws (tail (draws σ)) σ).
Proof.
  intros Hsplit Hs He Hle.
  destruct (_next_random_in_window_run _ _ _ _ _ σ Hsplit Hs He) as (offs & Hrun & Ho).
  cbv zeta in Hrun, Ho.
  set (now := clock σ) in *. set (today := date now) in *.
  assert (combine today t_end <= combine today t_start) as Hle'
    by (revert Hle; unfold combine, days; lia).
  assert (combine (today + 2) t_start = combine today t_start + days 1 + days 1) as ->
    by (unfold combine, days; lia).
  set (S0 := combine today t_start) in *. set (E0 := combine today t_end) in *.
  rewrite (bool_decide_eq_true_2 (E0 <= now \/ E0 <= S0)) in Hrun, Ho by (by right).
  assert (E0 + days 1 - (S0 + days 1) `max` (now + seconds 5) <= seconds 5) as H2
    by (unfold days, seconds in *; lia).
  rewrite (bool_decide_eq_true_2 _ H2) in Hrun, Ho.
  pose proof (total_seconds_int_nonpos (E0 + days 1 + days 1 - (S0 + days 1 + days 1))
                ltac:(lia)) as Hq.
  assert (offs = 0) as -> by lia.
  rewrite Hrun. unfold seconds. by rewrite Z.add_0_r.
Qed.

Lemma _next_random_in_window_end_not_after_start_witness :
  let σ := World (seconds (23 * 3600)) (fun _ => StructTime 2024 1 5 23 0 0)
                 [999] [] [] [] [] in
  _next_random_in_window "22:00-02:00" σ
  = (Ok (days 2 + seconds (22 * 3600)), set_draws [] σ).
Proof.
  intros σ.
  rewrite (_next_random_in_window_end_not_after_start "22:00-02:00" "22:00" "02:00"
             (Dtime 22 0) (Dtime 2 0) σ);
    [reflexivity|reflexivity|reflexivity|reflexivity|by vm_compute].
Defined.

(** X13: the time-with-jitter policy in its plain case: with a jitter of
    a minute or more and a reference instant at least 5 seconds before
    the start of the span around the time of day on the reference's day
    (moved by the days of an hour of 24 or more), the instant lies in the
    span from that target minus the jitter to that target plus the
    jitter. *)
Theorem _next_at_with_jitter_plain (time_str : string) (jitter_min : Z)
    (ref : option Z) (σ : world) (d : Z) (t : dtime) :
  _parse_hhmm_ext time_str = Ok (d, t) ->
  1 <= jitter_min ->
  let ref' := default (clock σ) ref in
  let base := combine (date ref') t + days d in
  ref' + seconds 5 <= base - minutes jitter_min ->
  exists v,
    _next_at_with_jitter time_str jitter_min ref σ
    = (Ok v, set_draws (tail (draws σ)) σ)
    /\ base - minutes jitter_min <= v <= base + minutes jitter_min.
Proof.
  intros Hparse HJ ref' base Href.
  destruct (_next_at_with_jitter_run time_str jitter_min ref σ d t Hparse)
    as (offs & Hrun & Ho).
  fold ref' in Hrun, Ho.
  assert (jitter_target d t jitter_min ref' = base) as Ht.
  { unfold jitter_target. fold base. rewrite decide_False; [done|].
    unfold minutes, seconds in *. lia. }
  assert (jitter_start d t jitter_min ref' = base - minutes jitter_min) as Hst.
  { unfold jitter_start. rewrite Ht. lia. }
  unfold jitter_span in Ho. rewrite Ht, Hst in Ho. rewrite Hst in Hrun.
  destruct (total_seconds_int_nonneg
              (base + minutes jitter_min - (base - minutes jitter_min)))
    as (Hq0 & Hq & Hq'); [unfold minutes; lia|].
  eexists. split; [exact Hrun|].
  unfold minutes, seconds in *. lia.
Qed.

Lemma _next_at_with_jitter_plain_witness :
  let σ := World (seconds (9 * 3600)) (fun _ => StructTime 2024 1 5 9 0 0)
                 [777] [] [] [] [] in
  exists v,
    _next_at_with_jitter "12:00" 30 None σ = (Ok v, set_draws [] σ)
    /\ seconds (11 * 3600 + 1800) <= v <= seconds (12 * 3600 + 1800).
Proof.
  intros σ.
  destruct (_next_at_with_jitter_plain "12:00" 30 None σ 0 (Dtime 12 0))
    as (v & Hrun & Hv); [reflexivity|lia|by vm_compute|].
  exists v. split; [exact Hrun|].
  change (combine (date (default (clock σ) None)) (Dtime 12 0) + days 0 - minutes 30)
    with (seconds (11 * 3600 + 1800)) in Hv.
  change (combine (date (default (clock σ) None)) (Dtime 12 0) + days 0 + minutes 30)
    with (seconds (12 * 3600 + 1800)) in Hv.
  exact Hv.
Defined.

(** ** The list of times of the multi-time mode *)

Lemma rstrip_nonspace (c : ascii) (s : string) :
  isspace c = false -> rstrip (String c s) = String c (rstrip s).
Proof. intros Hc. simpl. rewrite Hc. by destruct (rstrip s). Qed.

Lemma rstrip_idem (s : string) : rstrip (rstrip s) = rstrip s.
Proof.
  induction s as [|c s IH]; [done|]. simpl.
  destruct (rstrip s) as [|c' r] eqn:E.
  - destruct (isspace c) eqn:Hc; [done|]. simpl. by rewrite Hc.
  - change (rstrip (String c (String c' r))) with
      (match rstrip (String c' r) with
       | EmptyString => if isspace c then EmptyString else String c EmptyString
       | r' => String c r'
       end).
    by rewrite IH.
Qed.

Lemma lstrip_head (s : string) :
  lstrip s = EmptyString
  \/ exists c s', lstrip s = String c s' /\ isspace c = false.
Proof.
  induction s as [|c s IH]; [by left|]. simpl.
  destruct (isspace c) eqn:Hc; [done|]. right. by exists c, s.
Qed.

(** Trimming again changes nothing. *)
Lemma strip_idem (s : string) : strip (strip s) = strip s.
Proof.
  unfold strip. destruct (lstrip_head s) as [->|(c & s' & -> & Hc)]; [done|].
  rewrite (rstrip_nonspace _ _ Hc). cbn [lstrip]. rewrite Hc.
  by rewrite (rstrip_nonspace _ _ Hc), rstrip_idem.
Qed.

Lemma truthy_nonempty (s : string) : truthy s = true <-> s <> EmptyString.
Proof. by destruct s. Qed.

(** X14: the labels that [run_daily_multi_at] takes from its [--times]
    text are the trimmed pieces between the commas, in their order, the
    blank pieces left out: every label is a piece trimmed, is not empty
    and has no white space at either end; a text that is missing, empty
    or blank between all its commas gives no label. *)
Theorem parse_times_labels (times_csv : option string) :
  parse_times times_csv
  = strip <$> filter (fun piece => strip piece <> EmptyString)
                     (split "," (default EmptyString times_csv))
  /\ Forall (fun t => t <> EmptyString /\ strip t = t) (parse_times times_csv)
  /\ (Forall (fun piece => strip piece = EmptyString)
             (split "," (default EmptyString times_csv)) ->
      parse_times times_csv = []).
Proof.
  unfold parse_times.
  set (pieces := split "," (default EmptyString times_csv)).
  assert (filter (fun t => truthy (strip t) = true) pieces
          = filter (fun piece => strip piece <> EmptyString) pieces) as ->.
  { apply list_filter_iff. intros x. apply truthy_nonempty. }
  split_and!; [done| |].
  - apply Forall_fmap, Forall_forall. intros piece [Hp _]%list_elem_of_filter.
    simpl. split; [done|apply strip_idem].
  - intros Hall. induction Hall as [|piece l Hp _ IH]; [done|].
    rewrite filter_cons_False by (by intros ?). exact IH.
Qed.

Lemma parse_times_labels_witness :
  parse_times (Some " , ,") = [] /\ parse_times None = []
  /\ parse_times (Some " 09:00 ,,12:00") = ["09:00"; "12:00"].
Proof.
  destruct (parse_times_labels (Some " , ,")) as (_ & _ & H).
  split; [|split; reflexivity].
  apply H. repeat constructor.
Defined.

(** The labels of a map after an entry is set: a new label goes to the
    end, one that is there keeps its place. *)
Lemma dict_set_labels (k : string) (v : Z) (d : schedule) :
  (dict_set k v d).*1 = if decide (k ∈ d.*1) then d.*1 else d.*1 ++ [k].
Proof.
  induction d as [|[k' v'] d IH]; [done|]. cbn [dict_set].
  destruct (decide (k' = k)) as [->|Hne].
  - rewrite !fmap_cons. cbn [fst]. rewrite decide_True; [done|by left].
  - rewrite !fmap_cons, IH. cbn [fst].
    destruct (decide (k ∈ d.*1)) as [Hin|Hnin].
    + rewrite decide_True; [done|by right].
    + rewrite decide_False; [done|].
      intros [?|?]%elem_of_cons; congruence.
Qed.

Lemma dict_set_elem (k : string) (v : Z) (d : schedule) (x : string) (w : Z) :
  (x, w) ∈ dict_set k v d -> (x, w) ∈ d \/ (x = k /\ w = v).
Proof.
  induction d as [|[k' v'] d IH]; simpl.
  - intros [[= -> ->]|?%elem_of_nil]%elem_of_cons; [by right|done].
  - case_decide as E.
    + intros [[= -> ->]|Hin]%elem_of_cons; [by right|]. left. by right.
    + intros [[= -> ->]|Hin]%elem_of_cons; [left; by left|].
      destruct (IH Hin) as [?|?]; [left; by right|by right].
Qed.

Lemma initial_schedule_run (times : list string) (jitter_min : Z) (d : schedule)
    (σ : world) :
  Forall (fun t => is_Some_ok (_parse_hhmm_ext t)) times ->
  NoDup d.*1 ->
  exists m,
    initial_schedule times jitter_min d σ
    = (Ok m, set_draws (drop (length times) (draws σ)) σ)
    /\ NoDup m.*1
    /\ (forall t, t ∈ m.*1 <-> t ∈ d.*1 \/ t ∈ times)
    /\ (forall t v, (t, v) ∈ m -> (t, v) ∈ d \/ clock σ + seconds 5 <= v).
Proof.
  intros Hparse. revert d σ.
  induction Hparse as [|t times Ht _ IH]; intros d σ Hnd.
  - exists d. simpl. rewrite drop_0. split_and!; [by destruct σ|done| |].
    + intros t. split; [by left|]. intros [?|?%elem_of_nil]; done.
    + intros t v ?. by left.
  - cbn [initial_schedule]. rewrite bind_run.
    destruct (_parse_hhmm_ext t) as [[dd tt']|e] eqn:Hp; [|done].
    destruct (_next_at_with_jitter_run t jitter_min None σ dd tt' Hp)
      as (offs & Hrun & Ho).
    rewrite Hrun. cbn [default] in *.
    assert (clock σ + seconds 5
            <= jitter_start dd tt' jitter_min (clock σ) + seconds offs) as Hv.
    { unfold jitter_start, seconds in *. lia. }
    destruct (IH (dict_set t (jitter_start dd tt' jitter_min (clock σ) + seconds offs) d)
                 (set_draws (tail (draws σ)) σ))
      as (m & Hm & Hnd' & Hkeys & Hlate).
    { rewrite dict_set_labels. case_decide; [done|].
      apply NoDup_app. split_and!; [done| |apply NoDup_singleton].
      intros x Hx ->%list_elem_of_singleton. done. }
    exists m. split_and!.
    + rewrite Hm. f_equal. unfold set_draws. cbn. f_equal.
      destruct (draws σ); simpl; [by rewrite ?drop_nil|done].
    + done.
    + intros x. rewrite Hkeys, dict_set_labels, elem_of_cons.
      case_decide as Hin; [|rewrite elem_of_app, list_elem_of_singleton];
        intuition (subst; auto).
    + intros x w Hxw. destruct (Hlate x w Hxw) as [Hin|Hge]; [|by right].
      apply dict_set_elem in Hin as [?|[_ ->]]; [by left|by right].
Qed.

(** X15: the first schedule of the multi-time mode.  When every label
    parses, the map gets one entry for each label, a label listed twice
    included; every listed label, each repetition too, takes one draw
    from the random generator; and every instant in the map is at least 5
    seconds after the current instant.  The first label that does not
    parse makes the whole call raise. *)
Theorem initial_schedule_entries (times : list string) (jitter_min : Z) (σ : world) :
  (Forall (fun t => is_Some_ok (_parse_hhmm_ext t)) times ->
   exists m,
     initial_schedule times jitter_min [] σ
     = (Ok m, set_draws (drop (length times) (draws σ)) σ)
     /\ NoDup m.*1
     /\ (forall t, t ∈ m.*1 <-> t ∈ times)
     /\ Forall (fun kv => clock σ + seconds 5 <= kv.2) m)
  /\ (Exists (fun t => ~ is_Some_ok (_parse_hhmm_ext t)) times ->
      ~ is_Some_ok (initial_schedule times jitter_min [] σ).1).
Proof.
  split.
  - intros Hparse.
    destruct (initial_schedule_run times jitter_min [] σ Hparse)
      as (m & Hrun & Hnd & Hkeys & Hlate); [constructor|].
    exists m. split_and!; [done..| |].
    + intros t. rewrite Hkeys. split; [|by right].
      intros [?%elem_of_nil|?]; done.
    + apply Forall_forall. intros [t v] Hin.
      destruct (Hlate t v Hin) as [?%elem_of_nil|?]; done.
  - generalize (@nil (string * Z)) as d. intros d Hbad. revert d σ.
    induction times as [|t times IH]; intros d σ; [by apply Exists_nil in Hbad|].
    cbn [initial_schedule]. rewrite bind_run.
    destruct (_parse_hhmm_ext t) as [[dd tt']|e] eqn:Hp.
    + destruct (_next_at_with_jitter_run t jitter_min None σ dd tt' Hp)
        as (offs & Hrun & _).
      rewrite Hrun. apply IH.
      apply Exists_cons in Hbad as [Hbad|Hbad]; [|done].
      rewrite Hp in Hbad. by destruct Hbad.
    + unfold _next_at_with_jitter. rewrite !bind_run. unfold datetime_now, lift.
      rewrite Hp. cbn. by intros [].
Qed.

Lemma initial_schedule_entries_witness :
  let σ := World (seconds (9 * 3600)) (fun _ => StructTime 2024 1 5 9 0 0)
                 [1; 2; 3] [] [] [] [] in
  exists m,
    initial_schedule ["12:00"; "18:00"; "12:00"] 5 [] σ = (Ok m, set_draws [] σ)
    /\ NoDup m.*1
    /\ (forall t, t ∈ m.*1 <-> t ∈ ["12:00"; "18:00"; "12:00"])
    /\ Forall (fun kv => clock σ + seconds 5 <= kv.2) m.
Proof.
  intros σ.
  destruct (initial_schedule_entries ["12:00"; "18:00"; "12:00"] 5 σ) as [H _].
  apply H. repeat constructor.
Defined.

(** ** The daily-at loop *)

Lemma run_daily_at_round_run (user_id token time_str : string) (jitter_min : Z)
    (σ : world) (d : Z) (t : dtime) :
  _parse_hhmm_ext time_str = Ok (d, t) ->
  exists offs c nxt' σ',
    run_daily_at_round user_id token time_str jitter_min σ = (Ok nxt', σ')
    /\ 0 <= offs <= jitter_span d t jitter_min (clock σ)
    /\ jitter_start d t jitter_min (clock σ) + seconds offs <= c
       < jitter_start d t jitter_min (clock σ) + seconds offs + seconds 1
    /\ clock σ' = c
    /\ fired σ' = fired σ ++ [c].
Proof.
  intros Hp. unfold run_daily_at_round. rewrite bind_run.
  destruct (_next_at_with_jitter_run time_str jitter_min None σ d t Hp)
    as (offs & Hnext & Ho).
  cbn [default] in Hnext, Ho. rewrite Hnext.
  set (nxt := jitter_start d t jitter_min (clock σ) + seconds offs) in *.
  destruct (wait_until_run nxt (set_draws (tail (draws σ)) σ))
    as (c & Hwait & Hc1 & _ & Hc3 & _).
  rewrite bind_run, Hwait.
  destruct (fire_run user_id token (set_clock c (set_draws (tail (draws σ)) σ)))
    as (s' & rs & q & Hfire).
  cbn [clock set_clock localtime draws fired set_draws] in Hfire, Hc3.
  set (σb := World c (localtime σ) (tail (draws σ)) s' rs q (fired σ ++ [c])) in *.
  destruct (_next_at_with_jitter_run time_str jitter_min (Some (nxt + days 1)) σb d t Hp)
    as (offs' & Hnext' & _).
  rewrite bind_run, Hfire, bind_run, Hnext'.
  eexists offs, c, _, _. split; [done|]. split; [done|].
  split; [|by split].
  split; [done|]. apply Hc3.
  subst nxt. unfold jitter_start, seconds in *. lia.
Qed.

(** X16: [run_daily_at] draws the instant of every round afresh from the
    clock at the top of the round; the instant it computes after a firing
    for the following day is not the one it waits for.  Of two rounds in a
    row the second fires at least 5 seconds after the first and within the
    span drawn for the instant of the first firing; so, with a jitter that
    is not negative, a first firing on the day the loop started and not
    after the target plus the jitter is followed by a second one no more
    than 66 seconds after the target plus the jitter of that same
    target. *)
Theorem run_daily_at_draws_from_the_clock (user_id token time_str : string)
    (jitter_min : Z) (σ : world) (d : Z) (t : dtime) :
  _parse_hhmm_ext time_str = Ok (d, t) ->
  exists c1 c2 σ2,
    run_daily_at 2 user_id token time_str jitter_min σ = (Ok tt, σ2)
    /\ fired σ2 = fired σ ++ [c1; c2]
    /\ clock σ + seconds 5 <= c1
    /\ c1 + seconds 5 <= c2
    /\ c2 < jitter_start d t jitter_min c1
            + seconds (jitter_span d t jitter_min c1 + 1)
    /\ (0 <= jitter_min ->
        date c1 = date (clock σ) ->
        c1 <= jitter_target d t jitter_min (clock σ) + minutes jitter_min ->
        c2 < jitter_target d t jitter_min (clock σ) + minutes jitter_min + seconds 66).
Proof.
  intros Hp.
  destruct (run_daily_at_round_run user_id token time_str jitter_min σ d t Hp)
    as (o1 & c1 & n1 & σ1 & Hr1 & Ho1 & Hc1 & Hk1 & Hf1).
  destruct (run_daily_at_round_run user_id token time_str jitter_min σ1 d t Hp)
    as (o2 & c2 & n2 & σ2 & Hr2 & Ho2 & Hc2 & Hk2 & Hf2).
  rewrite Hk1 in Ho2, Hc2.
  exists c1, c2, σ2.
  split_and!.
  - cbn [run_daily_at]. rewrite bind_run, Hr1, bind_run, Hr2. done.
  - rewrite Hf2, Hf1, <- app_assoc. done.
  - unfold jitter_start, seconds in *. lia.
  - unfold jitter_start, seconds in *. lia.
  - unfold seconds in *. lia.
  - intros HJ Hday Hend.
    assert (jitter_target d t jitter_min c1 = jitter_target d t jitter_min (clock σ))
      as Ht.
    { unfold jitter_target in *. rewrite Hday.
      set (base := combine (date (clock σ)) t + days d) in *.
      assert (clock σ <= c1) by (unfold jitter_start, seconds in *; lia).
      repeat case_decide; unfold days, minutes in *; lia. }
    set (target := jitter_target d t jitter_min (clock σ)) in *.
    assert (jitter_start d t jitter_min c1
            = (target - minutes jitter_min) `max` (c1 + seconds 5)) as Hst
      by (unfold jitter_start; by rewrite Ht).
    assert (jitter_span d t jitter_min c1
            = 60 `max` total_seconds_int
                         (target + minutes jitter_min - jitter_start d t jitter_min c1))
      as Hsp by (unfold jitter_span; by rewrite Ht).
    set (start := jitter_start d t jitter_min c1) in *.
    destruct (Z.le_gt_cases 0 (target + minutes jitter_min - start)) as [Hn|Hn].
    + destruct (total_seconds_int_nonneg _ Hn) as (Hq0 & Hq & _).
      unfold seconds, minutes in *. lia.
    + pose proof (total_seconds_int_nonpos (target + minutes jitter_min - start)
                    ltac:(lia)).
      unfold seconds, minutes in *. lia.
Qed.

Lemma run_daily_at_draws_from_the_clock_witness :
  let σ := World (seconds (11 * 3600 + 29 * 60 + 50))
                 (fun _ => StructTime 2024 1 5 11 29 50)
                 [0; 0; 0; 0] [] [] [] [] in
  _parse_hhmm_ext "12:00" = Ok (0, Dtime 12 0)
  /\ exists c1 c2 σ2,
       run_daily_at 2 "u" "t" "12:00" 30 σ = (Ok tt, σ2)
       /\ fired σ2 = [c1; c2]
       /\ c1 + seconds 5 <= c2
       /\ c2 < seconds (12 * 3600 + 30 * 60 + 66).
Proof.
  intros σ. split; [reflexivity|].
  destruct (run_daily_at_draws_from_the_clock "u" "t" "12:00" 30 σ 0 (Dtime 12 0))
    as (c1 & c2 & σ2 & Hrun & Hf & _ & H5 & _ & Hsame); [reflexivity|].
  assert (fired (run_daily_at 2 "u" "t" "12:00" 30 σ).2
          = [seconds (11 * 3600 + 30 * 60); seconds (11 * 3600 + 30 * 60 + 5)]) as Hv
    by (vm_compute; reflexivity).
  rewrite Hrun in Hv. cbn [snd] in Hv. rewrite Hv in Hf.
  cbn [fired app] in Hf. injection Hf as <- <-.
  eexists _, _, σ2. split; [exact Hrun|]. split; [exact Hv|]. split; [exact H5|].
  change (seconds (12 * 3600 + 30 * 60 + 66))
    with (jitter_target 0 (Dtime 12 0) 30 (clock σ) + minutes 30 + seconds 66).
  apply Hsame; [lia|reflexivity|by vm_compute].
Defined.

(** ** Batch mode *)

(** A round of [run_batch] leaves the world as [post_next_unposted] does. *)
Lemma run_batch_body (user_id token : string) (header : list string) (σ : world)
    (idx : nat) (r : row) :
  "status" ∈ header -> "posted_at" ∈ header -> "error" ∈ header ->
  first_unposted (rows_with_index (sheet σ) header) = Some (idx, r) ->
  try_except
    (res ← post_one user_id token r;
     update_result header idx "posted" EmptyString)
    (fun e => update_result header idx "failed" (str_exn e)) σ
  = (Ok tt, (post_next_unposted user_id token header σ).2).
Proof.
  intros Hs Hp He Hpick.
  destruct (first_unposted_from_sheet _ _ _ _ Hpick) as [i ->].
  pose proof (post_one_raises_Exception user_id token r σ) as Hexc.
  unfold post_next_unposted.
  rewrite (bind_run get_all_values). unfold get_all_values. rewrite Hpick.
  unfold try_except. rewrite !bind_run.
  destruct (post_one user_id token r σ) as [[res|e] σ1]; cbn [fst snd] in *.
  - destruct (update_result_returns header i "posted" EmptyString σ1 Hs Hp He)
      as (s' & Hrun).
    by rewrite bind_run, Hrun.
  - rewrite (Hexc e eq_refl).
    destruct (update_result_returns header i "failed" (str_exn e) σ1 Hs Hp He)
      as (s' & Hrun).
    by rewrite bind_run, Hrun.
Qed.

Lemma run_batch_loop_step (rounds : nat) (user_id token : string)
    (header : list string) (max_per_run n : Z) (σ : world) (idx : nat) (r : row) :
  "status" ∈ header -> "posted_at" ∈ header -> "error" ∈ header ->
  first_unposted (rows_with_index (sheet σ) header) = Some (idx, r) ->
  let σ2 := (post_next_unposted user_id token header σ).2 in
  run_batch_loop (S rounds) user_id token header max_per_run n
                 (rows_with_index (sheet σ) header) σ
  = if decide (max_per_run <> 0 /\ n + 1 >= max_per_run) then (Ok true, σ2)
    else run_batch_loop rounds user_id token header max_per_run (n + 1)
                        (rows_with_index (sheet σ2) header) σ2.
Proof.
  intros Hs Hp He Hpick σ2. cbn [run_batch_loop]. rewrite Hpick.
  rewrite bind_run, (run_batch_body _ _ _ _ _ _ Hs Hp He Hpick). fold σ2.
  by case_decide.
Qed.

Lemma post_one_sent_bound (user_id token : string) (r : row) (σ : world) :
  (length (sent σ) < length (sent (post_one user_id token r σ).2)
   <= length (sent σ) + 6)%nat.
Proof.
  pose proof (retry_outcome_attempts 3 (replies σ)) as H1.
  change (Nat.max 1 3) with 3%nat in H1.
  destruct (truthy (strip (default EmptyString (r !! "image_url")))) eqn:E.
  - rewrite (post_one_image_run _ _ _ _ E). cbv zeta.
    destruct (retry_outcome 3 (replies σ)).1.
    + pose proof (retry_outcome_attempts 3
                    (drop (retry_outcome 3 (replies σ)).2 (replies σ))) as H2.
      change (Nat.max 1 3) with 3%nat in H2.
      cbn [snd sent set_net]. rewrite !length_app, !length_replicate. lia.
    + cbn [snd sent set_net]. rewrite !length_app, !length_replicate. lia.
  - rewrite (post_one_text_run _ _ _ _ E).
    cbn [snd sent set_net]. rewrite !length_app, !length_replicate. lia.
Qed.

Lemma run_batch_loop_bounded (rounds : nat) (user_id token : string)
    (header : list string) (max_per_run n : Z) (σ : world) :
  "status" ∈ header -> "posted_at" ∈ header -> "error" ∈ header ->
  0 <= n < max_per_run -> max_per_run <= n + Z.of_nat rounds ->
  exists σ',
    run_batch_loop rounds user_id token header max_per_run n
                   (rows_with_index (sheet σ) header) σ = (Ok true, σ')
    /\ Z.of_nat (length (sent σ'))
       <= Z.of_nat (length (sent σ)) + 6 * (max_per_run - n).
Proof.
  intros Hs Hp He. revert n σ.
  induction rounds as [|rounds IH]; intros n σ Hn Hr; [lia|].
  destruct (first_unposted (rows_with_index (sheet σ) header)) as [[idx r]|] eqn:Hpick.
  2:{ exists σ. cbn [run_batch_loop]. rewrite Hpick. split; [done|]. lia. }
  rewrite (run_batch_loop_step _ _ _ _ _ _ _ _ _ Hs Hp He Hpick). cbv zeta.
  destruct (post_next_unposted_rows user_id token header σ idx r Hs Hp He Hpick)
    as (b & r' & pre & post & σ2 & Hrun & _ & _ & _ & _ & _ & _ & _ & _ & _ & Hsent).
  rewrite Hrun. cbn [snd].
  pose proof (post_one_sent_bound user_id token r σ) as Hb. rewrite <- Hsent in Hb.
  case_decide as Hstop.
  - exists σ2. split; [done|]. lia.
  - destruct (IH (n + 1) σ2) as (σ' & Hloop & Hlen); [lia..|].
    exists σ'. split; [done|]. lia.
Qed.

(** X17: with a positive [max_per_run] the loop of [run_batch] ends within
    that many rounds, and the whole run sends no more than six requests
    for every row allowed: three attempts each of create-container and of
    publish-container. *)
Theorem run_batch_bounded (rounds : nat) (user_id token : string)
    (max_per_run : Z) (σ : world) :
  1 <= max_per_run -> max_per_run <= Z.of_nat rounds ->
  exists σ',
    run_batch rounds user_id token max_per_run σ = (Ok true, σ')
    /\ Z.of_nat (length (sent σ')) <= Z.of_nat (length (sent σ)) + 6 * max_per_run.
Proof.
  intros Hmax Hrounds. unfold run_batch.
  destruct (ensure_header_run σ)
    as (header & added & σ1 & Hrun & Hall & _ & _ & _ & Hσ1 & _).
  rewrite bind_run, Hrun, bind_run. unfold get_all_values at 1.
  destruct (run_batch_loop_bounded rounds user_id token header max_per_run 0 σ1)
    as (σ' & Hloop & Hlen); [apply Hall; unfold NEED_COLS; repeat constructor..|lia|lia|].
  exists σ'. split; [done|]. rewrite Hσ1 in Hlen. cbn [sent set_sheet] in Hlen. lia.
Qed.

Lemma run_batch_bounded_witness :
  let σ := World 0 (fun _ => StructTime 2024 1 5 9 3 7) []
                 [["text"]; ["a"]; ["b"]; ["c"]] [] [] [] in
  exists σ',
    run_batch 2 "u" "t" 2 σ = (Ok true, σ')
    /\ Z.of_nat (length (sent σ')) <= Z.of_nat (length (sent σ)) + 6 * 2.
Proof.
  intros σ. apply (run_batch_bounded 2 "u" "t" 2 σ); lia.
Defined.

Lemma first_unposted_after_failure (pre post : list (nat * row)) (idx : nat)
    (r r' : row) :
  Forall (fun p => ~ eligible p.2) pre ->
  eligible r ->
  r' !! "status" = Some "failed" ->
  (forall name, name ∉ result_cols -> r' !! name = r !! name) ->
  first_unposted (pre ++ (idx, r') :: post) = Some (idx, r').
Proof.
  intros Hpre [_ Hb] Hst Hother.
  rewrite (first_unposted_app_skip _ _ Hpre). simpl.
  assert (unposted r' = true) as ->; [|done].
  apply unposted_eligible. split.
  - unfold posted_status. rewrite Hst. by vm_compute.
  - unfold blank in *.
    rewrite !Hother; [done|..]; unfold result_cols; rewrite !not_elem_of_cons;
      split_and!; (by apply not_elem_of_nil) || str_ne.
Qed.

Lemma first_unposted_after_success (pre post : list (nat * row)) (idx : nat)
    (r' : row) :
  Forall (fun p => ~ eligible p.2) pre ->
  r' !! "status" = Some "posted" ->
  first_unposted (pre ++ (idx, r') :: post) = first_unposted post
  /\ filter (fun p => unposted p.2 = true) (pre ++ (idx, r') :: post)
     = filter (fun p => unposted p.2 = true) post.
Proof.
  intros Hpre Hst.
  assert (unposted r' = false) as Hu.
  { unfold unposted. rewrite Hst. by vm_compute. }
  split.
  - rewrite (first_unposted_app_skip _ _ Hpre). simpl. by rewrite Hu.
  - rewrite filter_app, filter_cons_False by (simpl; congruence).
    assert (filter (fun p : nat * row => unposted p.2 = true) pre = []) as ->; [|done].
    induction Hpre as [|p pre Hn _ IH]; [done|].
    rewrite filter_cons_False; [done|]. by rewrite unposted_eligible.
Qed.

Lemma post_one_api_down (user_id token : string) (r : row) (σ : world) :
  replies σ = [] ->
  exists q,
    post_one user_id token r σ
    = (Raise (RequestException "connection failed"),
       set_net [] (sent σ ++ replicate 3 q) σ).
Proof.
  intros Hr.
  destruct (truthy (strip (default EmptyString (r !! "image_url")))) eqn:E.
  - rewrite (post_one_image_run _ _ _ _ E), Hr. by eexists.
  - rewrite (post_one_text_run _ _ _ _ E), Hr. by eexists.
Qed.

Lemma run_batch_loop_stuck (rounds : nat) (user_id token : string)
    (header : list string) (n : Z) (σ : world) (idx : nat) (r : row) :
  "status" ∈ header -> "posted_at" ∈ header -> "error" ∈ header ->
  replies σ = [] ->
  first_unposted (rows_with_index (sheet σ) header) = Some (idx, r) ->
  exists σ' r',
    run_batch_loop rounds user_id token header 0 n
                   (rows_with_index (sheet σ) header) σ = (Ok false, σ')
    /\ length (sent σ') = (length (sent σ) + 3 * rounds)%nat
    /\ replies σ' = []
    /\ first_unposted (rows_with_index (sheet σ') header) = Some (idx, r')
    /\ (rounds = 0%nat -> r' = r)
    /\ ((1 <= rounds)%nat -> r' !! "status" = Some "failed").
Proof.
  intros Hs Hp He. revert n σ r.
  induction rounds as [|rounds IH]; intros n σ r Hr Hpick.
  - exists σ, r. split_and!; [done|lia|done..|lia].
  - rewrite (run_batch_loop_step _ _ _ _ _ _ _ _ _ Hs Hp He Hpick). cbv zeta.
    rewrite decide_False by (intros [? _]; done).
    destruct (post_next_unposted_rows user_id token header σ idx r Hs Hp He Hpick)
      as (b & r1 & pre & post & σ2 & Hrun & Hb & _ & Hrows' & Hpre & _ & Hel & Hst
          & Hother & Hrep & Hsent).
    destruct (post_one_api_down user_id token r σ Hr) as (q & Hpo).
    rewrite Hpo in Hb, Hrep, Hsent. cbn [fst snd replies sent set_net] in *.
    destruct b; [by destruct (proj1 Hb eq_refl)|].
    rewrite Hrun. cbn [snd].
    destruct (IH (n + 1) σ2 r1)
      as (σ' & r' & Hloop & Hlen & Hrep' & Hpick' & H0 & H1).
    { done. }
    { rewrite Hrows'. by apply (first_unposted_after_failure _ _ _ r). }
    exists σ', r'. split_and!; [done| |done..|lia|].
    + rewrite Hlen, Hsent, length_app, length_replicate. lia.
    + intros _. destruct rounds as [|k]; [by rewrite H0|apply H1; lia].
Qed.

(** X18: while the remote API cannot be reached, [run_batch] without a
    [max_per_run] does not leave its loop: with a row to post in the sheet
    it handles that same row in every round, marks it failed, sends its
    three attempts again, and after any number of rounds the loop is
    still going with that row next. *)
Theorem run_batch_stuck_while_api_down (rounds : nat) (user_id token : string)
    (σ σ1 : world) (header : list string) (idx : nat) (r : row) :
  ensure_header σ = (Ok header, σ1) ->
  first_unposted (rows_with_index (sheet σ1) header) = Some (idx, r) ->
  replies σ = [] ->
  exists σ' r',
    run_batch rounds user_id token 0 σ = (Ok false, σ')
    /\ length (sent σ') = (length (sent σ) + 3 * rounds)%nat
    /\ first_unposted (rows_with_index (sheet σ') header) = Some (idx, r')
    /\ (1 <= rounds -> r' !! "status" = Some "failed")%nat.
Proof.
  intros Hrun Hpick Hr.
  destruct (ensure_header_run σ)
    as (header' & added & σ1' & Hrun' & Hall & _ & _ & _ & Hσ1 & _).
  rewrite Hrun in Hrun'. injection Hrun' as <- <-.
  assert ("status" ∈ header /\ "posted_at" ∈ header /\ "error" ∈ header)
    as (Hs & Hp & He)
    by (split_and!; apply Hall; unfold NEED_COLS; repeat constructor).
  assert (replies σ1 = []) as Hr1 by (by rewrite Hσ1).
  unfold run_batch. rewrite bind_run, Hrun, bind_run. unfold get_all_values at 1.
  destruct (run_batch_loop_stuck rounds user_id token header 0 σ1 idx r
              Hs Hp He Hr1 Hpick) as (σ' & r' & Hloop & Hlen & _ & Hpick' & _ & Hst).
  exists σ', r'. split_and!; [done| |done..].
  rewrite Hlen, Hσ1. done.
Qed.

Lemma run_batch_stuck_while_api_down_witness :
  let σ := World 0 (fun _ => StructTime 2024 1 5 9 3 7) []
                 [NEED_COLS; ["hello"]; ["again"]] [] [] [] in
  exists σ' r',
    run_batch 4 "u" "t" 0 σ = (Ok false, σ')
    /\ length (sent σ') = 12%nat
    /\ first_unposted (rows_with_index (sheet σ') NEED_COLS) = Some (2%nat, r')
    /\ r' !! "status" = Some "failed".
Proof.
  intros σ.
  destruct (run_batch_stuck_while_api_down 4 "u" "t" σ σ NEED_COLS 2
              (row_of NEED_COLS ["hello"]))
    as (σ' & r' & H1 & H2 & H3 & H4); [vm_compute; reflexivity..|].
  exists σ', r'. split_and!; [done..|]. apply H4. lia.
Defined.

Lemma retry_outcome_good (o : string + response) (rest : list (string + response)) :
  good_reply o ->
  exists data, retry_outcome 3 (o :: rest) = (Ok data, 1%nat).
Proof.
  destruct o as [msg|resp]; [done|]. intros [Hst [data Hj]].
  exists data. cbn [retry_outcome head attempt_result]. unfold check_reply.
  rewrite decide_False by lia. by rewrite Hj.
Qed.

(** With the remote API answering well, the submission returns and uses
    one reply for a text post, two for an image post. *)
Lemma post_one_api_good (user_id token : string) (r : row) (σ : world) :
  Forall good_reply (replies σ) -> (2 <= length (replies σ))%nat ->
  exists res k q,
    post_one user_id token r σ
    = (Ok res, set_net (drop k (replies σ)) (sent σ ++ q) σ)
    /\ (1 <= k <= 2)%nat /\ length q = k.
Proof.
  intros Hgood Hlen.
  destruct (replies σ) as [|o1 [|o2 rest]] eqn:Hr; [simpl in Hlen; lia..|].
  apply Forall_cons in Hgood as [Hg1 Hgood]. apply Forall_cons in Hgood as [Hg2 _].
  destruct (retry_outcome_good o1 (o2 :: rest) Hg1) as (d1 & H1).
  destruct (retry_outcome_good o2 rest Hg2) as (d2 & H2).
  destruct (truthy (strip (default EmptyString (r !! "image_url")))) eqn:E.
  - rewrite (post_one_image_run _ _ _ _ E), Hr. cbv zeta.
    rewrite H1. cbn [fst snd drop]. rewrite H2. cbn [fst snd].
    eexists _, 2%nat, _. split; [by rewrite <- app_assoc|]. split; [lia|done].
  - rewrite (post_one_text_run _ _ _ _ E), Hr, H1. cbn [fst snd].
    eexists _, 1%nat, _. split; [done|]. split; [lia|done].
Qed.

Lemma first_unposted_None_filter (rows : list (nat * row)) :
  first_unposted rows = None <-> filter (fun p => unposted p.2 = true) rows = [].
Proof.
  induction rows as [|[j r] rows IH]; [done|]. simpl.
  destruct (unposted r) eqn:E.
  - rewrite filter_cons_True by done. done.
  - rewrite filter_cons_False by (simpl; congruence). done.
Qed.

Lemma filter_unposted_none (pre : list (nat * row)) :
  Forall (fun p => ~ eligible p.2) pre ->
  filter (fun p => unposted p.2 = true) pre = [].
Proof.
  induction 1 as [|p pre Hn _ IH]; [done|].
  rewrite filter_cons_False; [done|]. by rewrite unposted_eligible.
Qed.

Lemma run_batch_loop_drains (c rounds : nat) (user_id token : string)
    (header : list string) (n : Z) (σ : world) :
  "status" ∈ header -> "posted_at" ∈ header -> "error" ∈ header ->
  length (filter (fun p => unposted p.2 = true) (rows_with_index (sheet σ) header)) = c ->
  Forall good_reply (replies σ) ->
  (2 * c <= length (replies σ))%nat ->
  (c < rounds)%nat ->
  exists σ',
    run_batch_loop rounds user_id token header 0 n
                   (rows_with_index (sheet σ) header) σ = (Ok true, σ')
    /\ first_unposted (rows_with_index (sheet σ') header) = None
    /\ (length (sent σ) + c <= length (sent σ') <= length (sent σ) + 2 * c)%nat.
Proof.
  intros Hs Hp He. revert rounds n σ.
  induction c as [|c IH]; intros rounds n σ Hc Hgood Hlen Hrounds.
  - apply length_zero_iff_nil, first_unposted_None_filter in Hc.
    destruct rounds as [|rounds]; [lia|].
    exists σ. cbn [run_batch_loop]. rewrite Hc. split_and!; [done..|lia|lia].
  - destruct (first_unposted (rows_with_index (sheet σ) header)) as [[idx r]|] eqn:Hpick.
    2:{ apply first_unposted_None_filter in Hpick. rewrite Hpick in Hc. done. }
    destruct rounds as [|rounds]; [lia|].
    rewrite (run_batch_loop_step _ _ _ _ _ _ _ _ _ Hs Hp He Hpick). cbv zeta.
    rewrite decide_False by (intros [? _]; done).
    destruct (post_next_unposted_rows user_id token header σ idx r Hs Hp He Hpick)
      as (b & r' & pre & post & σ2 & Hrun & Hb & Hrows & Hrows' & Hpre & _ & Hel & Hst
          & _ & Hrep & Hsent).
    destruct (post_one_api_good user_id token r σ Hgood) as (res & k & q & Hpo & Hk & Hq);
      [lia|].
    rewrite Hpo in Hb, Hrep, Hsent. cbn [fst snd replies sent set_net] in *.
    assert (b = true) as -> by (by apply Hb).
    destruct (first_unposted_after_success pre post idx r' Hpre Hst) as [_ Hf'].
    assert (length (filter (fun p => unposted p.2 = true) post) = c) as Hc'.
    { rewrite Hrows, filter_app, filter_cons_True in Hc
        by (simpl; by apply unposted_eligible).
      rewrite (filter_unposted_none _ Hpre) in Hc. simpl in Hc. lia. }
    rewrite Hrun. cbn [snd].
    destruct (IH rounds (n + 1) σ2) as (σ' & Hloop & Hnone & Hsent').
    { by rewrite Hrows', Hf'. }
    { rewrite Hrep. by apply Forall_drop. }
    { rewrite Hrep, length_drop. lia. }
    { lia. }
    exists σ'. split_and!; [done..| |];
      rewrite Hsent, length_app, Hq in Hsent'; lia.
Qed.

(** X19: with the remote API answering every request well, and two
    replies at hand for every row to post, [run_batch] without a
    [max_per_run] posts its way through the sheet and stops: the loop ends
    within one round more than there are rows to post, no row to post is
    left in the sheet, and it has sent one or two requests for each of
    them. *)
Theorem run_batch_drains_the_sheet (rounds c : nat) (user_id token : string)
    (σ σ1 : world) (header : list string) :
  ensure_header σ = (Ok header, σ1) ->
  length (filter (fun p => unposted p.2 = true) (rows_with_index (sheet σ1) header)) = c ->
  Forall good_reply (replies σ) ->
  (2 * c <= length (replies σ))%nat ->
  (c < rounds)%nat ->
  exists σ',
    run_batch rounds user_id token 0 σ = (Ok true, σ')
    /\ first_unposted (rows_with_index (sheet σ') header) = None
    /\ (length (sent σ) + c <= length (sent σ') <= length (sent σ) + 2 * c)%nat.
Proof.
  intros Hrun Hc Hgood Hlen Hrounds.
  destruct (ensure_header_run σ)
    as (header' & added & σ1' & Hrun' & Hall & _ & _ & _ & Hσ1 & _).
  rewrite Hrun in Hrun'. injection Hrun' as <- <-.
  assert ("status" ∈ header /\ "posted_at" ∈ header /\ "error" ∈ header)
    as (Hs & Hp & He)
    by (split_and!; apply Hall; unfold NEED_COLS; repeat constructor).
  assert (replies σ1 = replies σ) as Hr1 by (by rewrite Hσ1).
  assert (sent σ1 = sent σ) as Hs1 by (by rewrite Hσ1).
  unfold run_batch. rewrite bind_run, Hrun, bind_run. unfold get_all_values at 1.
  destruct (run_batch_loop_drains c rounds user_id token header 0 σ1
              Hs Hp He Hc) as (σ' & Hloop & Hnone & Hsent);
    [rewrite ?Hr1; assumption..|].
  exists σ'. rewrite Hs1 in Hsent. split; [exact Hloop|]. split; [exact Hnone|exact Hsent].
Qed.

Lemma run_batch_drains_the_sheet_witness :
  let header := ["text"; "status"; "posted_at"; "error"; "image_url"; "alt_text";
                 "link_attachment"; "reply_control"; "topic_tag"; "location_id"] in
  let ok := Response 200 "{}" (Some {[ "id" := "17" ]}) in
  let σ := World 0 (fun _ => StructTime 2024 1 5 9 3 7) []
                 [header; ["hello"]; ["done"; "posted"]; [""; ""; ""; ""; "http://img"]]
                 [inr ok; inr ok; inr ok; inr ok] [] [] in
  exists σ',
    run_batch 3 "u" "t" 0 σ = (Ok true, σ')
    /\ first_unposted (rows_with_index (sheet σ') header) = None
    /\ (2 <= length (sent σ') <= 4)%nat.
Proof.
  intros header ok σ.
  destruct (run_batch_drains_the_sheet 3 2 "u" "t" σ σ header)
    as (σ' & H1 & H2 & H3);
    [vm_compute; reflexivity|vm_compute; reflexivity| |simpl; lia|lia|].
  - repeat constructor; simpl; try lia; by eexists.
  - exists σ'. split; [exact H1|]. split; [exact H2|].
    change (length (sent σ)) with 0%nat in H3. lia.
Defined.

(** ** The daily-window loop, a reply that is not JSON *)

(** The draw inside today's window: with more than 5 seconds of it left 5
    seconds from now. *)
Lemma _next_random_in_window_today (window_str start_s end_s : string)
    (t_start t_end : dtime) (σ : world) :
  split "-" window_str = [start_s; end_s] ->
  _parse_hhmm start_s = Ok t_start ->
  _parse_hhmm end_s = Ok t_end ->
  let S0 := combine (date (clock σ)) t_start in
  let E0 := combine (date (clock σ)) t_end in
  seconds 5 < E0 - S0 `max` (clock σ + seconds 5) ->
  exists v,
    _next_random_in_window window_str σ = (Ok v, set_draws (tail (draws σ)) σ)
    /\ S0 `max` (clock σ + seconds 5) <= v <= E0.
Proof.
  intros Hsplit Hs He S0 E0 Hroom.
  destruct (_next_random_in_window_run _ _ _ _ _ σ Hsplit Hs He) as (offs & Hrun & Ho).
  cbv zeta in Hrun, Ho. fold S0 E0 in Hrun, Ho.
  rewrite (bool_decide_eq_false_2 (E0 <= clock σ \/ E0 <= S0)) in Hrun, Ho
    by (unfold seconds in *; lia).
  rewrite (bool_decide_eq_false_2 (E0 - S0 `max` (clock σ + seconds 5) <= seconds 5))
    in Hrun, Ho by lia.
  destruct (total_seconds_int_nonneg (E0 - S0 `max` (clock σ + seconds 5)))
    as (Hq0 & Hq & _); [unfold seconds in *; lia|].
  eexists. split; [exact Hrun|]. unfold seconds in *. lia.
Qed.

Lemma run_daily_window_round_run (user_id token window_str start_s end_s : string)
    (t_start t_end : dtime) (σ : world) :
  split "-" window_str = [start_s; end_s] ->
  _parse_hhmm start_s = Ok t_start ->
  _parse_hhmm end_s = Ok t_end ->
  exists v c nxt' σ',
    run_daily_window_round user_id token window_str σ = (Ok nxt', σ')
    /\ (_next_random_in_window window_str σ).1 = Ok v
    /\ v <= c /\ clock σ <= c /\ (clock σ < v -> c < v + seconds 1)
    /\ clock σ' = c
    /\ fired σ' = fired σ ++ [c].
Proof.
  intros Hsplit Hs He. unfold run_daily_window_round. rewrite bind_run.
  destruct (_next_random_in_window_run _ _ _ _ _ σ Hsplit Hs He) as (offs & Hrun & _).
  cbv zeta in Hrun. rewrite Hrun.
  match type of Hrun with _ = (Ok ?x, _) => set (v := x) in * end.
  destruct (wait_until_run v (set_draws (tail (draws σ)) σ))
    as (c & Hwait & Hc1 & Hc2 & Hc3 & _).
  rewrite bind_run, Hwait.
  destruct (fire_run user_id token (set_clock c (set_draws (tail (draws σ)) σ)))
    as (s' & rs & q & Hfire).
  cbn [clock set_clock localtime draws fired set_draws] in Hfire, Hc2, Hc3.
  set (σb := World c (localtime σ) (tail (draws σ)) s' rs q (fired σ ++ [c])) in *.
  destruct (_next_random_in_window_run _ _ _ _ _ σb Hsplit Hs He) as (offs' & Hrun' & _).
  cbv zeta in Hrun'.
  rewrite bind_run, Hfire, bind_run, Hrun'.
  eexists v, c, _, _. by split_and!.
Qed.

(** X20: [run_daily_window] draws the instant of every round afresh from
    the clock at the top of the round.  Of two rounds in a row, when more
    than 5 seconds of the window of the day of the first firing are left 5
    seconds after it, the second firing comes at least 5 seconds after the
    first and within that same day's window (up to the second by which
    the waiting loop may pass the instant drawn). *)
Theorem run_daily_window_draws_from_the_clock
    (user_id token window_str start_s end_s : string) (t_start t_end : dtime)
    (σ : world) :
  split "-" window_str = [start_s; end_s] ->
  _parse_hhmm start_s = Ok t_start ->
  _parse_hhmm end_s = Ok t_end ->
  exists c1 c2 σ2,
    run_daily_window 2 user_id token window_str σ = (Ok tt, σ2)
    /\ fired σ2 = fired σ ++ [c1; c2]
    /\ clock σ <= c1
    /\ (seconds 5 < combine (date c1) t_end
                    - combine (date c1) t_start `max` (c1 + seconds 5) ->
        c1 + seconds 5 <= c2
        /\ combine (date c1) t_start <= c2 < combine (date c1) t_end + seconds 1).
Proof.
  intros Hsplit Hs He.
  destruct (run_daily_window_round_run user_id token _ _ _ _ _ σ Hsplit Hs He)
    as (v1 & c1 & n1 & σ1 & Hr1 & _ & _ & Hc1 & _ & Hk1 & Hf1).
  destruct (run_daily_window_round_run user_id token _ _ _ _ _ σ1 Hsplit Hs He)
    as (v2 & c2 & n2 & σ2 & Hr2 & Hv2 & Hc2 & _ & Hc2' & Hk2 & Hf2).
  exists c1, c2, σ2. split_and!.
  - cbn [run_daily_window]. rewrite bind_run, Hr1, bind_run, Hr2. done.
  - rewrite Hf2, Hf1, <- app_assoc. done.
  - done.
  - intros Hroom. rewrite <- Hk1 in Hroom.
    destruct (_next_random_in_window_today _ _ _ _ _ σ1 Hsplit Hs He Hroom)
      as (v & Hv & Hlo & Hhi).
    rewrite Hv in Hv2. injection Hv2 as ->.
    rewrite Hk1 in *. unfold seconds in *. lia.
Qed.

Lemma run_daily_window_draws_from_the_clock_witness :
  let σ := World (seconds (9 * 3600)) (fun _ => StructTime 2024 1 5 9 0 0)
                 [0; 0; 0; 0] [] [] [] [] in
  (split "-" "09:00-17:00" = ["09:00"; "17:00"]
   /\ _parse_hhmm "09:00" = Ok (Dtime 9 0) /\ _parse_hhmm "17:00" = Ok (Dtime 17 0))
  /\ exists c1 c2 σ2,
       run_daily_window 2 "u" "t" "09:00-17:00" σ = (Ok tt, σ2)
       /\ fired σ2 = [c1; c2]
       /\ c1 + seconds 5 <= c2
       /\ c2 < seconds (17 * 3600 + 1).
Proof.
  intros σ. split; [split_and!; reflexivity|].
  destruct (run_daily_window_draws_from_the_clock "u" "t" "09:00-17:00" "09:00" "17:00"
              (Dtime 9 0) (Dtime 17 0) σ)
    as (c1 & c2 & σ2 & Hrun & Hf & _ & Hsame); [reflexivity..|].
  assert (fired (run_daily_window 2 "u" "t" "09:00-17:00" σ).2
          = [seconds (9 * 3600 + 5); seconds (9 * 3600 + 10)]) as Hv
    by (vm_compute; reflexivity).
  rewrite Hrun in Hv. cbn [snd] in Hv. rewrite Hv in Hf.
  cbn [fired app] in Hf. injection Hf as <- <-.
  destruct Hsame as [H5 [_ Hend]]; [by vm_compute|].
  eexists _, _, σ2. split; [exact Hrun|]. split; [exact Hv|]. split; [exact H5|].
  exact Hend.
Defined.

(** X21: a reply with a status below 400 whose body is not JSON counts
    as a failed attempt: the attempt raises [ValueError] and the request,
    which the remote API has answered without an error status, is sent
    again. *)
Theorem reply_without_json_is_retried (user_id token : string)
    (payload : gmap string pval) (σ : world) (r1 r2 : response)
    (rest : list (string + response)) (data : gmap string string) :
  replies σ = inr r1 :: inr r2 :: rest ->
  status_code r1 < 400 -> json r1 = None ->
  status_code r2 < 400 -> json r2 = Some data ->
  (create_container_once user_id token payload σ).1
  = Raise (ValueError "Expecting value")
  /\ create_container user_id token payload σ
     = (Ok data,
        set_net rest (sent σ ++ replicate 2 (create_request user_id token payload)) σ).
Proof.
  intros Hr H1 J1 H2 J2. split.
  - unfold create_container_once. rewrite requests_post_check_run, Hr.
    cbn [fst head attempt_result]. unfold check_reply.
    rewrite decide_False by lia. by rewrite J1.
  - rewrite create_container_run, Hr.
    assert (retry_outcome 3 (inr r1 :: inr r2 :: rest) = (Ok data, 2%nat)) as ->; [|done].
    cbn [retry_outcome head tail attempt_result]. unfold check_reply.
    rewrite !decide_False by lia. by rewrite J1, J2.
Qed.

Lemma reply_without_json_is_retried_witness :
  let r1 := Response 200 "<html>ok</html>" None in
  let r2 := Response 200 "{}" (Some {[ "id" := "17" ]}) in
  let σ := World 0 (fun _ => StructTime 2024 1 5 9 3 7) [] []
                 [inr r1; inr r2] [] [] in
  create_container "u" "t" ∅ σ
  = (Ok {[ "id" := "17" ]}, set_net [] (replicate 2 (create_request "u" "t" ∅)) σ).
Proof.
  intros r1 r2 σ.
  destruct (reply_without_json_is_retried "u" "t" ∅ σ r1 r2 [] {[ "id" := "17" ]})
    as [_ H]; [reflexivity|simpl; lia|reflexivity|simpl; lia|reflexivity|exact H].
Defined.
